(** * Bank statement converter: PDF parser and data processor

    A shallow embedding of [backend/utils/pdf_parser.py] and
    [backend/utils/data_processor.py], with the parts of the Python
    runtime they rely on (strings, binary64 floats, [float()], [round()],
    [datetime.strptime]/[strftime]), followed by the properties proved
    about them. *)

From Stdlib Require Import ZArith List String Ascii Bool Lia.
From Stdlib Require Import SpecFloat.
Import ListNotations.
Local Open Scope string_scope.
Local Open Scope Z_scope.

(* ================================================================== *)
(** * Part I.  The Python runtime used by the program                  *)
(* ================================================================== *)

(** ** Strings

    A Python [str] is modelled by a Rocq [string]; each character stands
    for the code point of the same number, so the model covers the
    code points below 256. *)

Module Str.

Definition code (c : ascii) : Z := Z.of_N (N_of_ascii c).

Definition in_range (lo hi : Z) (c : ascii) : bool :=
  (lo <=? code c) && (code c <=? hi).

(** [str.isspace] on one character: the code points below 256 that
    Unicode classifies as whitespace. *)
Definition isspace (c : ascii) : bool :=
  in_range 9 13 c || in_range 28 32 c || (code c =? 133) || (code c =? 160).

Definition isdigit (c : ascii) : bool := in_range 48 57 c.

Definition digit_val (c : ascii) : Z := code c - 48.

Definition is_empty (s : string) : bool :=
  match s with EmptyString => true | String _ _ => false end.

Fixpoint lstrip (s : string) : string :=
  match s with
  | EmptyString => EmptyString
  | String c s' => if isspace c then lstrip s' else s
  end.

Fixpoint rstrip (s : string) : string :=
  match s with
  | EmptyString => EmptyString
  | String c s' =>
      let r := rstrip s' in
      if is_empty r && isspace c then EmptyString else String c r
  end.

(** [s.strip()] *)
Definition strip (s : string) : string := rstrip (lstrip s).

Definition starts_word (s : string) : bool :=
  match s with
  | EmptyString => false
  | String c _ => negb (isspace c)
  end.

(** [s.split()]: the maximal runs of non-whitespace characters. *)
Fixpoint split (s : string) : list string :=
  match s with
  | EmptyString => []
  | String c s' =>
      if isspace c then split s'
      else if starts_word s' then
        match split s' with
        | w :: ws => String c w :: ws
        | [] => [String c EmptyString]
        end
      else String c EmptyString :: split s'
  end.

(** [sep.join(ws)] *)
Fixpoint join (sep : string) (ws : list string) : string :=
  match ws with
  | [] => EmptyString
  | [w] => w
  | w :: ws' => w ++ sep ++ join sep ws'
  end.

(** [s[:n]] for [n >= 0] *)
Fixpoint take (n : nat) (s : string) : string :=
  match n, s with
  | O, _ => EmptyString
  | S _, EmptyString => EmptyString
  | S n', String c s' => String c (take n' s')
  end.

(** [s.replace(c, '')] for a one-character [c] *)
Fixpoint remove_char (c : ascii) (s : string) : string :=
  match s with
  | EmptyString => EmptyString
  | String a s' =>
      if Ascii.eqb a c then remove_char c s' else String a (remove_char c s')
  end.

(** [c in s] for a one-character [c] *)
Fixpoint has_char (c : ascii) (s : string) : bool :=
  match s with
  | EmptyString => false
  | String a s' => Ascii.eqb a c || has_char c s'
  end.

Fixpoint starts_with (p s : string) : bool :=
  match p, s with
  | EmptyString, _ => true
  | String _ _, EmptyString => false
  | String a p', String b s' => Ascii.eqb a b && starts_with p' s'
  end.

(** [p in s] *)
Fixpoint contains (p s : string) : bool :=
  starts_with p s ||
  match s with
  | EmptyString => false
  | String _ s' => contains p s'
  end.

(** [str.lower] on one character: the ASCII capitals and the Latin-1
    capitals (192..222 without the multiplication sign). *)
Definition lower_char (c : ascii) : ascii :=
  if in_range 65 90 c || (in_range 192 222 c && negb (code c =? 215))
  then ascii_of_N (N_of_ascii c + 32) else c.

Fixpoint map (f : ascii -> ascii) (s : string) : string :=
  match s with
  | EmptyString => EmptyString
  | String c s' => String (f c) (map f s')
  end.

Definition lower : string -> string := map lower_char.

(** [str.upper]: the sharp s (223) becomes "SS"; the micro sign (181) and
    the y with diaeresis (255) have upper-case forms beyond 255 and are
    left as they are, which no test against an ASCII keyword can tell
    apart. *)
Fixpoint upper (s : string) : string :=
  match s with
  | EmptyString => EmptyString
  | String c s' =>
      if code c =? 223 then String "S" (String "S" (upper s'))
      else if in_range 97 122 c || (in_range 224 254 c && negb (code c =? 247))
      then String (ascii_of_N (N_of_ascii c - 32)) (upper s')
      else String c (upper s')
  end.

End Str.

(** ** Floats

    A Python [float] is an IEEE 754 binary64 number: [spec_float] with a
    53-bit significand and exponents up to 1024, rounding to nearest,
    ties to even. *)

Module Flt.

Definition prec : Z := 53.
Definition emax : Z := 1024.

Definition float : Type := spec_float.

Definition zero : float := S754_zero false.
Definition inf (s : bool) : float := S754_infinity s.
Definition nan : float := S754_nan.

Definition neg : float -> float := SFopp.
Definition abs : float -> float := SFabs.
Definition add : float -> float -> float := SFadd prec emax.
Definition sub : float -> float -> float := SFsub prec emax.
Definition ltb : float -> float -> bool := SFltb.
Definition leb : float -> float -> bool := SFleb.
Definition eqb : float -> float -> bool := SFeqb.

(** [bool(x)]: every float but the two zeros is true. *)
Definition truthy (x : float) : bool :=
  match x with S754_zero _ => false | _ => true end.

(** The float nearest to an integer. *)
Definition of_Z (z : Z) : float := binary_normalize prec emax z 0 false.

(** The float nearest to [(-1)^s * d * 10^e], for [d >= 0]. *)
Definition of_decimal (s : bool) (d e : Z) : float :=
  match d with
  | Zpos p =>
      if 0 <=? e then binary_round prec emax s (Z.to_pos (Zpos p * 10 ^ e)) 0
      else
        let '(q, e', l) :=
          SFdiv_core_binary prec emax (Zpos p) 0 (10 ^ (- e)) 0 in
        binary_round_aux prec emax s q e' l
  | _ => S754_zero s
  end.

(** The integer nearest to [a / b] for [b > 0], ties to even. *)
Definition div_half_even (a b : Z) : Z :=
  let q := a / b in
  match 2 * (a mod b) ?= b with
  | Lt => q
  | Gt => q + 1
  | Eq => if Z.even q then q else q + 1
  end.

(** [round(x, 2)]: the decimal with two fractional digits nearest to
    [x] (ties to even on the exact binary value), converted back to the
    nearest float.  Zeros, infinities and NaN are returned unchanged. *)
Definition round2 (x : float) : float :=
  match x with
  | S754_finite s m e =>
      let n := if 0 <=? e then 100 * Zpos m * 2 ^ e
               else div_half_even (100 * Zpos m) (2 ^ (- e)) in
      of_decimal s n (-2)
  | _ => x
  end.

(** *** [float(s)] for a string *)

(** Whitespace that [float()] skips at both ends: the ASCII whitespace,
    and the two whitespace code points above 127, which it first turns
    into spaces.  The separators 28..31 are not skipped. *)
Definition fspace (c : ascii) : bool :=
  Str.in_range 9 13 c || (Str.code c =? 32) || (Str.code c =? 133)
  || (Str.code c =? 160).

Fixpoint skip_fspace (s : string) : string :=
  match s with
  | String c s' => if fspace c then skip_fspace s' else s
  | EmptyString => EmptyString
  end.

(** Underscores are dropped when each one stands between two digits;
    any other underscore makes the literal invalid.  [prev] is the
    character before [s], if any. *)
Fixpoint drop_underscores (prev : option ascii) (s : string) : option string :=
  match s with
  | EmptyString =>
      match prev with
      | Some "_"%char => None
      | _ => Some EmptyString
      end
  | String c s' =>
      if Ascii.eqb c "_" then
        match prev with
        | Some p => if Str.isdigit p then drop_underscores (Some c) s' else None
        | None => None
        end
      else
        match prev with
        | Some "_"%char =>
            if Str.isdigit c
            then option_map (String c) (drop_underscores (Some c) s')
            else None
        | _ => option_map (String c) (drop_underscores (Some c) s')
        end
  end.

(** A run of decimal digits: its value on top of [acc], the number of
    digits on top of [n], and what follows. *)
Fixpoint digits (s : string) (acc n : Z) : Z * Z * string :=
  match s with
  | String c s' =>
      if Str.isdigit c then digits s' (10 * acc + Str.digit_val c) (n + 1)
      else (acc, n, s)
  | EmptyString => (acc, n, s)
  end.

Definition sign (s : string) : bool * string :=
  match s with
  | String "-" s' => (true, s')
  | String "+" s' => (false, s')
  | _ => (false, s)
  end.

(** An exponent part [e], [e+] or [e-] followed by at least one digit;
    without a digit nothing is consumed. *)
Definition exponent (s : string) : Z * string :=
  match s with
  | String c s' =>
      if Ascii.eqb c "e" || Ascii.eqb c "E" then
        let '(neg_e, s1) := sign s' in
        let '(v, n, s2) := digits s1 0 0 in
        if n =? 0 then (0, s) else ((if neg_e then - v else v), s2)
      else (0, s)
  | EmptyString => (0, s)
  end.

(** [inf], [infinity] or [nan], in any letter case, after the sign. *)
Definition inf_or_nan (sg : bool) (s : string) : option (float * string) :=
  match s with
  | String a (String b (String c r)) =>
      let w := Str.lower (String a (String b (String c EmptyString))) in
      if String.eqb w "inf" then
        match r with
        | String d1 (String d2 (String d3 (String d4 (String d5 r')))) =>
            if String.eqb
                 (Str.lower (String d1 (String d2 (String d3
                    (String d4 (String d5 EmptyString)))))) "inity"
            then Some (inf sg, r') else Some (inf sg, r)
        | _ => Some (inf sg, r)
        end
      else if String.eqb w "nan" then Some (nan, r)
      else None
  | _ => None
  end.

(** A number at the start of [s]: digits with an optional point and an
    optional exponent, or an infinity or NaN. *)
Definition number (s : string) : option (float * string) :=
  let '(sg, s1) := sign s in
  let '(ip, ni, s2) := digits s1 0 0 in
  let '(d, nf, s3) :=
    match s2 with
    | String "." r => digits r ip 0
    | _ => (ip, 0, s2)
    end in
  if ni + nf =? 0 then inf_or_nan sg s1
  else
    let '(e, s4) := exponent s3 in
    Some (of_decimal sg d (e - nf), s4).

(** [float(s)]: [None] stands for the [ValueError] Python raises. *)
Definition of_string (s : string) : option float :=
  match drop_underscores None s with
  | None => None
  | Some s' =>
      match number (skip_fspace s') with
      | Some (x, rest) => if Str.is_empty (skip_fspace rest) then Some x else None
      | None => None
      end
  end.

End Flt.

(** ** Values, dictionaries and exceptions *)

(** The Python values a transaction dictionary may hold. *)
#[warnings="-register-all"]
Inductive pyval : Type :=
| PNone
| PBool (b : bool)
| PInt (z : Z)
| PFloat (x : Flt.float)
| PStr (s : string)
| PList (l : list pyval).

(** [bool(v)] *)
Definition truthy (v : pyval) : bool :=
  match v with
  | PNone => false
  | PBool b => b
  | PInt z => negb (z =? 0)
  | PFloat x => Flt.truthy x
  | PStr s => negb (Str.is_empty s)
  | PList l => match l with [] => false | _ :: _ => true end
  end.

(** A [dict] with string keys, in insertion order. *)
Definition dict : Type := list (string * pyval).

(** [d.get(k)] *)
Fixpoint get (d : dict) (k : string) : pyval :=
  match d with
  | [] => PNone
  | (k', v) :: d' => if String.eqb k k' then v else get d' k
  end.

(** The exceptions the program can meet.  [ValueError] is the one the
    source raises itself, with its message; the others come from the
    runtime and carry the value that caused them. *)
Inductive exn : Type :=
| ValueError (msg : string)
| FloatValueError (s : string)      (* float(s): ValueError *)
| FloatTypeError (v : pyval)        (* float(v): TypeError *)
| FloatOverflowError (z : Z)        (* float(z): OverflowError *)
| StripAttributeError (v : pyval).  (* v.strip(): AttributeError *)

Definition result (A : Type) : Type := (exn + A)%type.
Definition ok {A : Type} (a : A) : result A := inr a.
Definition raise {A : Type} (e : exn) : result A := inl e.
Definition bind {A B : Type} (r : result A) (k : A -> result B) : result B :=
  match r with
  | inl e => inl e
  | inr a => k a
  end.

Notation "x <- r ;; k" := (bind r (fun x => k))
  (at level 61, r at next level, right associativity).

(** [float(v)] *)
Definition py_float (v : pyval) : result Flt.float :=
  match v with
  | PFloat x => ok x
  | PBool b => ok (Flt.of_Z (if b then 1 else 0))
  | PInt z =>
      match Flt.of_Z z with
      | S754_infinity _ => raise (FloatOverflowError z)
      | x => ok x
      end
  | PStr s =>
      match Flt.of_string s with
      | Some x => ok x
      | None => raise (FloatValueError s)
      end
  | PNone | PList _ => raise (FloatTypeError v)
  end.

(** Numbers as [sum] and [round] return them: an [int] or a [float]. *)
Inductive num : Type :=
| NInt (z : Z)
| NFloat (x : Flt.float).

(** [c and isfinite(c)] for a float [c]. *)
Definition finite_nonzero (c : Flt.float) : bool :=
  match c with
  | S754_finite _ _ _ => true
  | _ => false
  end.

(** The loop of [sum] over floats in CPython from 3.12 on, which adds
    with Neumaier's compensation: [f] is the running sum, [c] the sum
    of the rounding errors of the additions so far; at the end [c] is
    added to [f] unless it is zero, infinite or a NaN. *)
Fixpoint compensated_sum (f c : Flt.float) (xs : list Flt.float) : Flt.float :=
  match xs with
  | [] => if finite_nonzero c then Flt.add f c else f
  | x :: xs' =>
      let t := Flt.add f x in
      let c :=
        if Flt.leb (Flt.abs x) (Flt.abs f)
        then Flt.add c (Flt.add (Flt.sub f t) x)
        else Flt.add c (Flt.add (Flt.sub x t) f) in
      compensated_sum t c xs'
  end.

(** [sum(xs)] over floats: the integer [0] when there is nothing to
    add; otherwise [0 + x1] is a float and the other items are added to
    it, from left to right in CPython up to 3.11, with the compensation
    above in CPython from 3.12 on.  [compensated] says which of the two
    the interpreter does. *)
Definition py_sum (compensated : bool) (xs : list Flt.float) : num :=
  match xs with
  | [] => NInt 0
  | x :: xs' =>
      let first := Flt.add (Flt.of_Z 0) x in
      NFloat (if compensated then compensated_sum first Flt.zero xs'
              else fold_left Flt.add xs' first)
  end.

(** [a - b]; an [int] operand of a mixed difference is converted to the
    nearest float. *)
Definition num_sub (a b : num) : num :=
  match a, b with
  | NInt x, NInt y => NInt (x - y)
  | NInt x, NFloat y => NFloat (Flt.sub (Flt.of_Z x) y)
  | NFloat x, NInt y => NFloat (Flt.sub x (Flt.of_Z y))
  | NFloat x, NFloat y => NFloat (Flt.sub x y)
  end.

(** [round(a, 2)]; an [int] is returned as it is. *)
Definition num_round2 (a : num) : num :=
  match a with
  | NInt z => NInt z
  | NFloat x => NFloat (Flt.round2 x)
  end.

(** ** Dates: [datetime.strptime] and [strftime]

    Only the directives the program uses are modelled: [%d], [%m], [%Y],
    [%b], [%B] and literal characters, with the month names of the C
    locale, which is in force as the program never sets another. *)

Module Dt.

Record datetime : Type := { year : Z; month : Z; day : Z }.

Definition is_leap (y : Z) : bool :=
  (y mod 4 =? 0) && (negb (y mod 100 =? 0) || (y mod 400 =? 0)).

Definition days_in_month (y m : Z) : Z :=
  match m with
  | 2 => if is_leap y then 29 else 28
  | 4 | 6 | 9 | 11 => 30
  | _ => 31
  end.

(** The dates [datetime] accepts. *)
Definition valid (dt : datetime) : bool :=
  (1 <=? year dt) && (year dt <=? 9999) &&
  (1 <=? month dt) && (month dt <=? 12) &&
  (1 <=? day dt) && (day dt <=? days_in_month (year dt) (month dt)).

Inductive directive : Type :=
| Dd | Dm | DY | Db | DB
| Lit (c : ascii).

(** The directives of a format string; [None] for a directive that is
    not modelled. *)
Fixpoint directives (fmt : string) : option (list directive) :=
  match fmt with
  | EmptyString => Some []
  | String "%" EmptyString => None
  | String "%" (String c rest) =>
      match
        (if Ascii.eqb c "d" then Some Dd
         else if Ascii.eqb c "m" then Some Dm
         else if Ascii.eqb c "Y" then Some DY
         else if Ascii.eqb c "b" then Some Db
         else if Ascii.eqb c "B" then Some DB
         else None),
        directives rest
      with
      | Some d, Some ds => Some (d :: ds)
      | _, _ => None
      end
  | String c rest => option_map (cons (Lit c)) (directives rest)
  end.

Definition month_abbr : list string :=
  ["Jan"; "Feb"; "Mar"; "Apr"; "May"; "Jun";
   "Jul"; "Aug"; "Sep"; "Oct"; "Nov"; "Dec"].

Definition month_name : list string :=
  ["January"; "February"; "March"; "April"; "May"; "June";
   "July"; "August"; "September"; "October"; "November"; "December"].

(** *** [strftime] *)

Definition digit_char (k : Z) : ascii := ascii_of_N (Z.to_N (48 + k)).

Definition pad2 (n : Z) : string :=
  String (digit_char (n / 10)) (String (digit_char (n mod 10)) EmptyString).

Definition pad4 (n : Z) : string :=
  String (digit_char (n / 1000))
    (String (digit_char (n / 100 mod 10)) (pad2 (n mod 100))).

(** The year as the C library prints it when it does not pad. *)
Definition unpadded (n : Z) : string :=
  if n <? 10 then String (digit_char n) EmptyString
  else if n <? 100 then pad2 n
  else if n <? 1000 then String (digit_char (n / 100)) (pad2 (n mod 100))
  else pad4 n.

Section Platform.

(** Whether [strftime] pads a year below 1000 with zeros to four digits,
    as the documentation of [%Y] has it, or prints it as it is, as
    CPython on glibc did for a long time. *)
Variable year_padded : bool.

Definition render (dt : datetime) (d : directive) : string :=
  match d with
  | Dd => pad2 (day dt)
  | Dm => pad2 (month dt)
  | DY => if year_padded then pad4 (year dt) else unpadded (year dt)
  | Db => nth (Z.to_nat (month dt - 1)) month_abbr EmptyString
  | DB => nth (Z.to_nat (month dt - 1)) month_name EmptyString
  | Lit c => String c EmptyString
  end.

(** [dt.strftime(fmt)] *)
Definition strftime (dt : datetime) (fmt : string) : string :=
  match directives fmt with
  | Some ds => String.concat EmptyString (List.map (render dt) ds)
  | None => EmptyString
  end.

End Platform.

(** *** [strptime]

    The format becomes a regular expression, one group per directive;
    each function below lists the ways its group can match at the start
    of [s], in the order the regular expression tries them, with the
    value read and the rest of the string. *)

Definition is_char (c a : ascii) : bool := Ascii.eqb a c.

(** [%d]: [3[0-1]|[1-2]\d|0[1-9]|[1-9]| [1-9]] *)
Definition alt_d (s : string) : list (Z * string) :=
  match s with
  | EmptyString => []
  | String a r =>
      match r with
      | String b r' =>
          (if is_char "3" a && Str.in_range 48 49 b
           then [(30 + Str.digit_val b, r')] else [])
          ++ (if Str.in_range 49 50 a && Str.isdigit b
              then [(10 * Str.digit_val a + Str.digit_val b, r')] else [])
          ++ (if is_char "0" a && Str.in_range 49 57 b
              then [(Str.digit_val b, r')] else [])
      | EmptyString => []
      end
      ++ (if Str.in_range 49 57 a then [(Str.digit_val a, r)] else [])
      ++ match r with
         | String b r' =>
             if is_char " " a && Str.in_range 49 57 b
             then [(Str.digit_val b, r')] else []
         | EmptyString => []
         end
  end.

(** [%m]: [1[0-2]|0[1-9]|[1-9]] *)
Definition alt_m (s : string) : list (Z * string) :=
  match s with
  | EmptyString => []
  | String a r =>
      match r with
      | String b r' =>
          (if is_char "1" a && Str.in_range 48 50 b
           then [(10 + Str.digit_val b, r')] else [])
          ++ (if is_char "0" a && Str.in_range 49 57 b
              then [(Str.digit_val b, r')] else [])
      | EmptyString => []
      end
      ++ (if Str.in_range 49 57 a then [(Str.digit_val a, r)] else [])
  end.

(** [%Y]: [\d\d\d\d] *)
Definition alt_Y (s : string) : list (Z * string) :=
  match s with
  | String a (String b (String c (String d r))) =>
      if Str.isdigit a && Str.isdigit b && Str.isdigit c && Str.isdigit d
      then [(((Str.digit_val a * 10 + Str.digit_val b) * 10
              + Str.digit_val c) * 10 + Str.digit_val d, r)]
      else []
  | _ => []
  end.

Fixpoint drop (n : nat) (s : string) : string :=
  match n, s with
  | O, _ => s
  | S _, EmptyString => EmptyString
  | S n', String _ s' => drop n' s'
  end.

(** The alternatives of a month-name group: the names with their month
    numbers, ordered by decreasing length, and by month among names of
    one length. *)
Definition by_length (names : list string) : list (string * Z) :=
  let numbered := combine names (List.map Z.of_nat (seq 1 (List.length names))) in
  let longest := fold_right (fun n m => Nat.max (String.length n) m) O names in
  flat_map
    (fun len => filter (fun e => Nat.eqb (String.length (fst e)) len) numbered)
    (rev (seq 0 (S longest))).

(** [%b] and [%B]: a name at the start of [s], letter case ignored. *)
Definition alt_name (names : list string) (s : string) : list (Z * string) :=
  flat_map
    (fun e =>
       if Str.starts_with (Str.lower (fst e))
            (Str.lower (Str.take (String.length (fst e)) s))
       then [(snd e, drop (String.length (fst e)) s)] else [])
    (by_length names).

(** What a match has read so far; what is not read keeps the default
    of 1 January 1900. *)
Definition default : datetime := {| year := 1900; month := 1; day := 1 |}.

Definition match_directive (d : directive) (s : string) (f : datetime)
  : list (datetime * string) :=
  match d with
  | Dd => List.map (fun '(v, r) => ({| year := year f; month := month f; day := v |}, r)) (alt_d s)
  | Dm => List.map (fun '(v, r) => ({| year := year f; month := v; day := day f |}, r)) (alt_m s)
  | DY => List.map (fun '(v, r) => ({| year := v; month := month f; day := day f |}, r)) (alt_Y s)
  | Db => List.map (fun '(v, r) => ({| year := year f; month := v; day := day f |}, r)) (alt_name month_abbr s)
  | DB => List.map (fun '(v, r) => ({| year := year f; month := v; day := day f |}, r)) (alt_name month_name s)
  | Lit c =>
      match s with
      | String a r => if Ascii.eqb a c then [(f, r)] else []
      | EmptyString => []
      end
  end.

(** All matches of the whole expression at the start of [s], in the
    order a backtracking search finds them: the engine returns the
    first. *)
Fixpoint match_directives (ds : list directive) (s : string) (f : datetime)
  : list (datetime * string) :=
  match ds with
  | [] => [(f, s)]
  | d :: ds' =>
      flat_map (fun '(f', r) => match_directives ds' r f')
               (match_directive d s f)
  end.

(** [datetime.strptime(s, fmt)]; [None] stands for the [ValueError]
    raised when the expression does not match, when the match leaves
    part of [s] unread, or when the fields read are not a date. *)
Definition strptime (s fmt : string) : option datetime :=
  match directives fmt with
  | None => None
  | Some ds =>
      match match_directives ds s default with
      | (f, rest) :: _ =>
          if Str.is_empty rest && valid f then Some f else None
      | [] => None
      end
  end.

End Dt.

Inductive trans_type : Type := DEBIT | CREDIT.

(* ================================================================== *)
(** * Part II.  backend/utils/pdf_parser.py                            *)
(* ================================================================== *)

Module PDFParser.

(** ** What pdfplumber hands over *)

(** A call into the library returns or raises. *)
Inductive outcome (A : Type) : Type :=
| Returns (a : A)
| Raises.
Arguments Returns {A} a.
Arguments Raises {A}.

Definition cell : Type := option string.
Definition row : Type := list cell.
Definition table : Type := list row.

(** A page: what [extract_text()] and [extract_tables()] do on it. *)
Record page : Type := {
  extract_text : outcome (option string);
  extract_tables : outcome (list table)
}.

(** [pdfplumber.open(pdf_path)]: the pages of the document, or an
    exception with its text. *)
Inductive document : Type :=
| Opened (pages : list page)
| OpenFails (message : string).

(** ** The parser *)

(** A raw transaction, as [parse_row] and [extract_from_text] build it. *)
Record transaction : Type := {
  date : option string;
  description : string;
  amount : option Flt.float;
  balance : option Flt.float;
  type : trans_type
}.

(** The instance attributes; [statement_date_range] is never assigned
    after [__init__] and stays [None]. *)
Record t : Type := {
  transactions : list transaction;
  bank_type : option string
}.

(** The dictionary [parse_pdf] returns. *)
Inductive parse_result : Type :=
| Success (transactions : list transaction) (bank_type : option string)
          (total_transactions : Z)
| Error (message : string) (transactions : list transaction).

(** The calls [extract_from_page] makes, recorded to state which
    strategy ran. *)
Inductive call : Type :=
| CallTable (tb : table)
| CallText (text : option string).

(** [__init__] *)
Definition init : t := {| transactions := []; bank_type := None |}.

Definition append (self : t) (tr : transaction) : t :=
  {| transactions := transactions self ++ [tr]; bank_type := bank_type self |}.

Definition date_formats : list string :=
  [ "%d-%m-%Y"; "%d/%m/%Y"; "%m-%d-%Y"; "%m/%d/%Y";
    "%Y-%m-%d"; "%Y/%m/%d"; "%d-%b-%Y"; "%d/%b/%Y";
    "%b-%d-%Y"; "%b/%d/%Y"; "%d-%B-%Y"; "%d/%B/%Y" ].

(** [parse_amount]; [None] as argument is Python's [None]. *)
Definition parse_amount (amount_str : option string) : option Flt.float :=
  match amount_str with
  | None => None
  | Some amount_str =>
      if Str.is_empty amount_str then None
      else
        let amount_str := Str.strip (Str.remove_char "," amount_str) in
        let amount :=
          if Str.has_char "-" amount_str
          then option_map Flt.neg (Flt.of_string (Str.remove_char "-" amount_str))
          else Flt.of_string amount_str in
        option_map Flt.round2 amount
  end.

Section Parser.

(** How the platform's [strftime] prints years below 1000. *)
Variable year_padded : bool.

(** [re.finditer(pattern, text)] for the pattern of [extract_from_text]:
    the four groups of each match, in order. *)
Variable finditer : string -> list (string * string * string * string).

(** The loop of [parse_date] over the formats. *)
Fixpoint try_formats (date_str : string) (fmts : list string) : option string :=
  match fmts with
  | [] => None
  | fmt :: fmts' =>
      match Dt.strptime (Str.strip date_str) fmt with
      | Some dt => Some (Dt.strftime year_padded dt "%Y-%m-%d")
      | None => try_formats date_str fmts'
      end
  end.

(** [parse_date] *)
Definition parse_date (date_str : string) : option string :=
  try_formats date_str date_formats.

(** [str(c).strip() if c else None] *)
Definition cell_text (c : cell) : option string :=
  match c with
  | Some s => if Str.is_empty s then None else Some (Str.strip s)
  | None => None
  end.

Definition nonempty (s : option string) : bool :=
  match s with
  | Some s => negb (Str.is_empty s)
  | None => false
  end.

Definition amount_truthy (a : option Flt.float) : bool :=
  match a with
  | Some x => Flt.truthy x
  | None => false
  end.

(** [parse_row] *)
Definition parse_row (r : row) : option transaction :=
  match r with
  | c0 :: c1 :: c2 :: rest =>
      let date_str := cell_text c0 in
      let description := cell_text c1 in
      let amount_str := cell_text c2 in
      let balance_str :=
        match rest with
        | c3 :: _ => cell_text c3
        | [] => None
        end in
      match date_str, description, amount_str with
      | Some date_str, Some description, Some amount_str =>
          if Str.is_empty date_str || Str.is_empty description
             || Str.is_empty amount_str
          then None
          else
            let date := parse_date date_str in
            let amount := parse_amount (Some amount_str) in
            let balance :=
              if nonempty balance_str then parse_amount balance_str else None in
            match amount with
            | Some a =>
                if negb (nonempty date) || negb (Flt.truthy a) then None
                else Some {| date := date;
                             description := description;
                             amount := amount;
                             balance := balance;
                             type := if Flt.ltb a Flt.zero then DEBIT else CREDIT |}
            | None => None
            end
      | _, _, _ => None
      end
  | _ => None
  end.

(** [extract_from_table]: the rows after the header. *)
Fixpoint extract_rows (self : t) (rows : list row) : t :=
  match rows with
  | [] => self
  | r :: rows' =>
      let self :=
        if (3 <=? List.length r)%nat then
          match parse_row r with
          | Some tr => append self tr
          | None => self
          end
        else self in
      extract_rows self rows'
  end.

Definition extract_from_table (self : t) (tb : table) : t :=
  extract_rows self (tl tb).

(** One match of [extract_from_text]. *)
Definition text_transaction (m : string * string * string * string)
  : transaction :=
  let '(date_str, description, amount, balance) := m in
  {| date := parse_date date_str;
     description := Str.strip description;
     amount := parse_amount (Some amount);
     balance := parse_amount (Some balance);
     type := if Str.contains "DR" (Str.upper description) then DEBIT else CREDIT |}.

Fixpoint extract_matches (self : t)
  (ms : list (string * string * string * string)) : t :=
  match ms with
  | [] => self
  | m :: ms' =>
      let tr := text_transaction m in
      let self :=
        if nonempty (date tr) && amount_truthy (amount tr)
        then append self tr else self in
      extract_matches self ms'
  end.

(** [extract_from_text]; on [None] the search raises and the handler
    leaves the instance as it is. *)
Definition extract_from_text (self : t) (text : option string) : t :=
  match text with
  | Some text => extract_matches self (finditer text)
  | None => self
  end.

Fixpoint extract_tables_loop (self : t) (tables : list table) : t :=
  match tables with
  | [] => self
  | tb :: tables' => extract_tables_loop (extract_from_table self tb) tables'
  end.

(** [extract_from_page]: the instance after the call, and the
    extraction calls made.  An exception from the page is caught and
    the page is left out. *)
Definition extract_from_page (self : t) (p : page) : t * list call :=
  match extract_text p with
  | Raises => (self, [])
  | Returns text =>
      match extract_tables p with
      | Raises => (self, [])
      | Returns tables =>
          let self := extract_tables_loop self tables in
          let calls := List.map CallTable tables in
          match tables, transactions self with
          | _ :: _, _ :: _ => (self, calls)
          | _, _ => (extract_from_text self text, (calls ++ [CallText text])%list)
          end
      end
  end.

(** [detect_bank_type] *)
Definition detect_bank_type (self : t) (pages : list page) : t :=
  let bank :=
    match pages with
    | first :: _ =>
        match extract_text first with
        | Returns (Some first_page_text) =>
            if Str.contains "HDFC" (Str.upper first_page_text) then "HDFC"
            else if Str.contains "ICICI" (Str.upper first_page_text) then "ICICI"
            else if Str.contains "SBI" (Str.upper first_page_text) then "SBI"
            else "GENERIC"
        | _ => "GENERIC"
        end
    | [] => "GENERIC"
    end in
  {| transactions := transactions self; bank_type := Some bank |}.

Fixpoint extract_pages (self : t) (pages : list page) : t :=
  match pages with
  | [] => self
  | p :: pages' => extract_pages (fst (extract_from_page self p)) pages'
  end.

(** [parse_pdf]: the instance after the call and the dictionary
    returned. *)
Definition parse_pdf (self : t) (pdf : document) : t * parse_result :=
  match pdf with
  | Opened pages =>
      let self := detect_bank_type self pages in
      let self := extract_pages self pages in
      (self,
       Success (transactions self) (bank_type self)
               (Z.of_nat (List.length (transactions self))))
  | OpenFails message =>
      (self, Error ("Failed to parse PDF: " ++ message) [])
  end.

End Parser.

End PDFParser.

(* ================================================================== *)
(** * Part III.  backend/utils/data_processor.py                        *)
(* ================================================================== *)

Module DataProcessor.

Inductive category : Type :=
| SALARY | TRANSFER | WITHDRAWAL | DEPOSIT | UTILITY | FOOD
| ENTERTAINMENT | HEALTHCARE | SHOPPING | TRANSPORT | SUBSCRIPTION | OTHER.

(** The dictionary [validate_and_clean_transaction] returns. *)
Record processed : Type := {
  date : pyval;
  description : string;
  amount : Flt.float;
  type : trans_type;
  balance : option Flt.float;
  category_of : category;
  raw_amount : Flt.float;
  row_num : Z
}.

(** An entry of [validation_errors]; [error] holds the exception whose
    text the source stores. *)
Record validation_error : Type := {
  index : Z;
  error : exn;
  transaction : dict
}.

(** The instance attributes. *)
Record t : Type := {
  processed_transactions : list processed;
  validation_errors : list validation_error
}.

Record summary : Type := {
  total_transactions : Z;
  total_credits : num;
  total_debits : num;
  net_amount : num;
  opening_balance : option Flt.float;
  closing_balance : option Flt.float
}.

Record envelope : Type := {
  status : string;
  transactions : list processed;
  total_processed : Z;
  total_errors : Z;
  errors : list validation_error;
  summary_of : summary
}.

(** [__init__] *)
Definition init : t :=
  {| processed_transactions := []; validation_errors := [] |}.

(** [clean_description].  For a [str] no step can raise, so the
    [except] branch is not reached. *)
Definition clean_description (description : string) : string :=
  let description := Str.join " " (Str.split description) in
  let description := Str.strip description in
  if (100 <? String.length description)%nat
  then Str.take 97 description ++ "..."
  else description.

Definition categories : list (category * list string) :=
  [ (SALARY, ["salary"; "wage"; "stipend"; "payroll"]);
    (TRANSFER, ["transfer"; "trf"; "neft"; "rtgs"; "imps"]);
    (WITHDRAWAL, ["withdrawal"; "atm"; "cash"]);
    (DEPOSIT, ["deposit"; "cheque"; "check"]);
    (UTILITY, ["electricity"; "water"; "gas"; "phone"; "internet"]);
    (FOOD, ["restaurant"; "food"; "cafe"; "grocery"; "supermarket"]);
    (ENTERTAINMENT, ["movie"; "cinema"; "entertainment"; "games"]);
    (HEALTHCARE, ["hospital"; "clinic"; "pharmacy"; "doctor"; "medical"]);
    (SHOPPING, ["shopping"; "mall"; "store"; "retail"]);
    (TRANSPORT, ["uber"; "taxi"; "petrol"; "fuel"; "transport"]);
    (SUBSCRIPTION, ["subscription"; "netflix"; "spotify"; "prime"]) ].

(** [categorize_transaction] *)
Definition categorize_transaction (description : string) : category :=
  let desc_lower := Str.lower description in
  match
    find (fun entry => existsb (fun keyword => Str.contains keyword desc_lower)
                               (snd entry))
         categories
  with
  | Some entry => fst entry
  | None => OTHER
  end.

(** [validate_and_clean_transaction].  The [type] read from the input is
    overwritten before it is used, so it does not appear here. *)
Definition validate_and_clean_transaction (transaction : dict) (idx : Z)
  : result processed :=
  let date := get transaction "date" in
  let description := get transaction "description" in
  let amount := get transaction "amount" in
  let balance := get transaction "balance" in
  if negb (truthy date) then raise (ValueError "Missing date") else
  description <-
    match description with
    | PStr s =>
        if Str.is_empty s || String.eqb (Str.strip s) ""
        then raise (ValueError "Missing description") else ok s
    | v =>
        if truthy v then raise (StripAttributeError v)
        else raise (ValueError "Missing description")
    end ;;
  match amount with
  | PNone => raise (ValueError "Missing amount")
  | _ =>
      let description := clean_description description in
      amount <- py_float amount ;;
      balance <-
        (if truthy balance then (b <- py_float balance ;; ok (Some b))
         else ok None) ;;
      let trans_type := if Flt.ltb amount Flt.zero then DEBIT else CREDIT in
      let category := categorize_transaction description in
      ok {| date := date;
            description := description;
            amount := Flt.abs amount;
            type := trans_type;
            balance := balance;
            category_of := category;
            raw_amount := amount;
            row_num := idx + 2 |}
  end.

Definition is_type (ty : trans_type) (p : processed) : bool :=
  match ty, type p with
  | DEBIT, DEBIT | CREDIT, CREDIT => true
  | _, _ => false
  end.

(** [t.get('balance')] as a condition, then [t['balance']] *)
Definition balance_if_truthy (p : processed) : option Flt.float :=
  match balance p with
  | Some b => if Flt.truthy b then Some b else None
  | None => None
  end.

Section Runtime.

(** Whether the interpreter's [sum] adds floats with compensation
    (CPython from 3.12 on) or from left to right (up to 3.11). *)
Variable compensated : bool.

(** [generate_summary].  Nothing in it can raise on a list of processed
    transactions, so the [except] branch is not reached. *)
Definition generate_summary (self : t) : summary :=
  match processed_transactions self with
  | [] =>
      {| total_transactions := 0; total_credits := NInt 0;
         total_debits := NInt 0; net_amount := NInt 0;
         opening_balance := None; closing_balance := None |}
  | first :: _ =>
      let ts := processed_transactions self in
      let credits :=
        py_sum compensated (List.map amount (filter (is_type CREDIT) ts)) in
      let debits :=
        py_sum compensated (List.map amount (filter (is_type DEBIT) ts)) in
      let last := List.last ts first in
      {| total_transactions := Z.of_nat (List.length ts);
         total_credits := num_round2 credits;
         total_debits := num_round2 debits;
         net_amount := num_round2 (num_sub credits debits);
         opening_balance := balance_if_truthy first;
         closing_balance := balance_if_truthy last |}
  end.

(** One turn of the loop of [process_transactions].  The dictionary a
    successful validation returns is never empty, so [if processed]
    always holds. *)
Definition process_one (self : t) (idx : Z) (transaction : dict) : t :=
  match validate_and_clean_transaction transaction idx with
  | inr processed =>
      {| processed_transactions := processed_transactions self ++ [processed];
         validation_errors := validation_errors self |}
  | inl e =>
      {| processed_transactions := processed_transactions self;
         validation_errors :=
           validation_errors self
           ++ [{| index := idx; error := e; transaction := transaction |}] |}
  end.

(** [for idx, transaction in enumerate(transactions)], from [idx] on *)
Fixpoint process_loop (self : t) (idx : Z) (transactions : list dict) : t :=
  match transactions with
  | [] => self
  | transaction :: rest =>
      process_loop (process_one self idx transaction) (idx + 1) rest
  end.

(** [process_transactions]: the instance after the call and the
    dictionary returned. *)
Definition process_transactions (self : t) (transactions : list dict)
  : t * envelope :=
  let self := {| processed_transactions := []; validation_errors := [] |} in
  let self := process_loop self 0 transactions in
  (self,
   {| status := "success";
      transactions := processed_transactions self;
      total_processed := Z.of_nat (List.length (processed_transactions self));
      total_errors := Z.of_nat (List.length (validation_errors self));
      errors := validation_errors self;
      summary_of := generate_summary self |}).

End Runtime.

End DataProcessor.

(* ================================================================== *)
(** * Part IV.  Notions used to state and prove the properties         *)
(* ================================================================== *)

(** ** Descriptions *)

(** The description after the first two steps of [clean_description]:
    whitespace runs collapsed to one space, both ends trimmed. *)
Definition collapsed (s : string) : string :=
  Str.strip (Str.join " " (Str.split s)).

(** [n] copies of [c] *)
Fixpoint replicate (n : nat) (c : ascii) : string :=
  match n with
  | O => EmptyString
  | S n' => String c (replicate n' c)
  end.

(** A string in which every whitespace character is a single space
    between two other characters.  [prev_space] tells whether the
    character before [s] was a space, or [s] is the whole string. *)
Fixpoint tidy_after (prev_space : bool) (s : string) : bool :=
  match s with
  | EmptyString => negb prev_space
  | String c s' =>
      if Ascii.eqb c " " then negb prev_space && tidy_after true s'
      else negb (Str.isspace c) && tidy_after false s'
  end.

(** A word as [split] yields them: not empty, no whitespace. *)
Fixpoint no_space (w : string) : bool :=
  match w with
  | EmptyString => true
  | String c w' => negb (Str.isspace c) && no_space w'
  end.

Definition is_word (w : string) : bool := negb (Str.is_empty w) && no_space w.

(** ** Batches and their outcomes *)

(** The input of scenario A of the specification. *)
Definition scenario_A : list dict :=
  [ [ ("date", PStr "01-01-2024");
      ("description", PStr "  ATM   Cash   Withdrawal ");
      ("amount", PInt (-500));
      ("balance", PInt 1500) ] ].

(** The processed transactions and the validation errors that the
    items of a batch give one by one, the first item having index
    [idx]. *)
Fixpoint successes (idx : Z) (batch : list dict) : list DataProcessor.processed :=
  match batch with
  | [] => []
  | tx :: rest =>
      match DataProcessor.validate_and_clean_transaction tx idx with
      | inr p => p :: successes (idx + 1) rest
      | inl _ => successes (idx + 1) rest
      end
  end.

Fixpoint failures (idx : Z) (batch : list dict)
  : list DataProcessor.validation_error :=
  match batch with
  | [] => []
  | tx :: rest =>
      match DataProcessor.validate_and_clean_transaction tx idx with
      | inr _ => failures (idx + 1) rest
      | inl e =>
          {| DataProcessor.index := idx; DataProcessor.error := e;
             DataProcessor.transaction := tx |} :: failures (idx + 1) rest
      end
  end.

(** The processed transactions that came from input position [k], and
    the validation errors tagged with [k]. *)
Definition processed_at (k : Z) (ps : list DataProcessor.processed)
  : list DataProcessor.processed :=
  filter (fun p => DataProcessor.row_num p =? k + 2) ps.

Definition errors_at (k : Z) (es : list DataProcessor.validation_error)
  : list DataProcessor.validation_error :=
  filter (fun e => DataProcessor.index e =? k) es.

(** ** Signs and totals *)

(** A float that is not a NaN and has the sign [s]. *)
Definition has_sign (s : bool) (x : Flt.float) : Prop :=
  match x with
  | S754_zero s' | S754_infinity s' | S754_finite s' _ _ => s' = s
  | S754_nan => False
  end.

Definition is_nan (x : Flt.float) : bool :=
  match x with S754_nan => true | _ => false end.

(** The sign bit is not set: a float of sign [false], or a NaN. *)
Definition sign_clear (x : Flt.float) : Prop := x = S754_nan \/ has_sign false x.

(** The sign bit is not clear: a float of sign [true], or a NaN. *)
Definition sign_set (x : Flt.float) : Prop := x = S754_nan \/ has_sign true x.

(** The amounts [generate_summary] adds up for one type. *)
Definition amounts_of (ty : trans_type) (ts : list DataProcessor.processed)
  : list Flt.float :=
  List.map DataProcessor.amount (filter (DataProcessor.is_type ty) ts).

(** A total that is not below zero: [not (a < 0)]. *)
Definition never_negative (a : num) : Prop :=
  match a with
  | NInt z => 0 <= z
  | NFloat x => Flt.ltb x Flt.zero = false
  end.

(** A total that is zero or more: [0 <= a]. *)
Definition at_least_zero (a : num) : Prop :=
  match a with
  | NInt z => 0 <= z
  | NFloat x => Flt.leb Flt.zero x = true
  end.

(** Two batches of one credit and one debit. *)
Definition entry (description : string) (amount : pyval) : dict :=
  [ ("date", PStr "2024-01-01"); ("description", PStr description);
    ("amount", amount) ].

Definition large_batch : list dict :=
  [ entry "Bond sale" (PInt (2 ^ 60));
    entry "Fee" (PFloat (Flt.of_decimal true 64004 (-3))) ].

Definition small_batch : list dict :=
  [ entry "Interest" (PFloat (Flt.of_decimal false 6 (-3)));
    entry "Fee" (PFloat (Flt.of_decimal true 2 (-3))) ].

(** Three credits and two debits, the amounts given as strings and as
    floats. *)
Definition cents_batch : list dict :=
  [ entry "Interest" (PStr "0.1");
    entry "Refund" (PFloat (Flt.of_decimal false 2 (-1)));
    entry "Cashback" (PStr "0.005");
    entry "Fee" (PStr "-1.5");
    entry "Rent" (PFloat (Flt.of_decimal true 225 (-2))) ].

(** ** Binary64 numbers and their rounding *)

(** A float that is a binary64 number: a finite one has a mantissa of
    at most 53 bits, in canonical form, and an exponent in range. *)
Definition binary64 (x : Flt.float) : bool := valid_binary Flt.prec Flt.emax x.

(** The value of a finite float, counted in units of 2^-1074, the
    smallest positive binary64 number; 0 for the others. *)
Definition units (x : Flt.float) : Z :=
  match x with
  | S754_finite s m e =>
      (if s then -1 else 1) * (Z.pos m * 2 ^ (e + 1074))
  | _ => 0
  end.

(** A mantissa and an exponent above -1074 in canonical form. *)
Definition canon (m k : Z) : Prop :=
  0 < m < 2 ^ 53 /\ 0 <= k /\ (k = 0 \/ 2 ^ 52 <= m).

(** A positive or negative number with mantissa [m'] at the exponent
    [k' - 1074], or the infinity when the exponent is beyond the range. *)
Definition rounded (s : bool) (m' k' : Z) : Flt.float :=
  if k' <=? 2045 then S754_finite s (Z.to_pos m') (k' - 1074)
  else S754_infinity s.

(** A float that is a zero or a finite number. *)
Definition finite (x : Flt.float) : bool :=
  match x with
  | S754_zero _ | S754_finite _ _ _ => true
  | _ => false
  end.

(** A zero or a finite binary64 number. *)
Definition fin (x : Flt.float) : Prop :=
  finite x = true /\ binary64 x = true.

(** [r] is what rounding the number of [S] units to binary64 can give:
    a finite number that no binary64 number lies strictly between [S]
    and it, or an infinity when [S] is beyond every finite number. *)
Definition rounds (S : Z) (r : Flt.float) : Prop :=
  (fin r
   /\ (forall v, fin v -> units v <= S -> units v <= units r)
   /\ (forall v, fin v -> S <= units v -> units r <= units v))
  \/ (r = S754_infinity false /\ forall v, fin v -> units v < S)
  \/ (r = S754_infinity true /\ forall v, fin v -> S < units v).

(** The state of the compensated sum over amounts that are not
    negative: the running sum [f] is a NaN, the positive infinity, or a
    finite number that is not negative; in this last case the
    compensation [c] is infinite or a NaN, and then left out at the end,
    or it is finite and not below [-f]. *)
Definition compensation_ok (f c : Flt.float) : Prop :=
  f = S754_nan
  \/ f = S754_infinity false
  \/ (fin f /\ has_sign false f
      /\ (finite c = false \/ (fin c /\ - units f <= units c))).

(** An amount as the processor stores it: a binary64 number whose sign
    bit is clear, or the NaN. *)
Definition amount_like (x : Flt.float) : Prop :=
  sign_clear x /\ binary64 x = true.

(** Every amount that a batch gives as a float is a binary64 number, as
    every Python float is.  The amounts given as integers, booleans or
    strings are converted by [float()], which returns such numbers. *)
Definition float_amounts (batch : list dict) : Prop :=
  forall (d : dict) (x : Flt.float),
    In d batch -> get d "amount" = PFloat x -> binary64 x = true.

(** ** Raw transactions and pages *)

(** A raw transaction with a date that is a string, not empty, and an
    amount that is a float other than zero. *)
Definition dated_and_nonzero (tr : PDFParser.transaction) : Prop :=
  (exists d, PDFParser.date tr = Some d /\ d <> EmptyString)
  /\ (exists a, PDFParser.amount tr = Some a /\ Flt.truthy a = true).

(** A document of one page that holds one table: a header and one row. *)
Definition salary_page : PDFParser.page :=
  {| PDFParser.extract_text := PDFParser.Returns (Some "Statement of account");
     PDFParser.extract_tables :=
       PDFParser.Returns
         [ [ [Some "Date"; Some "Description"; Some "Amount"; Some "Balance"];
             [Some "15-01-2024"; Some "Salary"; Some "1,000.00"; Some "1,500.00"] ] ] |}.

Definition salary_statement : PDFParser.document :=
  PDFParser.Opened [salary_page].

Definition salary_transaction : PDFParser.transaction :=
  {| PDFParser.date := Some "2024-01-15";
     PDFParser.description := "Salary";
     PDFParser.amount := Some (Flt.of_Z 1000);
     PDFParser.balance := Some (Flt.of_Z 1500);
     PDFParser.type := CREDIT |}.

(** A search that finds nothing, and one that finds one line whatever
    the text, to run the parser on concrete pages. *)
Definition no_match (text : string) : list (string * string * string * string) :=
  [].

Definition one_match (text : string) : list (string * string * string * string) :=
  [ ("02/01/2024", "ATM DR", "500.00", "1,000.00") ].

(** ** Dates and their fields *)

(** The canonical form [YYYY-MM-DD] of a date. *)
Definition iso (dt : Dt.datetime) : string :=
  Dt.pad4 (Dt.year dt) ++ "-" ++ Dt.pad2 (Dt.month dt) ++ "-"
  ++ Dt.pad2 (Dt.day dt).

(** The date with day and month exchanged. *)
Definition exchanged (dt : Dt.datetime) : Dt.datetime :=
  {| Dt.year := Dt.year dt; Dt.month := Dt.day dt; Dt.day := Dt.month dt |}.

(** The two numeric formats that put the month first. *)
Definition month_first (fmt : string) : bool :=
  String.eqb fmt "%m-%d-%Y" || String.eqb fmt "%m/%d/%Y".

(** The field a directive fills in. *)
Definition put (d : Dt.directive) (v : Z) (f : Dt.datetime) : Dt.datetime :=
  match d with
  | Dt.Dd => {| Dt.year := Dt.year f; Dt.month := Dt.month f; Dt.day := v |}
  | Dt.Dm | Dt.Db | Dt.DB =>
      {| Dt.year := Dt.year f; Dt.month := v; Dt.day := Dt.day f |}
  | Dt.DY => {| Dt.year := v; Dt.month := Dt.month f; Dt.day := Dt.day f |}
  | Dt.Lit _ => f
  end.

(** The two separators of the formats. *)
Definition is_sep (c : ascii) : Prop := c = "-"%char \/ c = "/"%char.

(** The abbreviated and the full name of month [m], as [strftime] prints
    them. *)
Definition abbr (m : Z) : string :=
  nth (Z.to_nat (m - 1)) Dt.month_abbr EmptyString.

Definition name (m : Z) : string :=
  nth (Z.to_nat (m - 1)) Dt.month_name EmptyString.

(** The ways a directive matches at the start of a string. *)
Definition alts (d : Dt.directive) (s : string) : list (Z * string) :=
  match d with
  | Dt.Dd => Dt.alt_d s
  | Dt.Dm => Dt.alt_m s
  | Dt.DY => Dt.alt_Y s
  | Dt.Db => Dt.alt_name Dt.month_abbr s
  | Dt.DB => Dt.alt_name Dt.month_name s
  | Dt.Lit _ => []
  end.

Definition is_lit (d : Dt.directive) : bool :=
  match d with Dt.Lit _ => true | _ => false end.

(** What a separator of the format leaves of one alternative. *)
Definition after_sep (sep' : ascii) (d : Dt.directive)
  (ds : list Dt.directive) (f : Dt.datetime) (a : Z * string)
  : list (Dt.datetime * string) :=
  match snd a with
  | String c r =>
      if Ascii.eqb c sep' then Dt.match_directives ds r (put d (fst a) f)
      else []
  | EmptyString => []
  end.

(** The end of [strptime]: the first match must leave nothing unread
    and must be a date. *)
Definition finish (l : list (Dt.datetime * string)) : option Dt.datetime :=
  match l with
  | (f, rest) :: _ => if Str.is_empty rest && Dt.valid f then Some f else None
  | [] => None
  end.

(* ================================================================== *)
(** * Part II, continued.  The search of [extract_from_text]           *)
(* ================================================================== *)

(** [re.finditer] with the pattern of [extract_from_text], as the
    backtracking engine runs it.  The pattern is four groups with
    whitespace [\s+] between them: a date [\d{1,2}[-/]\d{1,2}[-/]\d{2,4}],
    a description [.+?], and two numbers [[\d,]+\.?\d*]. *)

Module Re.

(** The ways to match at the start of a string, in the order the engine
    tries them: what is captured, and the rest of the string. *)
Definition matcher (A : Type) : Type := string -> list (A * string).

Definition ret {A : Type} (a : A) : matcher A := fun s => [(a, s)].

Definition seq {A B : Type} (m : matcher A) (k : A -> matcher B) : matcher B :=
  fun s => flat_map (fun e => k (fst e) (snd e)) (m s).

(** The prefixes of [s] of at most [hi] characters of a class, the
    shortest first. *)
Fixpoint prefixes (cls : ascii -> bool) (hi : nat) (s : string)
  : list (string * string) :=
  (EmptyString, s) ::
  match hi, s with
  | S hi', String c s' =>
      if cls c
      then List.map (fun e => (String c (fst e), snd e)) (prefixes cls hi' s')
      else []
  | _, _ => []
  end.

(** [x{lo,hi}?] *)
Definition lazy (cls : ascii -> bool) (lo hi : nat) : matcher string :=
  fun s =>
    filter (fun e => (lo <=? String.length (fst e))%nat) (prefixes cls hi s).

(** [x{lo,hi}] *)
Definition greedy (cls : ascii -> bool) (lo hi : nat) : matcher string :=
  fun s => rev (lazy cls lo hi s).

(** [x], [x?], [x*], [x+] and [x+?]; a repetition without an upper bound
    takes no more than the string has. *)
Definition one (cls : ascii -> bool) : matcher string := greedy cls 1 1.
Definition opt (cls : ascii -> bool) : matcher string := greedy cls 0 1.
Definition star (cls : ascii -> bool) : matcher string :=
  fun s => greedy cls 0 (String.length s) s.
Definition plus (cls : ascii -> bool) : matcher string :=
  fun s => greedy cls 1 (String.length s) s.
Definition plus_lazy (cls : ascii -> bool) : matcher string :=
  fun s => lazy cls 1 (String.length s) s.

(** The classes [[-/]], [[\d,]], [\.] and [.]; [\d] is [Str.isdigit]
    and [\s] is [Str.isspace]. *)
Definition separator (c : ascii) : bool := Ascii.eqb c "-" || Ascii.eqb c "/".
Definition digit_or_comma (c : ascii) : bool := Str.isdigit c || Ascii.eqb c ",".
Definition dot (c : ascii) : bool := Ascii.eqb c ".".
Definition any (c : ascii) : bool := negb (Str.code c =? 10).

(** [\d{1,2}[-/]\d{1,2}[-/]\d{2,4}] *)
Definition date_group : matcher string :=
  seq (greedy Str.isdigit 1 2) (fun d1 =>
  seq (one separator) (fun s1 =>
  seq (greedy Str.isdigit 1 2) (fun d2 =>
  seq (one separator) (fun s2 =>
  seq (greedy Str.isdigit 2 4) (fun y =>
  ret (d1 ++ s1 ++ d2 ++ s2 ++ y)%string))))).

(** [[\d,]+\.?\d*] *)
Definition number_group : matcher string :=
  seq (plus digit_or_comma) (fun a =>
  seq (opt dot) (fun b =>
  seq (star Str.isdigit) (fun c =>
  ret (a ++ b ++ c)%string))).

(** The whole pattern, with its four groups. *)
Definition pattern : matcher (string * string * string * string) :=
  seq date_group (fun date_str =>
  seq (plus Str.isspace) (fun _ =>
  seq (plus_lazy any) (fun description =>
  seq (plus Str.isspace) (fun _ =>
  seq number_group (fun amount =>
  seq (plus Str.isspace) (fun _ =>
  seq number_group (fun balance =>
  ret (date_str, description, amount, balance)))))))).

(** The search: at each position the first way to match counts; after
    a match the search goes on behind it.  [skip] counts the characters
    of the last match still to pass. *)
Fixpoint scan (skip : nat) (s : string)
  : list (string * string * string * string) :=
  match s with
  | EmptyString => []
  | String _ s' =>
      match skip with
      | S k => scan k s'
      | O =>
          match pattern s with
          | (groups, rest) :: _ =>
              groups :: scan (String.length s - String.length rest - 1) s'
          | [] => scan O s'
          end
      end
  end.

(** [[m.groups() for m in re.finditer(pattern, text)]] *)
Definition finditer (text : string)
  : list (string * string * string * string) :=
  scan O text.

End Re.

(* ================================================================== *)
(** * Part IV, continued.  Notions for the further properties          *)
(* ================================================================== *)

(** [-a] for a total. *)
Definition num_neg (a : num) : num :=
  match a with
  | NInt z => NInt (- z)
  | NFloat x => NFloat (Flt.neg x)
  end.

(** Four decimal digits in a row at the start of a string, or somewhere
    in it. *)
Definition starts_with_year (s : string) : bool :=
  match s with
  | String a (String b (String c (String d _))) =>
      Str.isdigit a && Str.isdigit b && Str.isdigit c && Str.isdigit d
  | _ => false
  end.

Fixpoint has_year (s : string) : bool :=
  starts_with_year s
  || match s with
     | String _ s' => has_year s'
     | EmptyString => false
     end.

(** The dictionary a raw transaction is: the keys that [parse_row] and
    [extract_from_text] fill in, with [None] for a missing value. *)
Definition to_dict (tr : PDFParser.transaction) : dict :=
  [ ("date", match PDFParser.date tr with Some d => PStr d | None => PNone end);
    ("description", PStr (PDFParser.description tr));
    ("amount",
     match PDFParser.amount tr with Some a => PFloat a | None => PNone end);
    ("balance",
     match PDFParser.balance tr with Some b => PFloat b | None => PNone end);
    ("type",
     PStr (match PDFParser.type tr with DEBIT => "DEBIT" | CREDIT => "CREDIT" end)) ].

(** The four bank tags. *)
Definition bank_tags : list string := ["HDFC"; "ICICI"; "SBI"; "GENERIC"].

(** A keyword of the entry occurs in the lower-cased description. *)
Definition entry_matches (description : string)
  (entry : DataProcessor.category * list string) : bool :=
  existsb (fun keyword => Str.contains keyword (Str.lower description))
          (snd entry).

(** Every character of a string is of a class. *)
Fixpoint all_chars (cls : ascii -> bool) (s : string) : bool :=
  match s with
  | EmptyString => true
  | String c s' => cls c && all_chars cls s'
  end.

(** The characters of a date group and of a number group. *)
Definition date_char (c : ascii) : bool := Str.isdigit c || Re.separator c.
Definition number_char (c : ascii) : bool := Re.digit_or_comma c || Re.dot c.

(** A line of a statement with a debit marked by "DR", and the
    transaction [extract_from_text] makes of it. *)
Definition atm_line : string := "01/03/2024 ATM DR 500.00 1,000.00".

Definition atm_transaction : PDFParser.transaction :=
  PDFParser.text_transaction true ("01/03/2024", "ATM DR", "500.00", "1,000.00").

(** A parser that has read the salary statement, and a page with a
    table of a header only, whose text holds a line the regular
    expression matches. *)
Definition used_parser : PDFParser.t :=
  {| PDFParser.transactions := [salary_transaction];
     PDFParser.bank_type := Some "GENERIC" |}.

Definition header_only_page : PDFParser.page :=
  {| PDFParser.extract_text := PDFParser.Returns (Some atm_line);
     PDFParser.extract_tables :=
       PDFParser.Returns [ [ [Some "Date"; Some "Description"; Some "Amount"] ] ] |}.

(** A page without tables whose text holds a line with nothing but
    whitespace between the date and the numbers, and the validation
    error that the transaction read from it ends in. *)
Definition blank_description_page : PDFParser.page :=
  {| PDFParser.extract_text := PDFParser.Returns (Some "01/02/2024    5 6");
     PDFParser.extract_tables := PDFParser.Returns [] |}.

Definition blank_description_error : DataProcessor.validation_error :=
  {| DataProcessor.index := 0;
     DataProcessor.error := ValueError "Missing description";
     DataProcessor.transaction :=
       to_dict (PDFParser.text_transaction true ("01/02/2024", " ", "5", "6")) |}.

(* ================================================================== *)
(** * Part V.  Properties                                              *)
(* ================================================================== *)

(** ** Strings *)

Lemma length_app (a b : string) :
  String.length (a ++ b) = (String.length a + String.length b)%nat.
Proof. induction a as [|c a IH]; simpl; [reflexivity | now rewrite IH]. Qed.

Lemma app_empty_r (a : string) : a ++ EmptyString = a.
Proof. induction a as [|c a IH]; simpl; [reflexivity | now rewrite IH]. Qed.

Lemma length_take (n : nat) (s : string) :
  (n <= String.length s)%nat -> String.length (Str.take n s) = n.
Proof.
  revert s; induction n as [|n IH]; intros [|c s] H; simpl in *;
    try reflexivity; try lia.
  now rewrite IH by lia.
Qed.

Lemma eqb_space (c : ascii) : Ascii.eqb c " " = true -> Str.isspace c = true.
Proof. intros H; apply Ascii.eqb_eq in H; subst; reflexivity. Qed.

Lemma not_space_eqb (c : ascii) :
  Str.isspace c = false -> Ascii.eqb c " " = false.
Proof.
  intros H; destruct (Ascii.eqb c " ") eqn:E; [|reflexivity].
  apply eqb_space in E; congruence.
Qed.

(** [split] on a string that starts with a word character. *)
Lemma split_word_start (c : ascii) (s : string) :
  Str.isspace c = false -> Str.split (String c s) <> [].
Proof.
  intros H; simpl; rewrite H.
  destruct (Str.starts_word s); [destruct (Str.split s)|]; discriminate.
Qed.

Lemma join_cons_char (a : ascii) (w : string) (ws : list string) :
  Str.join " " (String a w :: ws) = String a (Str.join " " (w :: ws)).
Proof. destruct ws; reflexivity. Qed.

Lemma tidy_after_nonempty (s : string) :
  tidy_after true s = true ->
  exists c s', s = String c s' /\ Str.isspace c = false
               /\ tidy_after false s' = true.
Proof.
  destruct s as [|c s']; simpl; [discriminate|].
  destruct (Ascii.eqb c " "); simpl; [discriminate|].
  intros H; apply andb_true_iff in H as [H1 H2].
  exists c, s'; repeat split; [now apply negb_true_iff | assumption].
Qed.

(** A tidy string is a fixed point of [split] followed by [join]. *)
Lemma join_split_tidy (n : nat) :
  forall s, (String.length s <= n)%nat -> tidy_after true s = true ->
            Str.join " " (Str.split s) = s.
Proof.
  induction n as [|n IH]; intros s Hlen Ht.
  - destruct s; [discriminate | simpl in Hlen; lia].
  - apply tidy_after_nonempty in Ht as (a & s1 & -> & Ha & Ht1).
    simpl in Hlen.
    destruct s1 as [|c s2].
    + simpl; rewrite Ha; reflexivity.
    + simpl in Ht1.
      destruct (Ascii.eqb c " ") eqn:Ec.
      * simpl in Ht1.
        pose proof (eqb_space _ Ec) as Hc.
        apply Ascii.eqb_eq in Ec; subst c.
        pose proof Ht1 as Ht2.
        apply tidy_after_nonempty in Ht2 as (d & s3 & -> & Hd & _).
        change (Str.split (String a (String " " (String d s3))))
          with (if Str.isspace a then Str.split (String " " (String d s3))
                else if Str.starts_word (String " " (String d s3))
                     then match Str.split (String " " (String d s3)) with
                          | w :: ws => String a w :: ws
                          | [] => [String a EmptyString]
                          end
                     else String a EmptyString
                          :: Str.split (String " " (String d s3))).
        rewrite Ha.
        change (Str.starts_word (String " " (String d s3))) with false.
        cbv iota.
        change (Str.split (String " " (String d s3)))
          with (Str.split (String d s3)).
        pose proof (split_word_start d s3 Hd) as Hne.
        pose proof (IH (String d s3)) as IH'.
        destruct (Str.split (String d s3)) as [|w ws] eqn:Es; [congruence|].
        change (Str.join " " (String a EmptyString :: w :: ws))
          with (String a (String " " (Str.join " " (w :: ws)))).
        rewrite IH'; [reflexivity | simpl in *; lia | assumption].
      * apply andb_true_iff in Ht1 as [Hc Ht2].
        apply negb_true_iff in Hc.
        assert (Ht1 : tidy_after true (String c s2) = true).
        { simpl; rewrite Ec, Hc; assumption. }
        pose proof (IH (String c s2) ltac:(simpl in *; lia) Ht1) as IH'.
        pose proof (split_word_start c s2 Hc) as Hne.
        change (Str.split (String a (String c s2)))
          with (if Str.isspace a then Str.split (String c s2)
                else if Str.starts_word (String c s2)
                     then match Str.split (String c s2) with
                          | w :: ws => String a w :: ws
                          | [] => [String a EmptyString]
                          end
                     else String a EmptyString :: Str.split (String c s2)).
        rewrite Ha.
        change (Str.starts_word (String c s2)) with (negb (Str.isspace c)).
        rewrite Hc; cbv [negb]; cbv iota.
        destruct (Str.split (String c s2)) as [|w ws]; [congruence|].
        rewrite join_cons_char, IH'; reflexivity.
Qed.

Lemma rstrip_tidy (b : bool) (s : string) :
  tidy_after b s = true -> Str.rstrip s = s.
Proof.
  revert b; induction s as [|c s IH]; intros b H; [reflexivity|].
  simpl in H |- *.
  destruct (Ascii.eqb c " ") eqn:Ec.
  - apply andb_true_iff in H as [_ H].
    rewrite (IH _ H).
    destruct s; [discriminate H | reflexivity].
  - apply andb_true_iff in H as [Hc H].
    apply negb_true_iff in Hc.
    rewrite (IH _ H), Hc, andb_false_r; reflexivity.
Qed.

Lemma strip_tidy (s : string) : tidy_after true s = true -> Str.strip s = s.
Proof.
  intros H; unfold Str.strip.
  pose proof H as H'.
  apply tidy_after_nonempty in H' as (c & s' & -> & Hc & _).
  simpl Str.lstrip; rewrite Hc.
  exact (rstrip_tidy _ _ H).
Qed.

Lemma collapsed_tidy (s : string) : tidy_after true s = true -> collapsed s = s.
Proof.
  intros H; unfold collapsed.
  rewrite (join_split_tidy (String.length s) s (le_n _) H).
  now apply strip_tidy.
Qed.

(** The words of [split]. *)
Lemma split_words (s : string) : forallb is_word (Str.split s) = true.
Proof.
  induction s as [|c s IH]; [reflexivity|].
  simpl; destruct (Str.isspace c) eqn:Hc; [assumption|].
  destruct (Str.starts_word s).
  - destruct (Str.split s) as [|w ws]; simpl in *.
    + unfold is_word; simpl; rewrite Hc; reflexivity.
    + apply andb_true_iff in IH as [Hw Hws].
      unfold is_word in *; simpl; rewrite Hc, Hws.
      apply andb_true_iff in Hw as [_ Hw]; rewrite Hw; reflexivity.
  - simpl; rewrite IH; unfold is_word; simpl; rewrite Hc; reflexivity.
Qed.

Lemma tidy_after_word (b : bool) (w r : string) :
  is_word w = true -> tidy_after false r = true ->
  tidy_after b (w ++ r) = true.
Proof.
  unfold is_word; intros H Hr.
  apply andb_true_iff in H as [Hne Hw].
  destruct w as [|c w]; [discriminate|]; clear Hne.
  revert b c Hw; induction w as [|d w IH]; intros b c Hw; simpl in Hw |- *.
  - apply andb_true_iff in Hw as [Hc _].
    pose proof Hc as Hc'; apply negb_true_iff in Hc'.
    rewrite (not_space_eqb _ Hc'), Hc; exact Hr.
  - apply andb_true_iff in Hw as [Hc Hw].
    pose proof Hc as Hc'; apply negb_true_iff in Hc'.
    rewrite (not_space_eqb _ Hc'), Hc.
    exact (IH false d Hw).
Qed.

Lemma tidy_join (ws : list string) :
  forallb is_word ws = true -> ws <> [] ->
  tidy_after true (Str.join " " ws) = true.
Proof.
  induction ws as [|w ws IH]; intros H Hne; [congruence|].
  simpl in H; apply andb_true_iff in H as [Hw Hws].
  destruct ws as [|w' ws].
  - simpl; rewrite <- (app_empty_r w).
    now apply tidy_after_word.
  - change (Str.join " " (w :: w' :: ws))
      with (w ++ String " " (Str.join " " (w' :: ws))).
    apply tidy_after_word; [assumption|].
    simpl tidy_after; apply IH; [assumption | discriminate].
Qed.

(** Cutting a tidy string and closing it with the marker keeps it tidy. *)
Lemma tidy_take_marker (n : nat) :
  forall b s, tidy_after b s = true ->
              tidy_after b (Str.take n s ++ "...") = true.
Proof.
  induction n as [|n IH]; intros b s H.
  - destruct b; reflexivity.
  - destruct s as [|c s]; [destruct b; reflexivity|].
    simpl in H |- *.
    destruct (Ascii.eqb c " ").
    + apply andb_true_iff in H as [Hb H]; rewrite Hb; simpl; now apply IH.
    + apply andb_true_iff in H as [Hc H]; rewrite Hc; simpl; now apply IH.
Qed.

(** The collapsed form is empty or tidy, and collapsing does not change
    it. *)
Lemma collapsed_shape (s : string) :
  collapsed s = Str.join " " (Str.split s) /\
  (collapsed s = EmptyString \/ tidy_after true (collapsed s) = true).
Proof.
  unfold collapsed.
  destruct (Str.split s) as [|w ws] eqn:E.
  - split; [reflexivity | left; reflexivity].
  - assert (Ht : tidy_after true (Str.join " " (w :: ws)) = true).
    { apply tidy_join; [rewrite <- E; apply split_words | discriminate]. }
    rewrite (strip_tidy _ Ht); split; [reflexivity | right; assumption].
Qed.

Lemma collapsed_idem (s : string) : collapsed (collapsed s) = collapsed s.
Proof.
  destruct (collapsed_shape s) as [_ [-> | H]]; [reflexivity|].
  now apply collapsed_tidy.
Qed.

Lemma clean_description_unfold (s : string) :
  DataProcessor.clean_description s =
  if (100 <? String.length (collapsed s))%nat
  then Str.take 97 (collapsed s) ++ "..." else collapsed s.
Proof. reflexivity. Qed.

Lemma clean_description_long (s : string) :
  (100 < String.length (collapsed s))%nat ->
  DataProcessor.clean_description s = Str.take 97 (collapsed s) ++ "..."
  /\ String.length (DataProcessor.clean_description s) = 100%nat.
Proof.
  intros H; rewrite clean_description_unfold.
  apply Nat.ltb_lt in H as H'; rewrite H'.
  split; [reflexivity|].
  rewrite length_app, length_take by lia; reflexivity.
Qed.

(** C9, as the code has it.  Cleaning a cleaned description changes
    nothing, for every string; and whenever the description, once its
    whitespace is collapsed and trimmed, is longer than 100 characters,
    the cleaned result is the first 97 characters of that collapsed form
    followed by the three-character marker, 100 characters in all. *)
Theorem clean_description_idempotent_and_truncating :
  forall s : string,
    DataProcessor.clean_description (DataProcessor.clean_description s)
    = DataProcessor.clean_description s
    /\ ((100 < String.length (collapsed s))%nat ->
        DataProcessor.clean_description s = Str.take 97 (collapsed s) ++ "..."
        /\ String.length (DataProcessor.clean_description s) = 100%nat).
Proof.
  intros s; split; [|apply clean_description_long].
  rewrite (clean_description_unfold s).
  destruct (100 <? String.length (collapsed s))%nat eqn:E.
  - apply Nat.ltb_lt in E.
    destruct (collapsed_shape s) as [_ [H0 | Ht]];
      [rewrite H0 in E; simpl in E; lia|].
    pose proof (tidy_take_marker 97 _ _ Ht) as HT.
    rewrite clean_description_unfold, (collapsed_tidy _ HT).
    rewrite length_app, length_take by lia; reflexivity.
  - rewrite clean_description_unfold, collapsed_idem, E; reflexivity.
Qed.

(** A 150-character description without whitespace: cleaning it twice or
    once gives the same 100 characters, 97 of its own and the marker. *)
Lemma clean_description_witness :
  let s := replicate 150 "x" in
  (100 < String.length (collapsed s))%nat
  /\ DataProcessor.clean_description s = replicate 97 "x" ++ "..."
  /\ String.length (DataProcessor.clean_description s) = 100%nat.
Proof.
  intros s.
  assert (H : (100 < String.length (collapsed s))%nat) by (vm_compute; lia).
  split; [exact H|].
  destruct (clean_description_idempotent_and_truncating s) as [_ Hlong].
  destruct (Hlong H) as [H1 H2].
  split; [rewrite H1; vm_compute; reflexivity | exact H2].
Defined.

(** C9 as the specification words it fails: a 150-character description
    that is one letter followed by 149 spaces is cleaned to that letter
    alone, one character and no marker. *)
Lemma clean_description_150_counterexample :
  String.length (String "a" (replicate 149 " ")) = 150%nat
  /\ DataProcessor.clean_description (String "a" (replicate 149 " ")) = "a"
  /\ String.length
       (DataProcessor.clean_description (String "a" (replicate 149 " ")))
     <> 100%nat.
Proof. vm_compute; repeat split; discriminate. Qed.

(** ** The data processor *)

(** The [type] of the input plays no part in validation. *)
Lemma validate_ignores_type (v : pyval) (d : dict) (idx : Z) :
  DataProcessor.validate_and_clean_transaction (("type", v) :: d) idx
  = DataProcessor.validate_and_clean_transaction d idx.
Proof. reflexivity. Qed.

(** What a successful validation returns, field by field. *)
Lemma validate_inversion (d : dict) (idx : Z) (p : DataProcessor.processed) :
  DataProcessor.validate_and_clean_transaction d idx = inr p ->
  exists (s : string) (x : Flt.float),
    truthy (get d "date") = true
    /\ get d "description" = PStr s
    /\ py_float (get d "amount") = inr x
    /\ DataProcessor.date p = get d "date"
    /\ DataProcessor.description p = DataProcessor.clean_description s
    /\ DataProcessor.amount p = Flt.abs x
    /\ DataProcessor.raw_amount p = x
    /\ DataProcessor.type p = (if Flt.ltb x Flt.zero then DEBIT else CREDIT)
    /\ DataProcessor.category_of p
       = DataProcessor.categorize_transaction (DataProcessor.clean_description s)
    /\ DataProcessor.row_num p = idx + 2.
Proof.
  unfold DataProcessor.validate_and_clean_transaction.
  destruct (truthy (get d "date")) eqn:Hd; simpl; [|discriminate].
  destruct (get d "description") as [| b | z | y | s | l] eqn:Hs; simpl;
    try discriminate;
    try (match goal with |- context [if ?c then _ else _] =>
           destruct c; discriminate end).
  destruct (Str.is_empty s || (Str.strip s =? ""))%string; simpl;
    [discriminate|].
  destruct (get d "amount") as [| b | z | y | a | l] eqn:Ha;
    try discriminate;
    (destruct (py_float _) as [e | x] eqn:Hx; simpl; [discriminate|];
     destruct (truthy (get d "balance"));
     [destruct (py_float (get d "balance")); simpl; [discriminate|]|];
     simpl; intros H; injection H as <-;
     exists s, x; simpl; repeat split; try reflexivity; try assumption;
     rewrite <- Ha in Hx; try exact Hx).
Qed.

(** C1.  Whatever [validate_and_clean_transaction] returns has
    [amount = abs(raw_amount)], is a DEBIT exactly when [raw_amount] is
    below zero and a CREDIT otherwise, whatever [type] the input gave,
    and has a [date] that is not [None]; its [raw_amount] is the float
    that [float()] makes of the input amount, so neither amount is
    [None]. *)
Theorem validate_and_clean_invariants :
  forall (transaction : dict) (idx : Z) (p : DataProcessor.processed),
    DataProcessor.validate_and_clean_transaction transaction idx = inr p ->
    DataProcessor.amount p = Flt.abs (DataProcessor.raw_amount p)
    /\ (DataProcessor.type p = DEBIT
        <-> Flt.ltb (DataProcessor.raw_amount p) Flt.zero = true)
    /\ (DataProcessor.type p = CREDIT
        <-> Flt.ltb (DataProcessor.raw_amount p) Flt.zero = false)
    /\ (forall v : pyval,
          DataProcessor.validate_and_clean_transaction
            (("type", v) :: transaction) idx = inr p)
    /\ DataProcessor.date p <> PNone
    /\ py_float (get transaction "amount") = inr (DataProcessor.raw_amount p).
Proof.
  intros d idx p H.
  pose proof (validate_inversion d idx p H)
    as (s & x & Hd & _ & Hx & Hdate & _ & Ha & Hr & Ht & _ & _).
  rewrite Ha, Hr, Ht.
  split; [reflexivity|].
  split; [destruct (Flt.ltb x Flt.zero); split; congruence|].
  split; [destruct (Flt.ltb x Flt.zero); split; congruence|].
  split; [intros v; rewrite validate_ignores_type; exact H|].
  split; [|exact Hx].
  rewrite Hdate; intros E; rewrite E in Hd; discriminate.
Qed.

Lemma validate_and_clean_invariants_witness :
  exists p : DataProcessor.processed,
    DataProcessor.validate_and_clean_transaction
      [("date", PStr "01-01-2024"); ("description", PStr "Card payment");
       ("amount", PFloat (Flt.of_decimal true 4999 (-2)));
       ("type", PStr "CREDIT")] 0 = inr p
    /\ DataProcessor.amount p = Flt.abs (DataProcessor.raw_amount p)
    /\ DataProcessor.type p = DEBIT.
Proof.
  eexists; split; [vm_compute; reflexivity|].
  match goal with
  | |- DataProcessor.amount ?p = _ /\ _ =>
      pose proof (validate_and_clean_invariants
        [("date", PStr "01-01-2024"); ("description", PStr "Card payment");
         ("amount", PFloat (Flt.of_decimal true 4999 (-2)));
         ("type", PStr "CREDIT")] 0 p ltac:(vm_compute; reflexivity))
        as (Ha & Ht & _)
  end.
  split; [exact Ha | apply Ht; vm_compute; reflexivity].
Defined.

(** C2, as the code has it.  On the batch of scenario A the data
    processor returns one processed transaction with the description
    "ATM Cash Withdrawal", amount 500, raw amount -500, type DEBIT,
    category WITHDRAWAL, balance 1500 and row number 2, and the summary
    credits 0, debits 500, net -500, opening and closing balance 1500;
    the date is the input's "01-01-2024", handed on as it came. *)
Theorem scenario_A_result :
  forall (compensated : bool) (self : DataProcessor.t),
    snd (DataProcessor.process_transactions compensated self scenario_A)
    = {| DataProcessor.status := "success";
         DataProcessor.transactions :=
           [ {| DataProcessor.date := PStr "01-01-2024";
                DataProcessor.description := "ATM Cash Withdrawal";
                DataProcessor.amount := Flt.of_Z 500;
                DataProcessor.type := DEBIT;
                DataProcessor.balance := Some (Flt.of_Z 1500);
                DataProcessor.category_of := DataProcessor.WITHDRAWAL;
                DataProcessor.raw_amount := Flt.of_Z (-500);
                DataProcessor.row_num := 2 |} ];
         DataProcessor.total_processed := 1;
         DataProcessor.total_errors := 0;
         DataProcessor.errors := [];
         DataProcessor.summary_of :=
           {| DataProcessor.total_transactions := 1;
              DataProcessor.total_credits := NInt 0;
              DataProcessor.total_debits := NFloat (Flt.of_Z 500);
              DataProcessor.net_amount := NFloat (Flt.of_Z (-500));
              DataProcessor.opening_balance := Some (Flt.of_Z 1500);
              DataProcessor.closing_balance := Some (Flt.of_Z 1500) |} |}.
Proof. intros [] self; vm_compute; reflexivity. Qed.

(** C2 as the specification words it fails: the processed transaction
    of scenario A is not the one with the date "2024-01-01". *)
Lemma scenario_A_date_counterexample :
  let expected :=
    [ {| DataProcessor.date := PStr "2024-01-01";
         DataProcessor.description := "ATM Cash Withdrawal";
         DataProcessor.amount := Flt.of_Z 500;
         DataProcessor.type := DEBIT;
         DataProcessor.balance := Some (Flt.of_Z 1500);
         DataProcessor.category_of := DataProcessor.WITHDRAWAL;
         DataProcessor.raw_amount := Flt.of_Z (-500);
         DataProcessor.row_num := 2 |} ] in
  DataProcessor.transactions
    (snd (DataProcessor.process_transactions false DataProcessor.init scenario_A))
  <> expected
  /\ DataProcessor.transactions
       (snd (DataProcessor.process_transactions true DataProcessor.init scenario_A))
     <> expected.
Proof. vm_compute; split; intros H; discriminate H. Qed.

(** The loop appends the outcomes of the items to the two lists. *)
Lemma process_loop_spec (batch : list dict) :
  forall (self : DataProcessor.t) (idx : Z),
    DataProcessor.process_loop self idx batch
    = {| DataProcessor.processed_transactions :=
           DataProcessor.processed_transactions self ++ successes idx batch;
         DataProcessor.validation_errors :=
           DataProcessor.validation_errors self ++ failures idx batch |}.
Proof.
  induction batch as [|tx rest IH]; intros self idx; simpl.
  - rewrite !app_nil_r; destruct self; reflexivity.
  - rewrite IH; unfold DataProcessor.process_one.
    destruct (DataProcessor.validate_and_clean_transaction tx idx); simpl;
      rewrite <- ?app_assoc; reflexivity.
Qed.

Lemma process_transactions_spec (compensated : bool) (self : DataProcessor.t)
  (batch : list dict) :
  DataProcessor.transactions
    (snd (DataProcessor.process_transactions compensated self batch))
  = successes 0 batch
  /\ DataProcessor.errors
       (snd (DataProcessor.process_transactions compensated self batch))
     = failures 0 batch.
Proof.
  unfold DataProcessor.process_transactions; simpl.
  rewrite process_loop_spec; simpl; split; reflexivity.
Qed.

(** The reset at the start of [process_transactions]: neither the
    result nor the instance left behind depends on the instance the call
    started from. *)
Lemma process_transactions_resets (compensated : bool)
  (self1 self2 : DataProcessor.t) (batch : list dict) :
  DataProcessor.process_transactions compensated self1 batch
  = DataProcessor.process_transactions compensated self2 batch.
Proof.
  unfold DataProcessor.process_transactions; simpl.
  rewrite !process_loop_spec; reflexivity.
Qed.

Lemma validate_row_num (tx : dict) (idx : Z) (p : DataProcessor.processed) :
  DataProcessor.validate_and_clean_transaction tx idx = inr p ->
  DataProcessor.row_num p = idx + 2.
Proof.
  intros H; apply validate_inversion in H.
  destruct H as (s & x & H); tauto.
Qed.

Lemma successes_row_num (batch : list dict) :
  forall (idx : Z) (p : DataProcessor.processed),
    In p (successes idx batch) -> idx + 2 <= DataProcessor.row_num p.
Proof.
  induction batch as [|tx rest IH]; intros idx p H; simpl in H; [tauto|].
  destruct (DataProcessor.validate_and_clean_transaction tx idx) eqn:E.
  - apply IH in H; lia.
  - destruct H as [<- | H]; [rewrite (validate_row_num _ _ _ E); lia|].
    apply IH in H; lia.
Qed.

Lemma failures_index (batch : list dict) :
  forall (idx : Z) (e : DataProcessor.validation_error),
    In e (failures idx batch) -> idx <= DataProcessor.index e.
Proof.
  induction batch as [|tx rest IH]; intros idx e H; simpl in H; [tauto|].
  destruct (DataProcessor.validate_and_clean_transaction tx idx) eqn:E.
  - destruct H as [<- | H]; [simpl; lia | apply IH in H; lia].
  - apply IH in H; lia.
Qed.

Lemma filter_none {A : Type} (f : A -> bool) (l : list A) :
  (forall a, In a l -> f a = false) -> filter f l = [].
Proof.
  induction l as [|a l IH]; intros H; simpl; [reflexivity|].
  rewrite (H a (or_introl eq_refl)); apply IH.
  intros b Hb; apply H; right; exact Hb.
Qed.

Lemma processed_at_later (k idx : Z) (batch : list dict) :
  k < idx -> processed_at k (successes idx batch) = [].
Proof.
  intros H; apply filter_none; intros p Hp.
  apply successes_row_num in Hp; apply Z.eqb_neq; lia.
Qed.

Lemma errors_at_later (k idx : Z) (batch : list dict) :
  k < idx -> errors_at k (failures idx batch) = [].
Proof.
  intros H; apply filter_none; intros e He.
  apply failures_index in He; apply Z.eqb_neq; lia.
Qed.

Lemma processed_at_skip (k : Z) (p : DataProcessor.processed)
  (ps : list DataProcessor.processed) :
  DataProcessor.row_num p <> k + 2 ->
  processed_at k (p :: ps) = processed_at k ps.
Proof.
  intros H; unfold processed_at; simpl.
  apply Z.eqb_neq in H; rewrite H; reflexivity.
Qed.

Lemma errors_at_skip (k : Z) (e : DataProcessor.validation_error)
  (es : list DataProcessor.validation_error) :
  DataProcessor.index e <> k -> errors_at k (e :: es) = errors_at k es.
Proof.
  intros H; unfold errors_at; simpl.
  apply Z.eqb_neq in H; rewrite H; reflexivity.
Qed.

(** Position [k] of the batch gives one processed transaction or one
    validation error, and nothing else carries its number. *)
Lemma outcome_at (batch : list dict) :
  forall (idx : Z) (k : nat) (tx : dict),
    nth_error batch k = Some tx ->
    match DataProcessor.validate_and_clean_transaction tx (idx + Z.of_nat k) with
    | inr p =>
        processed_at (idx + Z.of_nat k) (successes idx batch) = [p]
        /\ errors_at (idx + Z.of_nat k) (failures idx batch) = []
    | inl e =>
        processed_at (idx + Z.of_nat k) (successes idx batch) = []
        /\ errors_at (idx + Z.of_nat k) (failures idx batch)
           = [ {| DataProcessor.index := idx + Z.of_nat k;
                  DataProcessor.error := e;
                  DataProcessor.transaction := tx |} ]
    end.
Proof.
  induction batch as [|tx0 rest IH]; intros idx k tx H.
  - destruct k; discriminate.
  - destruct k as [|k].
    + injection H as ->.
      replace (idx + Z.of_nat 0) with idx by lia.
      simpl successes; simpl failures.
      destruct (DataProcessor.validate_and_clean_transaction tx idx) eqn:E.
      * unfold errors_at at 1; simpl; rewrite Z.eqb_refl.
        fold (errors_at idx (failures (idx + 1) rest)).
        rewrite errors_at_later, processed_at_later by lia; split; reflexivity.
      * unfold processed_at at 1; simpl.
        rewrite (validate_row_num _ _ _ E), Z.eqb_refl.
        fold (processed_at idx (successes (idx + 1) rest)).
        rewrite errors_at_later, processed_at_later by lia; split; reflexivity.
    + simpl in H.
      replace (idx + Z.of_nat (S k)) with (idx + 1 + Z.of_nat k) by lia.
      specialize (IH (idx + 1) k tx H).
      simpl successes; simpl failures.
      destruct (DataProcessor.validate_and_clean_transaction tx0 idx) eqn:E0.
      * rewrite errors_at_skip by (simpl; lia); exact IH.
      * rewrite processed_at_skip
          by (rewrite (validate_row_num _ _ _ E0); lia).
        exact IH.
Qed.

Lemma outcomes_count (batch : list dict) :
  forall idx : Z,
    (List.length (successes idx batch) + List.length (failures idx batch)
     = List.length batch)%nat.
Proof.
  induction batch as [|tx rest IH]; intros idx; simpl; [reflexivity|].
  destruct (DataProcessor.validate_and_clean_transaction tx idx); simpl;
    rewrite <- (IH (idx + 1)); lia.
Qed.

(** C7.  In a batch of N items every position k gives exactly one
    outcome, decided by the item at k alone: when its validation
    succeeds, the one processed transaction with row number k + 2 and no
    validation error with index k; when it fails, the one validation
    error with index k, holding the exception and the item, and no
    processed transaction for k.  The two counts add up to N. *)
Theorem process_transactions_one_outcome_per_item :
  forall (compensated : bool) (self : DataProcessor.t) (batch : list dict),
    let out := snd (DataProcessor.process_transactions compensated self batch) in
    DataProcessor.total_processed out + DataProcessor.total_errors out
    = Z.of_nat (List.length batch)
    /\ forall (k : nat) (tx : dict),
         nth_error batch k = Some tx ->
         match DataProcessor.validate_and_clean_transaction tx (Z.of_nat k) with
         | inr p =>
             processed_at (Z.of_nat k) (DataProcessor.transactions out) = [p]
             /\ errors_at (Z.of_nat k) (DataProcessor.errors out) = []
         | inl e =>
             processed_at (Z.of_nat k) (DataProcessor.transactions out) = []
             /\ errors_at (Z.of_nat k) (DataProcessor.errors out)
                = [ {| DataProcessor.index := Z.of_nat k;
                       DataProcessor.error := e;
                       DataProcessor.transaction := tx |} ]
         end.
Proof.
  intros compensated self batch out.
  destruct (process_transactions_spec compensated self batch) as [Hs Hf].
  split.
  - unfold out, DataProcessor.process_transactions; simpl.
    rewrite process_loop_spec; simpl.
    rewrite <- Nat2Z.inj_add, outcomes_count; reflexivity.
  - intros k tx H; unfold out; rewrite Hs, Hf.
    exact (outcome_at batch 0 k tx H).
Qed.

(** A batch whose middle item lacks the amount: the items around it are
    processed, and the one error carries index 1. *)
Lemma process_transactions_one_outcome_witness :
  let batch :=
    [ [("date", PStr "2024-01-01"); ("description", PStr "Salary");
       ("amount", PInt 1000)];
      [("date", PStr "2024-01-02"); ("description", PStr "Rent")];
      [("date", PStr "2024-01-03"); ("description", PStr "Cafe");
       ("amount", PInt (-5))] ] in
  let out := snd (DataProcessor.process_transactions true DataProcessor.init batch) in
  nth_error batch 1
  = Some [("date", PStr "2024-01-02"); ("description", PStr "Rent")]
  /\ processed_at 1 (DataProcessor.transactions out) = []
  /\ errors_at 1 (DataProcessor.errors out)
     = [ {| DataProcessor.index := 1;
            DataProcessor.error := ValueError "Missing amount";
            DataProcessor.transaction :=
              [("date", PStr "2024-01-02"); ("description", PStr "Rent")] |} ].
Proof.
  intros batch out.
  split; [reflexivity|].
  destruct (process_transactions_one_outcome_per_item true DataProcessor.init batch)
    as [_ H].
  exact (H 1%nat _ eq_refl).
Defined.

(** ** Signs of float results *)

Lemma shr_1_nonneg (mrs : shr_record) :
  0 <= shr_m mrs -> 0 <= shr_m (shr_1 mrs).
Proof.
  destruct mrs as [m r s]; simpl.
  destruct m as [|p|p]; [| destruct p |]; simpl; lia.
Qed.

Lemma iter_shr_1_nonneg (p : positive) :
  forall mrs, 0 <= shr_m mrs -> 0 <= shr_m (iter_pos shr_1 p mrs).
Proof.
  induction p as [p IH | p IH |]; intros mrs H; simpl.
  - apply IH, IH, shr_1_nonneg, H.
  - apply IH, IH, H.
  - apply shr_1_nonneg, H.
Qed.

Lemma shr_fexp_nonneg (m e : Z) (l : location) :
  0 <= m -> 0 <= shr_m (fst (shr_fexp Flt.prec Flt.emax m e l)).
Proof.
  intros H; unfold shr_fexp, shr.
  assert (H0 : 0 <= shr_m (shr_record_of_loc m l))
    by (destruct l as [|[]]; exact H).
  destruct (fexp Flt.prec Flt.emax (Zdigits2 m + e) - e); simpl;
    [exact H0 | apply iter_shr_1_nonneg, H0 | exact H0].
Qed.

Lemma round_nearest_even_nonneg (m : Z) (l : location) :
  0 <= m -> 0 <= round_nearest_even m l.
Proof.
  intros H; destruct l as [|[]]; simpl; try lia.
  destruct (Z.even m); lia.
Qed.

Lemma binary_round_aux_sign (s : bool) (m e : Z) (l : location) :
  0 <= m -> has_sign s (binary_round_aux Flt.prec Flt.emax s m e l).
Proof.
  intros H; unfold binary_round_aux.
  pose proof (shr_fexp_nonneg m e l H) as H1.
  destruct (shr_fexp Flt.prec Flt.emax m e l) as [mrs' e']; simpl in H1.
  pose proof (shr_fexp_nonneg _ e' loc_Exact
                (round_nearest_even_nonneg _ (loc_of_shr_record mrs') H1)) as H2.
  destruct (shr_fexp Flt.prec Flt.emax
              (round_nearest_even (shr_m mrs') (loc_of_shr_record mrs'))
              e' loc_Exact) as [mrs'' e'']; simpl in H2.
  destruct (shr_m mrs''); [reflexivity | | lia].
  destruct (e'' <=? Flt.emax - Flt.prec); reflexivity.
Qed.

Lemma binary_round_sign (s : bool) (m : positive) (e : Z) :
  has_sign s (binary_round Flt.prec Flt.emax s m e).
Proof.
  unfold binary_round.
  destruct (shl_align m e _) as [mz ez].
  apply binary_round_aux_sign; lia.
Qed.

Lemma of_decimal_sign (s : bool) (d e : Z) : has_sign s (Flt.of_decimal s d e).
Proof.
  unfold Flt.of_decimal.
  destruct d as [|p|p]; try reflexivity.
  destruct (0 <=? e) eqn:He; [apply binary_round_sign|].
  apply Z.leb_gt in He.
  unfold SFdiv_core_binary.
  set (m' := match _ - _ - _ with Z0 => Z.pos p | Z.pos _ => _ | Z.neg _ => 0 end).
  assert (Hm : 0 <= m').
  { unfold m'; destruct (_ - _ - _); try lia.
    apply Z.shiftl_nonneg; lia. }
  assert (Hb : 10 ^ (- e) > 0).
  { apply Z.lt_gt, Z.pow_pos_nonneg; lia. }
  pose proof (Z_div_mod m' (10 ^ (- e)) Hb) as Hq.
  destruct (Z.div_eucl m' (10 ^ (- e))) as [q r].
  apply binary_round_aux_sign; nia.
Qed.

Lemma div_half_even_nonneg (a b : Z) :
  0 <= a -> 0 < b -> 0 <= Flt.div_half_even a b.
Proof.
  intros Ha Hb; unfold Flt.div_half_even.
  pose proof (Z.div_pos a b Ha Hb).
  destruct (2 * (a mod b) ?= b); [destruct (Z.even (a / b))| |]; lia.
Qed.

Lemma round2_sign (s : bool) (x : Flt.float) :
  has_sign s x -> has_sign s (Flt.round2 x).
Proof.
  destruct x as [s' | s' | | s' m e]; simpl; try tauto.
  intros ->; apply of_decimal_sign.
Qed.

Lemma add_sign_false (x y : Flt.float) :
  has_sign false x -> has_sign false y -> has_sign false (Flt.add x y).
Proof.
  destruct x as [sx | sx | | sx mx ex], y as [sy | sy | | sy my ey];
    simpl; try tauto; intros -> ->; try reflexivity.
  unfold Flt.add, SFadd, cond_Zopp, binary_normalize.
  cbn [Z.add]; apply binary_round_sign.
Qed.

Lemma add_sign_clear (x y : Flt.float) :
  sign_clear x -> sign_clear y -> sign_clear (Flt.add x y).
Proof.
  intros [-> | Hx] [-> | Hy].
  - left; reflexivity.
  - left; reflexivity.
  - left; destruct x; reflexivity.
  - right; now apply add_sign_false.
Qed.

Lemma fold_add_sign_false (xs : list Flt.float) :
  forall acc, has_sign false acc -> Forall (has_sign false) xs ->
              has_sign false (fold_left Flt.add xs acc).
Proof.
  induction xs as [|x xs IH]; intros acc Ha Hxs; simpl; [exact Ha|].
  inversion Hxs; subst; apply IH; [now apply add_sign_false | assumption].
Qed.

Lemma fold_add_sign_clear (xs : list Flt.float) :
  forall acc, sign_clear acc -> Forall sign_clear xs ->
              sign_clear (fold_left Flt.add xs acc).
Proof.
  induction xs as [|x xs IH]; intros acc Ha Hxs; simpl; [exact Ha|].
  inversion Hxs; subst; apply IH; [now apply add_sign_clear | assumption].
Qed.

Lemma round2_sign_clear (x : Flt.float) :
  sign_clear x -> sign_clear (Flt.round2 x).
Proof.
  intros [-> | H]; [left; reflexivity | right; now apply round2_sign].
Qed.

Lemma sign_false_at_least_zero (x : Flt.float) :
  has_sign false x -> Flt.leb Flt.zero x = true.
Proof. destruct x as [s | s | | s m e]; simpl; try tauto; intros ->; reflexivity. Qed.

Lemma sign_clear_never_negative (x : Flt.float) :
  sign_clear x -> Flt.ltb x Flt.zero = false.
Proof.
  intros [-> | H]; [reflexivity|].
  destruct x as [s | s | | s m e]; simpl in H; try tauto; subst; reflexivity.
Qed.

Lemma of_Z_0_sign : has_sign false (Flt.of_Z 0).
Proof. reflexivity. Qed.

(** [sum] and [round] over floats whose sign bit is clear. *)
Lemma num_round2_at_least_zero (xs : list Flt.float) :
  Forall (has_sign false) xs -> at_least_zero (num_round2 (py_sum false xs)).
Proof.
  destruct xs as [|x xs]; intros H; [simpl; lia|].
  inversion H; subst.
  cbn [py_sum num_round2 at_least_zero].
  apply sign_false_at_least_zero, round2_sign, fold_add_sign_false;
    [|assumption].
  apply add_sign_false; [exact of_Z_0_sign | assumption].
Qed.

Lemma num_round2_never_negative (xs : list Flt.float) :
  Forall sign_clear xs -> never_negative (num_round2 (py_sum false xs)).
Proof.
  destruct xs as [|x xs]; intros H; [simpl; lia|].
  inversion H; subst.
  cbn [py_sum num_round2 never_negative].
  apply sign_clear_never_negative, round2_sign_clear, fold_add_sign_clear;
    [|assumption].
  apply add_sign_clear; [right; exact of_Z_0_sign | assumption].
Qed.

(** ** The summary *)

Lemma abs_sign_clear (x : Flt.float) : sign_clear (Flt.abs x).
Proof. destruct x; [right | right | left | right]; reflexivity. Qed.

Lemma abs_sign_false (x : Flt.float) :
  is_nan x = false -> has_sign false (Flt.abs x).
Proof. destruct x; simpl; intros H; try reflexivity; discriminate. Qed.

Lemma successes_amounts (batch : list dict) :
  forall (idx : Z) (p : DataProcessor.processed),
    In p (successes idx batch) ->
    DataProcessor.amount p = Flt.abs (DataProcessor.raw_amount p)
    /\ (DataProcessor.type p = DEBIT
        <-> Flt.ltb (DataProcessor.raw_amount p) Flt.zero = true).
Proof.
  induction batch as [|tx rest IH]; intros idx p H; simpl in H; [tauto|].
  destruct (DataProcessor.validate_and_clean_transaction tx idx) eqn:E.
  - exact (IH _ _ H).
  - destruct H as [<- | H]; [|exact (IH _ _ H)].
    apply validate_inversion in E
      as (s & x & _ & _ & _ & _ & _ & Ha & Hr & Ht & _).
    rewrite Ha, Hr, Ht; split; [reflexivity|].
    destruct (Flt.ltb x Flt.zero); split; congruence.
Qed.

Lemma amounts_sign_clear (ty : trans_type) (idx : Z) (batch : list dict) :
  Forall sign_clear (amounts_of ty (successes idx batch)).
Proof.
  apply Forall_forall; intros x Hx.
  apply in_map_iff in Hx as (p & <- & Hp).
  apply filter_In in Hp as [Hp _].
  destruct (successes_amounts _ _ _ Hp) as [-> _].
  apply abs_sign_clear.
Qed.

Lemma debit_amounts_sign_false (idx : Z) (batch : list dict) :
  Forall (has_sign false) (amounts_of DEBIT (successes idx batch)).
Proof.
  apply Forall_forall; intros x Hx.
  apply in_map_iff in Hx as (p & <- & Hp).
  apply filter_In in Hp as [Hp Ht].
  destruct (successes_amounts _ _ _ Hp) as [-> Hd].
  apply abs_sign_false.
  assert (Hlt : Flt.ltb (DataProcessor.raw_amount p) Flt.zero = true).
  { apply Hd; unfold DataProcessor.is_type in Ht.
    destruct (DataProcessor.type p); [reflexivity | discriminate]. }
  destruct (DataProcessor.raw_amount p); try reflexivity; discriminate.
Qed.

Lemma credit_amounts_sign_false (idx : Z) (batch : list dict) :
  (forall p, In p (successes idx batch) ->
             is_nan (DataProcessor.amount p) = false) ->
  Forall (has_sign false) (amounts_of CREDIT (successes idx batch)).
Proof.
  intros Hn; apply Forall_forall; intros x Hx.
  apply in_map_iff in Hx as (p & <- & Hp).
  apply filter_In in Hp as [Hp _].
  pose proof (Hn p Hp) as Hnan.
  destruct (successes_amounts _ _ _ Hp) as [Ha _].
  rewrite Ha in Hnan |- *.
  apply abs_sign_false.
  destruct (DataProcessor.raw_amount p); try reflexivity; discriminate.
Qed.

Lemma generate_summary_fields (compensated : bool) (self : DataProcessor.t) :
  let ts := DataProcessor.processed_transactions self in
  let s := DataProcessor.generate_summary compensated self in
  DataProcessor.total_credits s = num_round2 (py_sum compensated (amounts_of CREDIT ts))
  /\ DataProcessor.total_debits s = num_round2 (py_sum compensated (amounts_of DEBIT ts))
  /\ DataProcessor.net_amount s
     = num_round2 (num_sub (py_sum compensated (amounts_of CREDIT ts))
                           (py_sum compensated (amounts_of DEBIT ts))).
Proof.
  unfold DataProcessor.generate_summary.
  destruct (DataProcessor.processed_transactions self) as [|first rest];
    repeat split; reflexivity.
Qed.

(** ** Powers of two and the digits of a mantissa *)

Lemma pow2_pos (k : Z) : 0 <= k -> 0 < 2 ^ k.
Proof. intros H; apply Z.pow_pos_nonneg; lia. Qed.

Lemma pow2_le (a b : Z) : 0 <= a <= b -> 2 ^ a <= 2 ^ b.
Proof. intros H; apply Z.pow_le_mono_r; lia. Qed.

Lemma pow2_lt (a b : Z) : 0 <= a < b -> 2 ^ a < 2 ^ b.
Proof. intros H; apply Z.pow_lt_mono_r; lia. Qed.

Lemma pow2_split (a b : Z) : 0 <= a <= b -> 2 ^ b = 2 ^ (b - a) * 2 ^ a.
Proof.
  intros H; rewrite <- Z.pow_add_r by lia; f_equal; lia.
Qed.

Lemma digits_bounds (p : positive) :
  2 ^ (Z.pos (digits2_pos p) - 1) <= Z.pos p < 2 ^ Z.pos (digits2_pos p).
Proof.
  induction p as [p IH | p IH |]; cbn [digits2_pos].
  - rewrite Pos2Z.inj_succ.
    replace (Z.succ (Z.pos (digits2_pos p)) - 1) with (Z.succ (Z.pos (digits2_pos p) - 1)) by lia.
    rewrite !Z.pow_succ_r by lia. lia.
  - rewrite Pos2Z.inj_succ.
    replace (Z.succ (Z.pos (digits2_pos p)) - 1) with (Z.succ (Z.pos (digits2_pos p) - 1)) by lia.
    rewrite !Z.pow_succ_r by lia. lia.
  - simpl; lia.
Qed.

(** The number of digits is decided by the bounds. *)
Lemma digits_unique (p : positive) (d : Z) :
  0 < d -> 2 ^ (d - 1) <= Z.pos p < 2 ^ d -> Z.pos (digits2_pos p) = d.
Proof.
  intros Hd [Hlo Hhi].
  destruct (digits_bounds p) as [Blo Bhi].
  set (d' := Z.pos (digits2_pos p)) in *.
  assert (Hd' : 0 < d') by (unfold d'; lia).
  destruct (Z.lt_trichotomy d' d) as [H | [H | H]]; [exfalso | exact H | exfalso].
  - assert (2 ^ d' <= 2 ^ (d - 1)) by (apply pow2_le; lia). lia.
  - assert (2 ^ d <= 2 ^ (d' - 1)) by (apply pow2_le; lia). lia.
Qed.

Lemma digits_shift (p : positive) (n : Z) :
  0 <= n ->
  forall q : positive, Z.pos q = Z.pos p * 2 ^ n ->
  Z.pos (digits2_pos q) = Z.pos (digits2_pos p) + n.
Proof.
  intros Hn q Hq.
  destruct (digits_bounds p) as [Blo Bhi].
  apply digits_unique; [lia|].
  rewrite Hq.
  replace (Z.pos (digits2_pos p) + n - 1) with (Z.pos (digits2_pos p) - 1 + n) by lia.
  rewrite !Z.pow_add_r by lia.
  pose proof (pow2_pos n Hn). nia.
Qed.

Lemma iter_xO (d : positive) (m : positive) :
  Z.pos (Pos.iter xO m d) = Z.pos m * 2 ^ Z.pos d.
Proof.
  revert m; induction d as [d IH | d IH |]; intros m; cbn [Pos.iter].
  - rewrite Pos2Z.inj_xO, !IH.
    replace (Z.pos d~1) with (Z.pos d + Z.pos d + 1) by lia.
    rewrite !Z.pow_add_r by lia. lia.
  - rewrite !IH.
    replace (Z.pos d~0) with (Z.pos d + Z.pos d) by lia.
    rewrite !Z.pow_add_r by lia. lia.
  - simpl; lia.
Qed.

Lemma shl_align_spec (m : positive) (e e' : Z) :
  e' <= e ->
  Z.pos (fst (shl_align m e e')) = Z.pos m * 2 ^ (e - e')
  /\ snd (shl_align m e e') = e'.
Proof.
  intros H; unfold shl_align.
  destruct (e' - e) as [|d|d] eqn:E; [| lia |].
  - assert (e' = e) by lia; subst e'.
    simpl; rewrite Z.sub_diag; simpl; split; [lia | reflexivity].
  - simpl; rewrite iter_xO.
    replace (e - e') with (Z.pos d) by lia; split; reflexivity.
Qed.

Lemma fexp_def (z : Z) : fexp Flt.prec Flt.emax z = Z.max (z - 53) (-1074).
Proof. reflexivity. Qed.

Lemma bounded_canon (m : positive) (e : Z) :
  bounded Flt.prec Flt.emax m e = true <->
  canon (Z.pos m) (e + 1074) /\ e <= 971.
Proof.
  unfold bounded, canonical_mantissa, canon; rewrite fexp_def.
  destruct (digits_bounds m) as [Blo Bhi].
  set (d := Z.pos (digits2_pos m)) in *.
  assert (Hd : 0 < d) by (unfold d; lia).
  split.
  - intros H; apply andb_true_iff in H as [H1 H2].
    apply Z.eqb_eq in H1; apply Z.leb_le in H2.
    change (Flt.emax - Flt.prec) with 971 in H2.
    assert (Hd53 : d <= 53) by lia.
    assert (2 ^ d <= 2 ^ 53) by (apply pow2_le; lia).
    split; [|exact H2].
    split; [lia|]. split; [lia|].
    destruct (Z.eq_dec (e + 1074) 0) as [E | E]; [left; exact E | right].
    assert (d = 53) by lia; subst d.
    replace (53 - 1) with 52 in Blo by lia. rewrite H0 in Blo. exact Blo.
  - intros [[Hm [Hk Hc]] He].
    apply andb_true_iff; split; [apply Z.eqb_eq | apply Z.leb_le; exact He].
    assert (Hd53 : d <= 53).
    { destruct (Z.le_gt_cases d 53) as [L | G]; [exact L | exfalso].
      assert (2 ^ 53 <= 2 ^ (d - 1)) by (apply pow2_le; lia). lia. }
    destruct Hc as [Hc | Hc]; [lia|].
    assert (d = 53); [|lia].
    destruct (Z.le_gt_cases 53 d) as [L | G]; [lia | exfalso].
    assert (2 ^ d <= 2 ^ 52) by (apply pow2_le; lia). lia.
Qed.

(** ** The grid of the binary64 numbers *)

Lemma canon_below (mv kv kG : Z) :
  canon mv kv -> kv < kG -> mv * 2 ^ kv < 2 ^ 52 * 2 ^ kG.
Proof.
  intros [[Hm0 Hm] [Hk _]] Hlt.
  assert (H1 : mv * 2 ^ kv < 2 ^ 53 * 2 ^ kv).
  { pose proof (pow2_pos kv Hk). nia. }
  assert (H2 : 2 ^ 53 * 2 ^ kv <= 2 ^ 52 * 2 ^ kG).
  { rewrite <- !Z.pow_add_r by lia. apply pow2_le; lia. }
  lia.
Qed.

Lemma canon_multiple (mv kv kG : Z) :
  canon mv kv -> 0 <= kG <= kv ->
  mv * 2 ^ kv = (mv * 2 ^ (kv - kG)) * 2 ^ kG.
Proof.
  intros _ H. rewrite (pow2_split kG kv) by lia. ring.
Qed.

(** Below and above a number [q G + R] between two neighbours of the
    grid of step [G]. *)
Lemma grid_floor (kG q R mv kv : Z) :
  0 <= kG -> 0 < q -> (kG = 0 \/ 2 ^ 52 <= q) -> 0 <= R < 2 ^ kG ->
  canon mv kv ->
  mv * 2 ^ kv <= q * 2 ^ kG + R -> mv * 2 ^ kv <= q * 2 ^ kG.
Proof.
  intros HkG Hq Hc HR Hv Hle.
  pose proof (pow2_pos kG HkG) as HG.
  destruct (Z.le_gt_cases kG kv) as [L | L].
  - rewrite (canon_multiple mv kv kG Hv) in * by lia.
    set (j := mv * 2 ^ (kv - kG)) in *. set (G := 2 ^ kG) in *.
    assert (j < q + 1) by (apply (Z.mul_lt_mono_pos_r G); lia).
    apply Z.mul_le_mono_nonneg_r; lia.
  - pose proof (canon_below mv kv kG Hv L).
    destruct Hc as [-> | Hc]; [destruct Hv as (_ & ? & _); lia|].
    set (G := 2 ^ kG) in *.
    assert (2 ^ 52 * G <= q * G) by (apply Z.mul_le_mono_nonneg_r; lia). lia.
Qed.

Lemma grid_ceil (kG q R mv kv : Z) :
  0 <= kG -> 0 < q -> (kG = 0 \/ 2 ^ 52 <= q) -> 0 < R < 2 ^ kG ->
  canon mv kv ->
  q * 2 ^ kG + R <= mv * 2 ^ kv -> (q + 1) * 2 ^ kG <= mv * 2 ^ kv.
Proof.
  intros HkG Hq Hc HR Hv Hle.
  pose proof (pow2_pos kG HkG) as HG.
  destruct (Z.le_gt_cases kG kv) as [L | L].
  - rewrite (canon_multiple mv kv kG Hv) in * by lia.
    set (j := mv * 2 ^ (kv - kG)) in *. set (G := 2 ^ kG) in *.
    assert (q < j) by (apply (Z.mul_lt_mono_pos_r G); lia).
    apply Z.mul_le_mono_nonneg_r; lia.
  - pose proof (canon_below mv kv kG Hv L).
    destruct Hc as [-> | Hc]; [destruct Hv as (_ & ? & _); lia|].
    set (G := 2 ^ kG) in *.
    assert (2 ^ 52 * G <= q * G) by (apply Z.mul_le_mono_nonneg_r; lia). lia.
Qed.

Lemma canon_lt_exp (m1 k1 m2 k2 : Z) :
  canon m1 k1 -> canon m2 k2 -> k1 < k2 -> m1 * 2 ^ k1 < m2 * 2 ^ k2.
Proof.
  intros H1 H2 Hlt.
  pose proof (canon_below m1 k1 k2 H1 Hlt).
  destruct H2 as (Hm & Hk & [E | Hc]); [destruct H1 as (_ & ? & _); lia|].
  pose proof (pow2_pos k2 Hk). nia.
Qed.

Lemma canon_unique (m1 k1 m2 k2 : Z) :
  canon m1 k1 -> canon m2 k2 -> m1 * 2 ^ k1 = m2 * 2 ^ k2 ->
  m1 = m2 /\ k1 = k2.
Proof.
  intros H1 H2 E.
  destruct (Z.lt_trichotomy k1 k2) as [L | [L | L]].
  - pose proof (canon_lt_exp _ _ _ _ H1 H2 L); lia.
  - subst k2; split; [|reflexivity].
    destruct H1 as (_ & Hk & _). pose proof (pow2_pos k1 Hk). nia.
  - pose proof (canon_lt_exp _ _ _ _ H2 H1 L); lia.
Qed.

(** ** Shifting right and rounding *)

Lemma shr_1_spec (r : shr_record) :
  0 <= shr_m r ->
  shr_m (shr_1 r) = shr_m r / 2
  /\ shr_r (shr_1 r) = Z.odd (shr_m r)
  /\ shr_s (shr_1 r) = shr_r r || shr_s r.
Proof.
  destruct r as [m r s]; cbn [shr_m shr_r shr_s]; intros H.
  rewrite <- Z.div2_div.
  destruct m as [|[p | p |]|p]; try lia; simpl; repeat split; reflexivity.
Qed.

Lemma iter_pos_inv {A : Type} (f : A -> A) (P : Z -> A -> Prop) :
  (forall k x, P k x -> P (k + 1) (f x)) ->
  forall (p : positive) (k : Z) (x : A), P k x -> P (k + Z.pos p) (iter_pos f p x).
Proof.
  intros Hstep; induction p as [p IH | p IH |]; intros k x H; cbn [iter_pos].
  - replace (k + Z.pos p~1) with (k + 1 + Z.pos p + Z.pos p) by lia.
    apply IH, IH, Hstep, H.
  - replace (k + Z.pos p~0) with (k + Z.pos p + Z.pos p) by lia.
    apply IH, IH, H.
  - apply Hstep, H.
Qed.

Lemma shr_iter_spec (m0 : Z) (p : positive) :
  0 <= m0 ->
  let r := iter_pos shr_1 p (Build_shr_record m0 false false) in
  shr_m r = m0 / 2 ^ Z.pos p
  /\ (m0 mod 2 ^ Z.pos p = 0 -> shr_r r = false /\ shr_s r = false).
Proof.
  intros Hm0.
  pose (P := fun (k : Z) (r : shr_record) =>
               0 <= k /\ shr_m r = m0 / 2 ^ k
               /\ (m0 mod 2 ^ k = 0 -> shr_r r = false /\ shr_s r = false)).
  assert (Hstep : forall k x, P k x -> P (k + 1) (shr_1 x)).
  { intros k x (Hk & Hm & Hrs).
    pose proof (pow2_pos k Hk) as Hp.
    assert (Hx : 0 <= shr_m x) by (rewrite Hm; apply Z.div_pos; lia).
    destruct (shr_1_spec x Hx) as (A & B & C).
    split; [lia|]. split.
    - rewrite A, Hm, Z.pow_add_r, Z.pow_1_r by lia.
      rewrite Z.div_div by lia. reflexivity.
    - intros Hmod.
      rewrite Z.pow_add_r, Z.pow_1_r in Hmod by lia.
      assert (Hdiv : m0 = 2 ^ k * 2 * (m0 / (2 ^ k * 2))).
      { pose proof (Z.div_mod m0 (2 ^ k * 2)). lia. }
      set (j := m0 / (2 ^ k * 2)) in *.
      assert (Hmodk : m0 mod 2 ^ k = 0).
      { rewrite Hdiv. replace (2 ^ k * 2 * j) with ((2 * j) * 2 ^ k) by ring.
        apply Z.mod_mul; lia. }
      destruct (Hrs Hmodk) as [Hr Hs].
      rewrite B, C, Hr, Hs, Hm; split; [|reflexivity].
      rewrite Hdiv. replace (2 ^ k * 2 * j) with ((2 * j) * 2 ^ k) by ring.
      rewrite Z.div_mul by lia.
      rewrite Z.odd_mul; reflexivity. }
  assert (H0 : P 0 (Build_shr_record m0 false false)).
  { split; [lia|]. split; [simpl; rewrite Z.div_1_r; reflexivity|].
    intros _; split; reflexivity. }
  pose proof (iter_pos_inv shr_1 P Hstep p 0 _ H0) as (_ & A & B).
  exact (conj A B).
Qed.

Lemma rne_bounds (mx : Z) (l : location) :
  mx <= round_nearest_even mx l <= mx + 1.
Proof.
  destruct l as [|[]]; simpl; try lia. destruct (Z.even mx); lia.
Qed.

Lemma loc_exact (r : shr_record) :
  shr_r r = false -> shr_s r = false -> loc_of_shr_record r = loc_Exact.
Proof. destruct r as [m [] []]; simpl; intros; try discriminate; reflexivity. Qed.

(** ** What [binary_round] returns *)

Lemma Zdigits2_pos (p : positive) :
  Zdigits2 (Z.pos p) = Z.pos (digits2_pos p).
Proof. reflexivity. Qed.

Lemma shr_fexp_no_shift (mz : positive) (g : Z) :
  fexp Flt.prec Flt.emax (Z.pos (digits2_pos mz) + g) <= g ->
  shr_fexp Flt.prec Flt.emax (Z.pos mz) g loc_Exact
  = (Build_shr_record (Z.pos mz) false false, g).
Proof.
  intros H; unfold shr_fexp; rewrite Zdigits2_pos.
  cbn [shr_record_of_loc]; unfold shr.
  destruct (fexp Flt.prec Flt.emax (Z.pos (digits2_pos mz) + g) - g) eqn:E;
    try reflexivity; lia.
Qed.

Lemma binary_round_aux_no_shift (s : bool) (mz : positive) (g : Z) :
  fexp Flt.prec Flt.emax (Z.pos (digits2_pos mz) + g) <= g ->
  binary_round_aux Flt.prec Flt.emax s (Z.pos mz) g loc_Exact
  = if g <=? 971 then S754_finite s mz g else S754_infinity s.
Proof.
  intros H; unfold binary_round_aux.
  rewrite (shr_fexp_no_shift mz g H).
  cbn [shr_m loc_of_shr_record round_nearest_even].
  rewrite (shr_fexp_no_shift mz g H).
  reflexivity.
Qed.

Lemma rounded_finite (s : bool) (mz : positive) (g : Z) :
  (if g <=? 971 then S754_finite s mz g else S754_infinity s)
  = rounded s (Z.pos mz) (g + 1074).
Proof.
  unfold rounded.
  replace (g + 1074 - 1074) with g by lia.
  destruct (Z.leb_spec g 971), (Z.leb_spec (g + 1074) 2045);
    try reflexivity; lia.
Qed.

Lemma binary_round_spec (s : bool) (m : positive) (e : Z) :
  -1074 <= e ->
  exists m' k',
    canon m' k'
    /\ binary_round Flt.prec Flt.emax s m e = rounded s m' k'
    /\ (forall mv kv, canon mv kv ->
          mv * 2 ^ kv <= Z.pos m * 2 ^ (e + 1074) ->
          mv * 2 ^ kv <= m' * 2 ^ k')
    /\ (forall mv kv, canon mv kv ->
          Z.pos m * 2 ^ (e + 1074) <= mv * 2 ^ kv ->
          m' * 2 ^ k' <= mv * 2 ^ kv).
Proof.
  intros He; unfold binary_round.
  destruct (digits_bounds m) as [Blo Bhi].
  set (d := Z.pos (digits2_pos m)) in *.
  assert (Hd : 0 < d) by (unfold d; lia).
  rewrite fexp_def.
  set (g := Z.max (d + e - 53) (-1074)).
  destruct (Z.le_gt_cases g e) as [Hge | Hge].
  - (* the mantissa is shifted left or kept: the result is exact *)
    destruct (shl_align_spec m e g Hge) as [Hmz Hez].
    destruct (shl_align m e g) as [mz ez]; cbn [fst snd] in Hmz, Hez; subst ez.
    assert (Hdz : Z.pos (digits2_pos mz) = d + (e - g))
      by (apply (digits_shift m (e - g)); [lia | exact Hmz]).
    assert (Hf : fexp Flt.prec Flt.emax (Z.pos (digits2_pos mz) + g) <= g).
    { rewrite Hdz, fexp_def. replace (d + (e - g) + g) with (d + e) by lia.
      fold g; lia. }
    rewrite (binary_round_aux_no_shift s mz g Hf), rounded_finite.
    assert (HX : Z.pos mz * 2 ^ (g + 1074) = Z.pos m * 2 ^ (e + 1074)).
    { rewrite Hmz, <- Z.mul_assoc, <- Z.pow_add_r by lia.
      do 2 f_equal; lia. }
    exists (Z.pos mz), (g + 1074).
    split; [|split; [reflexivity | split; intros mv kv _ H; rewrite HX; exact H]].
    pose proof (digits_bounds mz) as [Zlo Zhi]; rewrite Hdz in Zlo, Zhi.
    split; [|split; [lia|]].
    + split; [lia|].
      assert (2 ^ (d + (e - g)) <= 2 ^ 53) by (apply pow2_le; lia). lia.
    + destruct (Z.eq_dec g (-1074)) as [E | E]; [left; lia | right].
      assert (d + (e - g) = 53) by lia.
      replace (d + (e - g) - 1) with 52 in Zlo by lia. exact Zlo.
  - (* the mantissa is shifted right by [d - 53] and rounded *)
    assert (Hg : g = d + e - 53) by lia.
    assert (Hn : g - e = d - 53) by lia.
    assert (Hsh : shl_align m e g = (m, e)).
    { unfold shl_align. destruct (g - e) eqn:E; try reflexivity; lia. }
    rewrite Hsh; unfold binary_round_aux.
    (* the first shift *)
    unfold shr_fexp at 1; rewrite Zdigits2_pos, fexp_def; fold d; fold g.
    cbn [shr_record_of_loc]; unfold shr at 1.
    destruct (g - e) as [|p|p] eqn:En; try lia.
    destruct (shr_iter_spec (Z.pos m) p ltac:(lia)) as [Hq Hex].
    set (r1 := iter_pos shr_1 p (Build_shr_record (Z.pos m) false false)) in *.
    set (n := Z.pos p) in *.
    assert (Hn0 : 0 < n) by (unfold n; lia).
    pose proof (pow2_pos n ltac:(lia)) as Hpn.
    set (q := Z.pos m / 2 ^ n) in *.
    pose proof (Z.div_mod (Z.pos m) (2 ^ n) ltac:(lia)) as Hdm.
    pose proof (Z.mod_pos_bound (Z.pos m) (2 ^ n) Hpn) as Hrem.
    fold q in Hdm. set (rem := Z.pos m mod 2 ^ n) in *.
    assert (Hq52 : 2 ^ 52 <= q < 2 ^ 53).
    { assert (E1 : 2 ^ (d - 1) = 2 ^ 52 * 2 ^ n)
        by (rewrite <- Z.pow_add_r by lia; f_equal; lia).
      assert (E2 : 2 ^ d = 2 ^ 53 * 2 ^ n)
        by (rewrite <- Z.pow_add_r by lia; f_equal; lia).
      rewrite E1 in Blo; rewrite E2 in Bhi. split.
      - apply Z.lt_succ_r. apply (Z.mul_lt_mono_pos_r (2 ^ n)); [lia|]. nia.
      - apply (Z.mul_lt_mono_pos_r (2 ^ n)); [lia|]. nia. }
    pose proof (rne_bounds (shr_m r1) (loc_of_shr_record r1)) as Hr.
    rewrite Hq in Hr |- *.
    set (mr := round_nearest_even q (loc_of_shr_record r1)) in *.
    assert (Hexact : rem = 0 -> mr = q).
    { intros E; destruct (Hex E) as [A B].
      unfold mr; rewrite (loc_exact r1 A B); reflexivity. }
    replace (e + n) with g by lia.
    (* the value of the result, and the two neighbours *)
    set (K := e + 1074).
    assert (HK : 0 <= K) by (unfold K; lia).
    pose proof (pow2_pos K HK) as HpK.
    assert (HX : Z.pos m * 2 ^ K = q * 2 ^ (g + 1074) + rem * 2 ^ K).
    { replace (g + 1074) with (n + K) by (unfold K; lia).
      rewrite Z.pow_add_r by lia. rewrite Hdm at 1. ring. }
    assert (HR : 0 <= rem * 2 ^ K < 2 ^ (g + 1074)).
    { replace (g + 1074) with (n + K) by (unfold K; lia).
      rewrite Z.pow_add_r by lia. nia. }
    assert (Hlow : forall mv kv, canon mv kv ->
              mv * 2 ^ kv <= Z.pos m * 2 ^ K -> mv * 2 ^ kv <= mr * 2 ^ (g + 1074)).
    { intros mv kv Hv H. rewrite HX in H.
      pose proof (grid_floor (g + 1074) q (rem * 2 ^ K) mv kv
                    ltac:(lia) ltac:(lia) ltac:(right; lia) HR Hv H).
      pose proof (pow2_pos (g + 1074) ltac:(lia)). nia. }
    assert (Hupp : forall mv kv, canon mv kv ->
              Z.pos m * 2 ^ K <= mv * 2 ^ kv -> mr * 2 ^ (g + 1074) <= mv * 2 ^ kv).
    { intros mv kv Hv H. rewrite HX in H.
      destruct (Z.eq_dec rem 0) as [E | E].
      - rewrite (Hexact E). rewrite E in H. lia.
      - assert (HR' : 0 < rem * 2 ^ K < 2 ^ (g + 1074)) by nia.
        pose proof (grid_ceil (g + 1074) q (rem * 2 ^ K) mv kv
                      ltac:(lia) ltac:(lia) ltac:(right; lia) HR' Hv H).
        pose proof (pow2_pos (g + 1074) ltac:(lia)). nia. }
    (* the second shift: none, or one place after a carry *)
    destruct mr as [|pm|pm] eqn:Emr; try lia.
    destruct (Z.eq_dec (Z.pos pm) (2 ^ 53)) as [Ecarry | Ecarry].
    + (* the mantissa became 2^53 *)
      assert (Hpm : pm = Pos.iter xO 1%positive 53%positive)
        by (apply Pos2Z.inj; rewrite Ecarry; reflexivity).
      subst pm.
      assert (E2 : shr_fexp Flt.prec Flt.emax
                     (Z.pos (Pos.iter xO 1%positive 53%positive)) g loc_Exact
                   = (Build_shr_record (2 ^ 52) false false, g + 1)).
      { unfold shr_fexp; rewrite Zdigits2_pos, fexp_def.
        replace (Z.pos (digits2_pos (Pos.iter xO 1%positive 53%positive))) with 54
          by reflexivity.
        replace (Z.max (54 + g - 53) (-1074) - g) with 1 by lia.
        reflexivity. }
      rewrite E2; cbn [shr_m].
      change (2 ^ 52) with (Z.pos (Pos.iter xO 1%positive 52%positive)).
      cbv iota beta.
      change (Flt.emax - Flt.prec) with 971.
      rewrite (rounded_finite s (Pos.iter xO 1%positive 52%positive) (g + 1)).
      exists (2 ^ 52), (g + 1 + 1074).
      split; [|split; [reflexivity|]].
      * split; [split; [reflexivity | reflexivity]|]. split; [lia | right; lia].
      * assert (EU : 2 ^ 52 * 2 ^ (g + 1 + 1074) = 2 ^ 53 * 2 ^ (g + 1074)).
        { rewrite <- !Z.pow_add_r by lia. f_equal; lia. }
        rewrite EU, <- Ecarry. split; assumption.
    + assert (Hpm53 : Z.pos pm < 2 ^ 53) by lia.
      assert (Hdpm : Z.pos (digits2_pos pm) = 53)
        by (apply digits_unique; [lia | split; [simpl (53 - 1); lia | lia]]).
      assert (Hf : fexp Flt.prec Flt.emax (Z.pos (digits2_pos pm) + g) <= g)
        by (rewrite Hdpm, fexp_def; lia).
      rewrite (shr_fexp_no_shift pm g Hf); cbn [shr_m].
      change (Flt.emax - Flt.prec) with 971.
      rewrite (rounded_finite s pm g).
      exists (Z.pos pm), (g + 1074).
      split; [|split; [reflexivity | split; assumption]].
      split; [lia|]. split; [lia | right; lia].
Qed.

(** ** Sums and differences of binary64 numbers *)

Lemma fin_cases (x : Flt.float) :
  fin x ->
  (exists s, x = S754_zero s)
  \/ (exists s m e, x = S754_finite s m e
                    /\ canon (Z.pos m) (e + 1074) /\ e <= 971).
Proof.
  intros [Hf Hb]; destruct x as [s | s | | s m e]; try discriminate.
  - left; exists s; reflexivity.
  - right; exists s, m, e; split; [reflexivity|].
    apply bounded_canon; exact Hb.
Qed.

Lemma fin_zero (s : bool) : fin (S754_zero s).
Proof. split; reflexivity. Qed.

Lemma fin_finite (s : bool) (m : positive) (e : Z) :
  canon (Z.pos m) (e + 1074) -> e <= 971 -> fin (S754_finite s m e).
Proof.
  intros Hc He; split; [reflexivity|].
  apply bounded_canon; split; assumption.
Qed.

Lemma fin_neg (x : Flt.float) : fin x -> fin (Flt.neg x).
Proof. intros [Hf Hb]; destruct x; try discriminate; split; assumption. Qed.

Lemma units_neg (x : Flt.float) : units (Flt.neg x) = - units x.
Proof.
  unfold Flt.neg; destruct x as [s | s | | s m e]; cbn [SFopp units]; try lia.
  destruct s; cbn [negb]; lia.
Qed.

(** The magnitude of a finite number that is not a zero. *)
Lemma units_finite (s : bool) (m : positive) (e : Z) :
  units (S754_finite s m e)
  = (if s then -1 else 1) * (Z.pos m * 2 ^ (e + 1074)).
Proof. reflexivity. Qed.

Lemma canon_pos (m k : Z) : canon m k -> 0 < m * 2 ^ k.
Proof. intros ((H & _) & Hk & _). pose proof (pow2_pos k Hk). nia. Qed.

Lemma rounded_fin (s : bool) (m' k' : Z) :
  canon m' k' -> k' <= 2045 ->
  fin (rounded s m' k')
  /\ units (rounded s m' k') = (if s then -1 else 1) * (m' * 2 ^ k').
Proof.
  intros Hc Hk; unfold rounded.
  destruct (Z.leb_spec k' 2045); [|lia].
  assert (Hm : Z.pos (Z.to_pos m') = m')
    by (apply Z2Pos.id; destruct Hc as ((? & _) & _); lia).
  split.
  - apply fin_finite; [|lia].
    rewrite Hm; replace (k' - 1074 + 1074) with k' by lia; exact Hc.
  - rewrite units_finite, Hm. replace (k' - 1074 + 1074) with k' by lia.
    reflexivity.
Qed.

Lemma rounded_inf (s : bool) (m' k' : Z) :
  2045 < k' -> rounded s m' k' = S754_infinity s.
Proof. intros H; unfold rounded. destruct (Z.leb_spec k' 2045); [lia | reflexivity]. Qed.

(** A finite number is below what lies beyond the range. *)
Lemma fin_below (v : Flt.float) (m' k' : Z) :
  fin v -> canon m' k' -> 2045 < k' -> units v < m' * 2 ^ k'.
Proof.
  intros Hv Hc Hk. pose proof (canon_pos _ _ Hc).
  destruct (fin_cases v Hv) as [[s ->] | (s & m & e & -> & Hcv & He)];
    [simpl; lia|].
  rewrite units_finite.
  pose proof (canon_lt_exp _ _ _ _ Hcv Hc ltac:(lia)).
  pose proof (canon_pos _ _ Hcv).
  destruct s; lia.
Qed.

(** Rounding a positive number of units. *)
Lemma binary_round_rounds (s : bool) (m : positive) (e : Z) :
  -1074 <= e ->
  rounds ((if s then -1 else 1) * (Z.pos m * 2 ^ (e + 1074)))
         (binary_round Flt.prec Flt.emax s m e).
Proof.
  intros He.
  destruct (binary_round_spec s m e He) as (m' & k' & Hc & -> & Hlo & Hup).
  set (X := Z.pos m * 2 ^ (e + 1074)) in *.
  assert (HX : 0 < X).
  { unfold X. pose proof (pow2_pos (e + 1074) ltac:(lia)). nia. }
  pose proof (canon_pos _ _ Hc) as HU.
  destruct (Z.le_gt_cases k' 2045) as [Hk | Hk].
  - left. destruct (rounded_fin s m' k' Hc Hk) as [Hfin Hun].
    split; [exact Hfin|]; rewrite Hun.
    split; intros v Hv H;
      destruct (fin_cases v Hv) as [[sv ->] | (sv & mv & ev & -> & Hcv & Hev)];
      try (simpl units in *; destruct s; lia);
      rewrite units_finite in *;
      pose proof (canon_pos _ _ Hcv);
      pose proof (Hlo _ _ Hcv); pose proof (Hup _ _ Hcv);
      destruct s, sv; lia.
  - right. rewrite (rounded_inf s m' k' Hk).
    destruct s; [right | left]; (split; [reflexivity|]); intros v Hv.
    + (* negative: every finite number is above *)
      pose proof (fin_below (Flt.neg v) m' k' (fin_neg v Hv) Hc Hk) as Hb.
      rewrite units_neg in Hb.
      destruct (Z.lt_ge_cases (-1 * X) (units v)) as [L | L]; [exact L | exfalso].
      destruct (fin_cases v Hv) as [[sv ->] | (sv & mv & ev & -> & Hcv & Hev)];
        [cbn [units] in L; lia|].
      rewrite units_finite in *. pose proof (canon_pos _ _ Hcv).
      pose proof (Hup _ _ Hcv). destruct sv; lia.
    + pose proof (fin_below v m' k' Hv Hc Hk) as Hb.
      destruct (Z.lt_ge_cases (units v) (1 * X)) as [L | L]; [exact L | exfalso].
      destruct (fin_cases v Hv) as [[sv ->] | (sv & mv & ev & -> & Hcv & Hev)];
        [cbn [units] in L; lia|].
      rewrite units_finite in *. pose proof (canon_pos _ _ Hcv).
      pose proof (Hup _ _ Hcv). destruct sv; lia.
Qed.

Lemma rounds_zero (s : bool) : rounds 0 (S754_zero s).
Proof.
  left; split; [apply fin_zero|]; split; intros v _ H; exact H.
Qed.

(** A finite number rounds to itself. *)
Lemma rounds_self (x : Flt.float) : fin x -> rounds (units x) x.
Proof.
  intros H; left; split; [exact H|]; split; intros v _ Hv; exact Hv.
Qed.

Lemma normalize_rounds (M e : Z) :
  -1074 <= e ->
  rounds (M * 2 ^ (e + 1074)) (binary_normalize Flt.prec Flt.emax M e false).
Proof.
  intros He; destruct M as [|p|p]; cbn [binary_normalize].
  - rewrite Z.mul_0_l; apply rounds_zero.
  - pose proof (binary_round_rounds false p e He) as H.
    cbv iota in H. rewrite Z.mul_1_l in H. exact H.
  - pose proof (binary_round_rounds true p e He) as H.
    cbv iota in H.
    replace (Z.neg p * 2 ^ (e + 1074)) with (-1 * (Z.pos p * 2 ^ (e + 1074)))
      by (change (Z.neg p) with (- Z.pos p); rewrite Z.mul_opp_l; lia).
    exact H.
Qed.

Lemma cond_Zopp_mul (s : bool) (z : Z) :
  cond_Zopp s z = (if s then -1 else 1) * z.
Proof. destruct s; unfold cond_Zopp; lia. Qed.

Lemma aligned_units (s : bool) (m : positive) (e ez : Z) :
  -1074 <= ez <= e ->
  cond_Zopp s (Z.pos (fst (shl_align m e ez))) * 2 ^ (ez + 1074)
  = units (S754_finite s m e).
Proof.
  intros H. destruct (shl_align_spec m e ez ltac:(lia)) as [-> _].
  rewrite cond_Zopp_mul, units_finite.
  replace (e + 1074) with ((e - ez) + (ez + 1074)) by lia.
  rewrite (Z.pow_add_r 2 (e - ez) (ez + 1074)) by lia. ring.
Qed.

Lemma add_rounds (a b : Flt.float) :
  fin a -> fin b -> rounds (units a + units b) (Flt.add a b).
Proof.
  intros Ha Hb.
  destruct (fin_cases a Ha) as [[sa ->] | (sa & ma & ea & -> & Hca & Hea)];
    destruct (fin_cases b Hb) as [[sb ->] | (sb & mb & eb & -> & Hcb & Heb)].
  - cbn [units]; rewrite Z.add_0_l.
    unfold Flt.add; cbn [SFadd]. destruct sa, sb; apply rounds_zero.
  - cbn [units]; rewrite Z.add_0_l. apply (rounds_self _ Hb).
  - cbn [units]; rewrite Z.add_0_r. apply (rounds_self _ Ha).
  - unfold Flt.add; cbn [SFadd].
    assert (Hez : -1074 <= Z.min ea eb)
      by (destruct Hca as (_ & ? & _), Hcb as (_ & ? & _); lia).
    pose proof (normalize_rounds
                  (cond_Zopp sa (Z.pos (fst (shl_align ma ea (Z.min ea eb))))
                   + cond_Zopp sb (Z.pos (fst (shl_align mb eb (Z.min ea eb)))))
                  (Z.min ea eb) Hez) as H.
    rewrite Z.mul_add_distr_r, !aligned_units in H by lia.
    exact H.
Qed.

Lemma sub_rounds (a b : Flt.float) :
  fin a -> fin b -> rounds (units a - units b) (Flt.sub a b).
Proof.
  intros Ha Hb.
  destruct (fin_cases a Ha) as [[sa ->] | (sa & ma & ea & -> & Hca & Hea)];
    destruct (fin_cases b Hb) as [[sb ->] | (sb & mb & eb & -> & Hcb & Heb)].
  - cbn [units]; rewrite Z.sub_0_r.
    unfold Flt.sub; cbn [SFsub]. destruct sa, sb; apply rounds_zero.
  - unfold Flt.sub; cbn [SFsub].
    replace (units (S754_zero sa) - units (S754_finite sb mb eb))
      with (units (S754_finite (negb sb) mb eb))
      by (cbn [units]; destruct sb; cbn [negb]; lia).
    apply rounds_self, fin_finite; assumption.
  - cbn [units]; rewrite Z.sub_0_r. apply (rounds_self _ Ha).
  - unfold Flt.sub; cbn [SFsub].
    assert (Hez : -1074 <= Z.min ea eb)
      by (destruct Hca as (_ & ? & _), Hcb as (_ & ? & _); lia).
    pose proof (normalize_rounds
                  (cond_Zopp sa (Z.pos (fst (shl_align ma ea (Z.min ea eb))))
                   - cond_Zopp sb (Z.pos (fst (shl_align mb eb (Z.min ea eb)))))
                  (Z.min ea eb) Hez) as H.
    rewrite Z.mul_sub_distr_r, !aligned_units in H by lia.
    exact H.
Qed.

(** When the number of units is that of a binary64 number, rounding
    returns this number. *)
Lemma rounds_exact (S : Z) (r w : Flt.float) :
  rounds S r -> fin w -> units w = S -> fin r /\ units r = S.
Proof.
  intros [(Hr & Hlo & Hup) | [(_ & H) | (_ & H)]] Hw E.
  - split; [exact Hr|].
    pose proof (Hlo w Hw ltac:(lia)). pose proof (Hup w Hw ltac:(lia)). lia.
  - pose proof (H w Hw); lia.
  - pose proof (H w Hw); lia.
Qed.

(** A multiple of a power of two with less than 53 bits is a binary64
    number. *)
Lemma representable_nat (n : nat) :
  forall j : Z, 0 < j < 2 ^ 53 ->
  exists m' k', canon m' k' /\ m' * 2 ^ k' = j * 2 ^ Z.of_nat n
                /\ k' <= Z.of_nat n.
Proof.
  induction n as [|n IH]; intros j Hj.
  - exists j, 0. split; [|split; [reflexivity | lia]].
    split; [exact Hj|]. split; [lia | left; reflexivity].
  - destruct (Z.le_gt_cases (2 ^ 52) j) as [L | L].
    + exists j, (Z.of_nat (S n)). split; [|split; [reflexivity | lia]].
      split; [exact Hj|]. split; [lia | right; exact L].
    + destruct (IH (2 * j) ltac:(change (2 ^ 53) with (2 * 2 ^ 52); lia))
        as (m' & k' & Hc & E & Hk).
      exists m', k'. split; [exact Hc|]. split; [|lia].
      rewrite E, Nat2Z.inj_succ, Z.pow_succ_r by lia. ring.
Qed.

Lemma representable (s : bool) (j k : Z) :
  0 < j < 2 ^ 53 -> 0 <= k <= 2045 ->
  exists w, fin w /\ units w = (if s then -1 else 1) * (j * 2 ^ k).
Proof.
  intros Hj Hk.
  destruct (representable_nat (Z.to_nat k) j Hj) as (m' & k' & Hc & E & Hk').
  rewrite Z2Nat.id in E, Hk' by lia.
  destruct (rounded_fin s m' k' Hc ltac:(lia)) as [Hf Hu].
  exists (rounded s m' k'); split; [exact Hf|]. rewrite Hu, E; reflexivity.
Qed.

(** ** Comparing binary64 numbers that are not negative *)

Lemma leb_units (a b : Flt.float) :
  fin a -> fin b -> has_sign false a -> has_sign false b ->
  Flt.leb a b = (units a <=? units b).
Proof.
  intros Ha Hb Sa Sb.
  destruct (fin_cases a Ha) as [[sa ->] | (sa & ma & ea & -> & Hca & Hea)];
    destruct (fin_cases b Hb) as [[sb ->] | (sb & mb & eb & -> & Hcb & Heb)];
    simpl in Sa, Sb; subst; unfold Flt.leb, SFleb; cbn [SFcompare units].
  - reflexivity.
  - pose proof (canon_pos _ _ Hcb). symmetry; apply Z.leb_le; lia.
  - pose proof (canon_pos _ _ Hca). symmetry; apply Z.leb_gt; lia.
  - rewrite !Z.mul_1_l.
    destruct (Z.compare_spec ea eb) as [E | L | L].
    + subst eb. pose proof (pow2_pos (ea + 1074) ltac:(destruct Hca as (_ & ? & _); lia)).
      rewrite Pos.compare_cont_spec; cbn [Pos.switch_Eq].
      destruct (Pos.compare_spec ma mb) as [E | L | L]; symmetry.
      * subst; apply Z.leb_le; lia.
      * apply Z.leb_le. assert (Z.pos ma < Z.pos mb) by lia. nia.
      * apply Z.leb_gt. assert (Z.pos mb < Z.pos ma) by lia. nia.
    + pose proof (canon_lt_exp _ _ _ _ Hca Hcb ltac:(lia)).
      symmetry; apply Z.leb_le; lia.
    + pose proof (canon_lt_exp _ _ _ _ Hcb Hca ltac:(lia)).
      symmetry; apply Z.leb_gt; lia.
Qed.

(** ** The compensated sum of amounts *)

Lemma units_nonneg (x : Flt.float) : has_sign false x -> 0 <= units x.
Proof.
  destruct x as [s | s | | s m e]; cbn [units has_sign]; try lia.
  intros ->. pose proof (Z.pow_nonneg 2 (e + 1074) ltac:(lia)). nia.
Qed.

Lemma abs_sign_false_id (x : Flt.float) : has_sign false x -> Flt.abs x = x.
Proof. destruct x; simpl; try tauto; intros ->; reflexivity. Qed.

Lemma finite_add_l (c e : Flt.float) :
  finite c = false -> finite (Flt.add c e) = false.
Proof.
  destruct c as [sc | sc | | sc mc ec]; try discriminate; intros _;
    destruct e as [se | se | | se me ee]; try reflexivity;
    destruct sc, se; reflexivity.
Qed.

Lemma finite_add_r (c e : Flt.float) :
  finite c = true -> finite e = false -> finite (Flt.add c e) = false.
Proof.
  destruct c as [sc | sc | | sc mc ec]; try discriminate; intros _;
    destruct e as [se | se | | se me ee]; try discriminate; reflexivity.
Qed.

Lemma rounds_finite (S : Z) (r : Flt.float) :
  rounds S r -> finite r = false \/ fin r.
Proof.
  intros [(H & _) | [(-> & _) | (-> & _)]];
    [right; exact H | left; reflexivity | left; reflexivity].
Qed.

(** The sum of two amounts that are finite: the positive infinity, or a
    finite number that is not negative and not below either of them. *)
Lemma add_amounts (a b : Flt.float) :
  fin a -> fin b -> has_sign false a -> has_sign false b ->
  Flt.add a b = S754_infinity false
  \/ (fin (Flt.add a b) /\ has_sign false (Flt.add a b)
      /\ rounds (units a + units b) (Flt.add a b)
      /\ units a <= units (Flt.add a b)
      /\ units b <= units (Flt.add a b)).
Proof.
  intros Ha Hb Sa Sb.
  pose proof (units_nonneg a Sa) as Na. pose proof (units_nonneg b Sb) as Nb.
  pose proof (add_rounds a b Ha Hb) as Hr.
  pose proof (add_sign_false a b Sa Sb) as Hs.
  destruct Hr as [(Hf & Hlo & Hup) | [(E & _) | (E & H)]].
  - right. split; [exact Hf|]. split; [exact Hs|].
    split; [left; split; [exact Hf | split; assumption]|].
    split; [apply (Hlo a Ha) | apply (Hlo b Hb)]; lia.
  - left; exact E.
  - rewrite E in Hs; discriminate Hs.
Qed.

(** The mantissa and exponent of a finite number that is positive. *)
Lemma positive_canon (x : Flt.float) :
  fin x -> 0 < units x ->
  exists m k, canon m k /\ k <= 2045 /\ units x = m * 2 ^ k.
Proof.
  intros Hx Hp.
  destruct (fin_cases x Hx) as [[s ->] | (s & m & e & -> & Hc & He)];
    [cbn [units] in Hp; lia|].
  rewrite units_finite in *. pose proof (canon_pos _ _ Hc).
  destruct s; [lia|].
  exists (Z.pos m), (e + 1074). split; [exact Hc|]. split; lia.
Qed.

(** When [t] is the rounded sum of [a] and a smaller [b], the
    difference of [a] and [t] is a binary64 number. *)
Lemma error_representable (a b t : Flt.float) :
  fin a -> fin b -> has_sign false a -> has_sign false b ->
  units b <= units a ->
  fin t -> rounds (units a + units b) t ->
  exists w, fin w /\ units w = units a - units t.
Proof.
  intros Ha Hb Sa Sb Hba Ht Hr.
  pose proof (units_nonneg a Sa) as Na. pose proof (units_nonneg b Sb) as Nb.
  destruct Hr as [(_ & Hlo & Hup) | [(E & _) | (E & _)]];
    [| rewrite E in Ht; destruct Ht; discriminate
     | rewrite E in Ht; destruct Ht; discriminate].
  pose proof (Hlo a Ha ltac:(lia)) as Hat.
  destruct (Z.eq_dec (units a) 0) as [Ea | Ea].
  { (* both are zero *)
    assert (units b = 0) by lia.
    pose proof (Hup (S754_zero false) (fin_zero false)
                  ltac:(cbn [units]; lia)) as H0.
    cbn [units] in H0.
    exists (S754_zero false); split; [apply fin_zero | cbn [units]; lia]. }
  destruct (positive_canon a Ha ltac:(lia)) as (ma & ka & Hca & Hka & Eua).
  destruct (positive_canon t Ht ltac:(lia)) as (mt & kt & Hct & Hkt & Eut).
  pose proof (pow2_pos ka ltac:(destruct Hca as (_ & ? & _); lia)) as Hpa.
  (* [t] is at most twice [a] *)
  assert (Ht2 : units t <= 2 * units a).
  { destruct (Z.eq_dec ka 2045) as [Ek | Ek].
    - subst ka. destruct Hca as (Hma & _ & [? | Hma52]); [lia|].
      destruct Hct as ((_ & Hmt) & Hkt0 & _).
      rewrite Eut, Eua.
      assert (2 ^ kt <= 2 ^ 2045) by (apply pow2_le; lia).
      pose proof (pow2_pos kt Hkt0).
      assert (mt * 2 ^ kt <= 2 ^ 53 * 2 ^ 2045) by nia.
      change (2 ^ 53) with (2 * 2 ^ 52) in H1. nia.
    - destruct Hca as (Hma & Hka0 & Hc).
      destruct (representable false ma (ka + 1) Hma ltac:(lia)) as (w & Hw & Euw).
      rewrite Z.pow_add_r, Z.pow_1_r in Euw by lia.
      pose proof (Hup w Hw ltac:(lia)). lia. }
  (* the exponent of [t] is not below that of [a] *)
  assert (Hkk : ka <= kt).
  { destruct (Z.le_gt_cases ka kt) as [L | L]; [exact L | exfalso].
    pose proof (canon_lt_exp _ _ _ _ Hct Hca L). lia. }
  set (j := mt * 2 ^ (kt - ka) - ma).
  assert (Ej : units t - units a = j * 2 ^ ka).
  { unfold j. rewrite Eut, Eua, (pow2_split ka kt) by
      (destruct Hca as (_ & ? & _); lia). ring. }
  assert (Hj : 0 <= j < 2 ^ 53).
  { destruct Hca as (Hma & _). split.
    - assert (0 <= j * 2 ^ ka) by lia. nia.
    - assert (j * 2 ^ ka <= ma * 2 ^ ka) by lia.
      assert (j <= ma); [|lia].
      apply (Z.mul_le_mono_pos_r _ _ (2 ^ ka)); [lia | exact H]. }
  destruct (Z.eq_dec j 0) as [E0 | E0].
  - exists (S754_zero false); split; [apply fin_zero|].
    cbn [units]; rewrite E0 in Ej; lia.
  - destruct (representable true j ka ltac:(lia)
                ltac:(destruct Hca as (_ & ? & _); lia)) as (w & Hw & Euw).
    exists w; split; [exact Hw | lia].
Qed.

(** The error term [(a - t) + b] of one addition: infinite or a NaN,
    or finite and not below the difference of [a] and [t]. *)
Lemma error_term (a b t : Flt.float) :
  fin a -> fin b -> has_sign false a -> has_sign false b ->
  units b <= units a ->
  fin t -> rounds (units a + units b) t ->
  let e := Flt.add (Flt.sub a t) b in
  finite e = false \/ (fin e /\ units a - units t <= units e).
Proof.
  intros Ha Hb Sa Sb Hba Ht Hr e.
  destruct (error_representable a b t Ha Hb Sa Sb Hba Ht Hr) as (w & Hw & Ew).
  destruct (rounds_exact _ _ w (sub_rounds a t Ha Ht) Hw Ew) as [Hd Ed].
  pose proof (units_nonneg b Sb) as Nb.
  pose proof (add_rounds _ b Hd Hb) as He; fold e in He.
  destruct He as [(Hf & Hlo & _) | [(E & _) | (E & _)]].
  - right; split; [exact Hf|]. rewrite <- Ed. apply (Hlo _ Hd); lia.
  - left; rewrite E; reflexivity.
  - left; rewrite E; reflexivity.
Qed.

(** Adding the error term keeps the compensation above minus the sum. *)
Lemma compensation_update (f a t c e : Flt.float) :
  finite c = false \/ (fin c /\ - units f <= units c) ->
  finite e = false \/ (fin e /\ units a - units t <= units e) ->
  units f <= units a -> fin t ->
  finite (Flt.add c e) = false
  \/ (fin (Flt.add c e) /\ - units t <= units (Flt.add c e)).
Proof.
  intros [Hc | [Hc Lc]] He Hfa Ht; [left; apply finite_add_l, Hc|].
  destruct He as [He | [He Le]];
    [left; apply finite_add_r; [exact (proj1 Hc) | exact He]|].
  destruct (add_rounds c e Hc He) as [(Hf & Hlo & _) | [(E & _) | (E & _)]].
  - right; split; [exact Hf|].
    rewrite <- units_neg. apply (Hlo _ (fin_neg t Ht)). rewrite units_neg. lia.
  - left; rewrite E; reflexivity.
  - left; rewrite E; reflexivity.
Qed.

Lemma amount_like_cases (x : Flt.float) :
  amount_like x ->
  x = S754_nan \/ x = S754_infinity false \/ (fin x /\ has_sign false x).
Proof.
  intros [[-> | Hs] Hb]; [left; reflexivity|].
  destruct x as [s | s | | s m e]; simpl in Hs; subst.
  - right; right; split; [split; [reflexivity | exact Hb] | reflexivity].
  - right; left; reflexivity.
  - left; reflexivity.
  - right; right; split; [split; [reflexivity | exact Hb] | reflexivity].
Qed.

(** One turn of the loop keeps the state. *)
Lemma compensated_step (f c x : Flt.float) :
  compensation_ok f c -> amount_like x ->
  let t := Flt.add f x in
  compensation_ok t
    (if Flt.leb (Flt.abs x) (Flt.abs f)
     then Flt.add c (Flt.add (Flt.sub f t) x)
     else Flt.add c (Flt.add (Flt.sub x t) f)).
Proof.
  intros Hok Hx t.
  destruct Hok as [Ef | [Ef | (Ff & Sf & Hc)]].
  { left; unfold t; rewrite Ef; reflexivity. }
  { unfold t; rewrite Ef.
    destruct (amount_like_cases x Hx) as [-> | [-> | [Fx Sx]]];
      [left; reflexivity | right; left; reflexivity|].
    right; left. destruct x as [s | s | | s m e]; try reflexivity;
      destruct Fx as [H _]; discriminate H. }
  destruct (amount_like_cases x Hx) as [Ex | [Ex | [Fx Sx]]].
  { left; unfold t; rewrite Ex; destruct f; reflexivity. }
  { right; left; unfold t; rewrite Ex.
    destruct f as [s | s | | s m e]; try reflexivity;
      destruct Ff as [H _]; discriminate H. }
  destruct (add_amounts f x Ff Fx Sf Sx) as [Et | (Ft & St & Hr & Lf & Lx)];
    [right; left; exact Et|].
  right; right. split; [exact Ft|]. split; [exact St|].
  rewrite (abs_sign_false_id x Sx), (abs_sign_false_id f Sf).
  rewrite (leb_units x f Fx Ff Sx Sf).
  destruct (Z.leb_spec (units x) (units f)) as [L | L].
  - apply (compensation_update f f t c _ Hc); [|lia | exact Ft].
    exact (error_term f x t Ff Fx Sf Sx L Ft Hr).
  - apply (compensation_update f x t c _ Hc); [|lia | exact Ft].
    apply (error_term x f t Fx Ff Sx Sf ltac:(lia) Ft).
    rewrite Z.add_comm; exact Hr.
Qed.

(** The sum of a number that is not negative and a compensation that
    is not below its negation has a clear sign bit. *)
Lemma add_compensation_sign (f c : Flt.float) :
  fin f -> fin c -> has_sign false f -> - units f <= units c ->
  has_sign false (Flt.add f c).
Proof.
  intros Ff Fc Sf L.
  destruct (fin_cases f Ff) as [[sf ->] | (sf & mf & ef & -> & Hcf & Hef)];
    destruct (fin_cases c Fc) as [[sc ->] | (sc & mc & ec & -> & Hcc & Hec)];
    simpl in Sf; subst sf.
  - destruct sc; reflexivity.
  - cbn [units] in L.
    pose proof (canon_pos _ _ Hcc). destruct sc; [lia | reflexivity].
  - reflexivity.
  - pose proof (add_rounds _ _ Ff Fc) as Hr.
    unfold Flt.add in *; cbn [SFadd] in *.
    set (M := cond_Zopp false (Z.pos (fst (shl_align mf ef (Z.min ef ec))))
              + cond_Zopp sc (Z.pos (fst (shl_align mc ec (Z.min ef ec))))) in *.
    assert (Hez : -1074 <= Z.min ef ec)
      by (destruct Hcf as (_ & ? & _), Hcc as (_ & ? & _); lia).
    assert (HM : 0 <= M).
    { assert (E : M * 2 ^ (Z.min ef ec + 1074)
                  = units (S754_finite false mf ef) + units (S754_finite sc mc ec)).
      { unfold M. rewrite Z.mul_add_distr_r, !aligned_units by lia. reflexivity. }
      pose proof (pow2_pos (Z.min ef ec + 1074) ltac:(lia)). nia. }
    destruct M as [|p|p]; [reflexivity | | lia].
    cbn [binary_normalize]. apply binary_round_sign.
Qed.

Lemma compensated_end (f c : Flt.float) :
  compensation_ok f c ->
  sign_clear (if finite_nonzero c then Flt.add f c else f)
  /\ (has_sign false f ->
      has_sign false (if finite_nonzero c then Flt.add f c else f)).
Proof.
  intros [-> | [-> | (Ff & Sf & Hc)]].
  - split; [left; destruct (finite_nonzero c); reflexivity|].
    intros H; destruct H.
  - assert (H : has_sign false
                  (if finite_nonzero c then Flt.add (S754_infinity false) c
                   else S754_infinity false)).
    { destruct c as [s | s | | s m e]; reflexivity. }
    split; [right; exact H | intros _; exact H].
  - assert (H : has_sign false (if finite_nonzero c then Flt.add f c else f)).
    { destruct (finite_nonzero c) eqn:E; [|exact Sf].
      destruct Hc as [Hc | [Fc Lc]];
        [destruct c; discriminate|].
      exact (add_compensation_sign f c Ff Fc Sf Lc). }
    split; [right; exact H | intros _; exact H].
Qed.

Lemma compensated_sum_sign (xs : list Flt.float) :
  forall f c : Flt.float,
    compensation_ok f c -> Forall amount_like xs ->
    sign_clear (compensated_sum f c xs)
    /\ (has_sign false f -> Forall (has_sign false) xs ->
        has_sign false (compensated_sum f c xs)).
Proof.
  induction xs as [|x xs IH]; intros f c Hok Hxs; cbn [compensated_sum].
  - destruct (compensated_end f c Hok) as [A B].
    split; [exact A | intros Hf _; exact (B Hf)].
  - inversion Hxs as [|? ? Hx Hrest]; subst.
    destruct (IH _ _ (compensated_step f c x Hok Hx) Hrest) as [A B].
    split; [exact A|].
    intros Hf Hs; inversion Hs; subst.
    apply B; [apply add_sign_false|]; assumption.
Qed.

(** The start of the sum: [0 + x] and no compensation. *)
Lemma compensated_start (x : Flt.float) :
  amount_like x -> compensation_ok (Flt.add (Flt.of_Z 0) x) Flt.zero.
Proof.
  intros Hx.
  destruct (amount_like_cases x Hx) as [-> | [-> | [Fx Sx]]];
    [left; reflexivity | right; left; reflexivity|].
  right; right.
  assert (E : Flt.add (Flt.of_Z 0) x = x).
  { destruct x as [s | s | | s m e]; simpl in Sx; subst; try reflexivity;
      destruct Fx as [H _]; discriminate H. }
  rewrite E. split; [exact Fx|]. split; [exact Sx|].
  right; split; [apply fin_zero|].
  cbn [units Flt.zero]. pose proof (units_nonneg x Sx). lia.
Qed.

(** [sum] and [round] over amounts, whichever way the interpreter
    adds. *)
Lemma py_sum_never_negative (compensated : bool) (xs : list Flt.float) :
  Forall amount_like xs ->
  never_negative (num_round2 (py_sum compensated xs)).
Proof.
  intros H; destruct compensated.
  - destruct xs as [|x xs]; [simpl; lia|].
    inversion H as [|? ? Hx Hrest]; subst.
    cbn [py_sum num_round2 never_negative].
    apply sign_clear_never_negative, round2_sign_clear.
    exact (proj1 (compensated_sum_sign xs _ _ (compensated_start x Hx) Hrest)).
  - apply num_round2_never_negative.
    apply Forall_forall; intros x Hx.
    exact (proj1 (proj1 (Forall_forall _ _) H x Hx)).
Qed.

Lemma py_sum_at_least_zero (compensated : bool) (xs : list Flt.float) :
  Forall amount_like xs -> Forall (has_sign false) xs ->
  at_least_zero (num_round2 (py_sum compensated xs)).
Proof.
  intros H Hs; destruct compensated.
  - destruct xs as [|x xs]; [simpl; lia|].
    inversion H as [|? ? Hx Hrest]; subst. inversion Hs; subst.
    cbn [py_sum num_round2 at_least_zero].
    apply sign_false_at_least_zero, round2_sign.
    apply (proj2 (compensated_sum_sign xs _ _ (compensated_start x Hx) Hrest));
      [|assumption].
    apply add_sign_false; [exact of_Z_0_sign | assumption].
  - apply num_round2_at_least_zero; exact Hs.
Qed.

(** ** The conversions give binary64 numbers *)

Lemma binary64_rounded (s : bool) (m' k' : Z) :
  canon m' k' -> binary64 (rounded s m' k') = true.
Proof.
  intros Hc; destruct (Z.le_gt_cases k' 2045) as [L | G].
  - apply (rounded_fin s m' k' Hc L).
  - rewrite (rounded_inf s m' k' G); reflexivity.
Qed.

Lemma binary64_finite_or_inf (s : bool) (m : positive) (g : Z) :
  canon (Z.pos m) (g + 1074) ->
  binary64 (if g <=? 971 then S754_finite s m g else S754_infinity s) = true.
Proof. intros Hc; rewrite rounded_finite; apply binary64_rounded, Hc. Qed.

Lemma binary_round_binary64 (s : bool) (m : positive) (e : Z) :
  -1074 <= e -> binary64 (binary_round Flt.prec Flt.emax s m e) = true.
Proof.
  intros He; destruct (binary_round_spec s m e He) as (m' & k' & Hc & -> & _).
  apply binary64_rounded, Hc.
Qed.

Lemma of_Z_binary64 (z : Z) : binary64 (Flt.of_Z z) = true.
Proof.
  unfold Flt.of_Z, binary_normalize; destruct z;
    [reflexivity | apply binary_round_binary64; lia
     | apply binary_round_binary64; lia].
Qed.

Lemma abs_binary64 (x : Flt.float) :
  binary64 x = true -> binary64 (Flt.abs x) = true.
Proof. destruct x; intros H; exact H. Qed.

Lemma shr_iter_m (p : positive) (r : shr_record) :
  0 <= shr_m r -> shr_m (iter_pos shr_1 p r) = shr_m r / 2 ^ Z.pos p.
Proof.
  intros Hr.
  pose (P := fun (k : Z) (x : shr_record) =>
               0 <= k /\ shr_m x = shr_m r / 2 ^ k).
  assert (Hstep : forall k x, P k x -> P (k + 1) (shr_1 x)).
  { intros k x (Hk & Hm).
    pose proof (pow2_pos k Hk) as Hp.
    assert (Hx : 0 <= shr_m x) by (rewrite Hm; apply Z.div_pos; lia).
    destruct (shr_1_spec x Hx) as (A & _).
    split; [lia|].
    rewrite A, Hm, Z.pow_add_r, Z.pow_1_r by lia.
    rewrite Z.div_div by lia. reflexivity. }
  assert (H0 : P 0 r) by (split; [lia | rewrite Z.pow_0_r, Z.div_1_r; reflexivity]).
  destruct (iter_pos_inv shr_1 P Hstep p 0 r H0) as (_ & H).
  exact H.
Qed.

Lemma shr_record_of_loc_m (m : Z) (l : location) :
  shr_m (shr_record_of_loc m l) = m.
Proof. destruct l as [|[]]; reflexivity. Qed.

(** The second shift of [binary_round_aux] and the final test, on a
    rounded mantissa [mr] at exponent [g]. *)
Lemma round_finish (s : bool) (mr g : Z) :
  0 <= mr <= 2 ^ 53 -> -1074 <= g -> (g = -1074 \/ 2 ^ 52 <= mr) ->
  binary64
    (let '(mrs, e) := shr_fexp Flt.prec Flt.emax mr g loc_Exact in
     match shr_m mrs with
     | Z0 => S754_zero s
     | Zpos m => if e <=? Flt.emax - Flt.prec then S754_finite s m e
                 else S754_infinity s
     | Zneg _ => S754_nan
     end) = true.
Proof.
  intros Hmr Hg Hc.
  destruct mr as [|pm|pm]; [| |lia].
  - unfold shr_fexp; rewrite fexp_def; cbn [Zdigits2 shr_record_of_loc].
    unfold shr.
    destruct (Z.max (0 + g - 53) (-1074) - g) eqn:E; try reflexivity; lia.
  - destruct (Z.eq_dec (Z.pos pm) (2 ^ 53)) as [Ecarry | Ecarry].
    + assert (Hpm : pm = Pos.iter xO 1%positive 53%positive)
        by (apply Pos2Z.inj; rewrite Ecarry; reflexivity).
      subst pm.
      assert (E2 : shr_fexp Flt.prec Flt.emax
                     (Z.pos (Pos.iter xO 1%positive 53%positive)) g loc_Exact
                   = (Build_shr_record (2 ^ 52) false false, g + 1)).
      { unfold shr_fexp; rewrite Zdigits2_pos, fexp_def.
        replace (Z.pos (digits2_pos (Pos.iter xO 1%positive 53%positive))) with 54
          by reflexivity.
        replace (Z.max (54 + g - 53) (-1074) - g) with 1 by lia.
        reflexivity. }
      rewrite E2; cbn [shr_m].
      change (2 ^ 52) with (Z.pos (Pos.iter xO 1%positive 52%positive)).
      cbv iota beta.
      change (Flt.emax - Flt.prec) with 971.
      apply (binary64_finite_or_inf s (Pos.iter xO 1%positive 52%positive) (g + 1)).
      split; [split; reflexivity|]. split; [lia | right; reflexivity].
    + assert (Hpm53 : Z.pos pm < 2 ^ 53) by lia.
      destruct (digits_bounds pm) as [Blo Bhi].
      assert (Hd53 : Z.pos (digits2_pos pm) <= 53).
      { destruct (Z.le_gt_cases (Z.pos (digits2_pos pm)) 53) as [L | G];
          [exact L | exfalso].
        assert (2 ^ 53 <= 2 ^ (Z.pos (digits2_pos pm) - 1))
          by (apply pow2_le; lia).
        lia. }
      assert (Hf : fexp Flt.prec Flt.emax (Z.pos (digits2_pos pm) + g) <= g)
        by (rewrite fexp_def; lia).
      rewrite (shr_fexp_no_shift pm g Hf); cbn [shr_m].
      change (Flt.emax - Flt.prec) with 971.
      apply (binary64_finite_or_inf s pm g).
      split; [lia|]. split; [lia|].
      destruct Hc as [-> | Hc]; [left; reflexivity | right; exact Hc].
Qed.

(** [binary_round_aux] on a mantissa that is not below its exponent's
    place gives a binary64 number, whatever the location. *)
Lemma binary_round_aux_binary64 (s : bool) (m e : Z) (l : location) :
  0 <= m -> e <= fexp Flt.prec Flt.emax (Zdigits2 m + e) ->
  binary64 (binary_round_aux Flt.prec Flt.emax s m e l) = true.
Proof.
  intros Hm He; unfold binary_round_aux.
  set (g := fexp Flt.prec Flt.emax (Zdigits2 m + e)) in *.
  assert (Hg : -1074 <= g) by (unfold g; rewrite fexp_def; lia).
  assert (Hq : 0 <= m / 2 ^ (g - e) < 2 ^ 53
               /\ (g = -1074 \/ 2 ^ 52 <= m / 2 ^ (g - e))).
  { pose proof (pow2_pos (g - e) ltac:(lia)) as Hp.
    destruct m as [|pm|pm]; [| |lia].
    - rewrite Z.div_0_l by lia. split; [split; [lia | reflexivity]|].
      left; unfold g in *; rewrite fexp_def in *; cbn [Zdigits2] in *; lia.
    - destruct (digits_bounds pm) as [Blo Bhi].
      unfold g in *; rewrite Zdigits2_pos, fexp_def in *.
      set (d := Z.pos (digits2_pos pm)) in *.
      assert (Hd : 0 < d) by (unfold d; lia).
      set (g' := Z.max (d + e - 53) (-1074)) in *.
      split; [split|].
      + apply Z.div_pos; lia.
      + apply Z.div_lt_upper_bound; [lia|].
        rewrite <- Z.pow_add_r by lia.
        assert (2 ^ d <= 2 ^ (g' - e + 53)) by (apply pow2_le; lia).
        lia.
      + destruct (Z.eq_dec g' (-1074)) as [E | E]; [left; exact E | right].
        apply Z.div_le_lower_bound; [lia|].
        rewrite <- Z.pow_add_r by lia.
        replace (g' - e + 52) with (d - 1) by lia. exact Blo. }
  assert (Hsh : exists r1,
             shr_fexp Flt.prec Flt.emax m e l = (r1, g)
             /\ shr_m r1 = m / 2 ^ (g - e)).
  { unfold shr_fexp; fold g; unfold shr.
    destruct (g - e) as [|p|p] eqn:En; [| |lia].
    - exists (shr_record_of_loc m l); split; [f_equal; lia|].
      rewrite shr_record_of_loc_m, Z.pow_0_r, Z.div_1_r; reflexivity.
    - exists (iter_pos shr_1 p (shr_record_of_loc m l)); split; [f_equal; lia|].
      rewrite shr_iter_m by (rewrite shr_record_of_loc_m; exact Hm).
      rewrite shr_record_of_loc_m; reflexivity. }
  destruct Hsh as (r1 & -> & Hr1).
  pose proof (rne_bounds (shr_m r1) (loc_of_shr_record r1)) as Hr.
  rewrite Hr1 in Hr |- *.
  apply round_finish; [lia | exact Hg|].
  destruct Hq as [_ [E | E]]; [left; exact E | right; lia].
Qed.

(** The quotient [SFdiv_core_binary] returns has enough digits for its
    exponent. *)
Lemma div_core_digits (p1 p2 : positive) (e1 e2 : Z) :
  let '(q, e', _) :=
    SFdiv_core_binary Flt.prec Flt.emax (Z.pos p1) e1 (Z.pos p2) e2 in
  0 <= q /\ e' <= fexp Flt.prec Flt.emax (Zdigits2 q + e').
Proof.
  unfold SFdiv_core_binary; rewrite !Zdigits2_pos.
  destruct (digits_bounds p1) as [Alo Ahi].
  destruct (digits_bounds p2) as [Blo Bhi].
  set (d1 := Z.pos (digits2_pos p1)) in *.
  set (d2 := Z.pos (digits2_pos p2)) in *.
  assert (Hd1 : 0 < d1) by (unfold d1; lia).
  assert (Hd2 : 0 < d2) by (unfold d2; lia).
  rewrite fexp_def.
  set (e' := Z.min (Z.max (d1 + e1 - (d2 + e2) - 53) (-1074)) (e1 - e2)).
  set (sh := e1 - e2 - e').
  assert (Hsh : 0 <= sh) by (unfold sh, e'; lia).
  set (m' := match sh with
             | 0 => Z.pos p1
             | Z.pos _ => Z.shiftl (Z.pos p1) sh
             | Z.neg _ => 0
             end).
  assert (Hm' : m' = Z.pos p1 * 2 ^ sh).
  { unfold m'; destruct sh as [|p|p] eqn:E; [| |lia].
    - rewrite Z.pow_0_r; lia.
    - apply Z.shiftl_mul_pow2; lia. }
  pose proof (pow2_pos sh Hsh) as Hp.
  pose proof (Z_div_mod m' (Z.pos p2) ltac:(lia)) as Hdiv.
  destruct (Z.div_eucl m' (Z.pos p2)) as [q r].
  destruct Hdiv as [Hqr Hr].
  assert (Hq0 : 0 <= q) by nia.
  split; [exact Hq0|].
  rewrite fexp_def.
  destruct (Z.le_gt_cases e' (-1074)) as [L | G]; [lia|].
  assert (Hs53 : 53 + d2 - d1 <= sh) by (unfold sh, e' in *; lia).
  assert (Hq52 : 2 ^ 52 <= q).
  { assert (E1 : 2 ^ (d1 - 1) * 2 ^ sh = 2 ^ (d1 - 1 + sh))
      by (rewrite <- Z.pow_add_r by lia; reflexivity).
    assert (E2 : 2 ^ 52 * 2 ^ d2 = 2 ^ (52 + d2))
      by (rewrite <- Z.pow_add_r by lia; reflexivity).
    assert (E3 : 2 ^ (52 + d2) <= 2 ^ (d1 - 1 + sh)) by (apply pow2_le; lia).
    assert (E4 : 2 ^ (d1 - 1) * 2 ^ sh <= Z.pos p1 * 2 ^ sh)
      by (apply Z.mul_le_mono_nonneg_r; lia).
    assert (E5 : 2 ^ 52 * Z.pos p2 < 2 ^ 52 * 2 ^ d2)
      by (apply Z.mul_lt_mono_pos_l; [reflexivity | lia]).
    assert (E6 : 2 ^ 52 * Z.pos p2 < Z.pos p2 * q + r) by lia.
    destruct (Z.le_gt_cases (2 ^ 52) q) as [L | L]; [exact L | exfalso].
    assert (q + 1 <= 2 ^ 52) by lia.
    assert (Z.pos p2 * (q + 1) <= Z.pos p2 * 2 ^ 52)
      by (apply Z.mul_le_mono_nonneg_l; lia).
    lia. }
  destruct q as [|pq|pq]; [simpl in Hq52; lia | | lia].
  rewrite Zdigits2_pos.
  destruct (digits_bounds pq) as [_ Qhi].
  assert (52 < Z.pos (digits2_pos pq)).
  { destruct (Z.le_gt_cases (Z.pos (digits2_pos pq)) 52) as [L | G'];
      [exfalso | lia].
    assert (2 ^ Z.pos (digits2_pos pq) <= 2 ^ 52) by (apply pow2_le; lia).
    lia. }
  lia.
Qed.

Lemma of_decimal_binary64 (s : bool) (d e : Z) :
  binary64 (Flt.of_decimal s d e) = true.
Proof.
  unfold Flt.of_decimal; destruct d as [|p|p]; try reflexivity.
  destruct (0 <=? e) eqn:E; [apply binary_round_binary64; lia|].
  apply Z.leb_gt in E.
  pose proof (pow2_pos 0 ltac:(lia)) as _.
  assert (H10 : 0 < 10 ^ (- e)) by (apply Z.pow_pos_nonneg; lia).
  destruct (10 ^ (- e)) as [|p2|p2] eqn:E10; try lia.
  pose proof (div_core_digits p p2 0 0) as H.
  destruct (SFdiv_core_binary Flt.prec Flt.emax (Z.pos p) 0 (Z.pos p2) 0)
    as [[q e'] l].
  destruct H as [Hq He].
  apply binary_round_aux_binary64; assumption.
Qed.

Lemma inf_or_nan_binary64 (sg : bool) (s : string) (x : Flt.float) (r : string) :
  Flt.inf_or_nan sg s = Some (x, r) -> binary64 x = true.
Proof.
  unfold Flt.inf_or_nan; intros H.
  repeat match type of H with
         | match ?t with _ => _ end = _ => destruct t
         | (if ?c then _ else _) = _ => destruct c
         end;
    try discriminate; injection H as <- _; reflexivity.
Qed.

Lemma number_binary64 (s : string) (x : Flt.float) (r : string) :
  Flt.number s = Some (x, r) -> binary64 x = true.
Proof.
  unfold Flt.number.
  destruct (Flt.sign s) as [sg s1].
  destruct (Flt.digits s1 0 0) as [[ip ni] s2].
  destruct (match s2 with
            | String "."%char r0 => Flt.digits r0 ip 0
            | _ => (ip, 0, s2)
            end) as [[d nf] s3].
  destruct (ni + nf =? 0); [apply inf_or_nan_binary64|].
  destruct (Flt.exponent s3) as [e s4].
  intros H; injection H as <- _; apply of_decimal_binary64.
Qed.

Lemma of_string_binary64 (s : string) (x : Flt.float) :
  Flt.of_string s = Some x -> binary64 x = true.
Proof.
  unfold Flt.of_string.
  destruct (Flt.drop_underscores None s) as [s'|]; [|discriminate].
  destruct (Flt.number (Flt.skip_fspace s')) as [[y rest]|] eqn:E; [|discriminate].
  destruct (Str.is_empty (Flt.skip_fspace rest)); [|discriminate].
  intros H; injection H as <-. exact (number_binary64 _ _ _ E).
Qed.

(** [float(v)] is a binary64 number when [v], if it is a float, is
    one. *)
Lemma py_float_binary64 (v : pyval) (x : Flt.float) :
  (forall y, v = PFloat y -> binary64 y = true) ->
  py_float v = inr x -> binary64 x = true.
Proof.
  intros Hv; destruct v as [| b | z | y | s | l]; cbn [py_float];
    try discriminate.
  - intros H; injection H as <-; apply of_Z_binary64.
  - pose proof (of_Z_binary64 z) as Hz.
    destruct (Flt.of_Z z); try discriminate;
      intros H; injection H as <-; exact Hz.
  - intros H; injection H as <-; apply Hv; reflexivity.
  - destruct (Flt.of_string s) as [y|] eqn:E; [|discriminate].
    intros H; injection H as <-. exact (of_string_binary64 s y E).
Qed.

Lemma successes_binary64 (batch : list dict) :
  float_amounts batch ->
  forall (idx : Z) (p : DataProcessor.processed),
    In p (successes idx batch) -> binary64 (DataProcessor.amount p) = true.
Proof.
  induction batch as [|tx rest IH]; intros Hb idx p H; simpl in H; [tauto|].
  assert (Hrest : float_amounts rest)
    by (intros d x Hd; apply Hb; right; exact Hd).
  destruct (DataProcessor.validate_and_clean_transaction tx idx) eqn:E.
  - exact (IH Hrest _ _ H).
  - destruct H as [<- | H]; [|exact (IH Hrest _ _ H)].
    apply validate_inversion in E
      as (s & x & _ & _ & Hx & _ & _ & Ha & _).
    rewrite Ha; apply abs_binary64.
    apply (py_float_binary64 (get tx "amount") x); [|exact Hx].
    intros y Hy; apply (Hb tx y); [left; reflexivity | exact Hy].
Qed.

Lemma amounts_amount_like (ty : trans_type) (idx : Z) (batch : list dict) :
  float_amounts batch -> Forall amount_like (amounts_of ty (successes idx batch)).
Proof.
  intros Hb; apply Forall_forall; intros x Hx; split.
  - revert x Hx; apply Forall_forall, amounts_sign_clear.
  - apply in_map_iff in Hx as (p & <- & Hp).
    apply filter_In in Hp as [Hp _].
    exact (successes_binary64 batch Hb idx p Hp).
Qed.

(** C8, as the code has it, under either interpreter: [sum()] adding
    from left to right (CPython up to 3.11, [compensated = false]) or
    with Neumaier's compensation (CPython from 3.12 on,
    [compensated = true]).  For every batch: [total_credits] and
    [total_debits] are the sums of [amount] over the CREDIT and the DEBIT
    entries, each rounded to two decimals, and [net_amount] is the
    difference of the two unrounded sums, rounded to two decimals.
    Neither total is ever below zero; [total_debits] is always zero or
    more, and [total_credits] as well unless an amount is a NaN.  For
    the compensated sum this is proved for the floats that Python has,
    the binary64 numbers: the amounts that the batch gives as floats
    are taken to be such numbers.  When nothing was processed the three
    totals are the integer 0 and both balances are [None]. *)
Theorem summary_totals :
  forall (compensated : bool) (self : DataProcessor.t) (batch : list dict),
    let out := snd (DataProcessor.process_transactions compensated self batch) in
    let ts := DataProcessor.transactions out in
    let s := DataProcessor.summary_of out in
    let credits := py_sum compensated (amounts_of CREDIT ts) in
    let debits := py_sum compensated (amounts_of DEBIT ts) in
    DataProcessor.total_credits s = num_round2 credits
    /\ DataProcessor.total_debits s = num_round2 debits
    /\ DataProcessor.net_amount s = num_round2 (num_sub credits debits)
    /\ (compensated = false \/ float_amounts batch ->
        never_negative (DataProcessor.total_credits s)
        /\ at_least_zero (DataProcessor.total_debits s)
        /\ ((forall p, In p ts -> is_nan (DataProcessor.amount p) = false) ->
            at_least_zero (DataProcessor.total_credits s)))
    /\ (ts = [] ->
        s = {| DataProcessor.total_transactions := 0;
               DataProcessor.total_credits := NInt 0;
               DataProcessor.total_debits := NInt 0;
               DataProcessor.net_amount := NInt 0;
               DataProcessor.opening_balance := None;
               DataProcessor.closing_balance := None |}).
Proof.
  intros compensated self batch out ts s credits debits.
  assert (Hts : ts = successes 0 batch)
    by apply (process_transactions_spec compensated self batch).
  assert (Hself : exists self',
             s = DataProcessor.generate_summary compensated self'
             /\ DataProcessor.processed_transactions self' = ts).
  { eexists; split; reflexivity. }
  destruct Hself as (self' & Hs & Hp).
  pose proof (generate_summary_fields compensated self') as (Hc & Hd & Hn).
  rewrite Hp, <- Hs in Hc, Hd, Hn.
  fold credits in Hc, Hn; fold debits in Hd, Hn.
  split; [exact Hc|]. split; [exact Hd|]. split; [exact Hn|].
  split.
  - intros [-> | Hb]; rewrite Hc, Hd; unfold credits, debits; rewrite Hts.
    + split; [apply num_round2_never_negative, amounts_sign_clear|].
      split; [apply num_round2_at_least_zero, debit_amounts_sign_false|].
      intros Hnan; apply num_round2_at_least_zero, credit_amounts_sign_false.
      exact Hnan.
    + split; [apply py_sum_never_negative, amounts_amount_like, Hb|].
      split; [apply py_sum_at_least_zero;
              [apply amounts_amount_like, Hb | apply debit_amounts_sign_false]|].
      intros Hnan; apply py_sum_at_least_zero;
        [apply amounts_amount_like, Hb|].
      apply credit_amounts_sign_false; exact Hnan.
  - intros E; rewrite Hs; unfold DataProcessor.generate_summary.
    rewrite Hp, E; reflexivity.
Qed.

(** The credits 0.1, 0.2 and 0.005 and the debits 1.5 and 2.25 under the
    compensated sum: the credits add up to 0.305 and [total_credits] is
    0.3 (it is 0.31 when [sum()] adds from left to right),
    [total_debits] is 3.75, and both are zero or more. *)
Lemma summary_totals_witness :
  DataProcessor.total_credits
    (DataProcessor.summary_of
       (snd (DataProcessor.process_transactions true DataProcessor.init
               cents_batch)))
  = NFloat (Flt.of_decimal false 3 (-1))
  /\ DataProcessor.total_debits
       (DataProcessor.summary_of
          (snd (DataProcessor.process_transactions true DataProcessor.init
                  cents_batch)))
     = NFloat (Flt.of_decimal false 375 (-2))
  /\ DataProcessor.total_credits
       (DataProcessor.summary_of
          (snd (DataProcessor.process_transactions false DataProcessor.init
                  cents_batch)))
     = NFloat (Flt.of_decimal false 31 (-2))
  /\ at_least_zero
       (DataProcessor.total_credits
          (DataProcessor.summary_of
             (snd (DataProcessor.process_transactions true DataProcessor.init
                     cents_batch))))
  /\ at_least_zero
       (DataProcessor.total_debits
          (DataProcessor.summary_of
             (snd (DataProcessor.process_transactions true DataProcessor.init
                     cents_batch)))).
Proof.
  assert (Hb : float_amounts cents_batch).
  { intros d x Hd E. vm_compute in Hd.
    repeat (destruct Hd as [<- | Hd];
            [vm_compute in E;
             first [discriminate E | injection E as <-; reflexivity]|]).
    destruct Hd. }
  destruct (summary_totals true DataProcessor.init cents_batch)
    as (_ & _ & _ & H & _).
  destruct (H (or_intror Hb)) as (_ & Hd & Hc).
  split; [vm_compute; reflexivity|].
  split; [vm_compute; reflexivity|].
  split; [vm_compute; reflexivity|].
  split; [|exact Hd].
  apply Hc; intros p Hp.
  vm_compute in Hp.
  repeat (destruct Hp as [<- | Hp]; [reflexivity|]); destruct Hp.
Defined.

(** C8 as the specification words it fails, under either interpreter
    (each sum has one term, and the two ways of adding give the same
    summaries).  With a credit of 2^60 and a debit of 64.004 the totals
    are 2^60 and 64.0 and their difference is 2^60, while [net_amount]
    is 2^60 - 128: the two are 128 apart.  With a credit of 0.006 and a
    debit of 0.002 the totals are 0.01 and 0.0, and [net_amount] is 0.0,
    not 0.01. *)
Lemma summary_net_counterexample :
  let big := DataProcessor.summary_of
               (snd (DataProcessor.process_transactions true DataProcessor.init
                       large_batch)) in
  let small := DataProcessor.summary_of
                 (snd (DataProcessor.process_transactions true DataProcessor.init
                         small_batch)) in
  DataProcessor.summary_of
    (snd (DataProcessor.process_transactions false DataProcessor.init large_batch))
  = big
  /\ DataProcessor.summary_of
       (snd (DataProcessor.process_transactions false DataProcessor.init
               small_batch))
     = small
  /\ DataProcessor.total_credits big = NFloat (Flt.of_Z (2 ^ 60))
  /\ DataProcessor.total_debits big = NFloat (Flt.of_Z 64)
  /\ num_sub (DataProcessor.total_credits big) (DataProcessor.total_debits big)
     = NFloat (Flt.of_Z (2 ^ 60))
  /\ DataProcessor.net_amount big = NFloat (Flt.of_Z (2 ^ 60 - 128))
  /\ Flt.sub (Flt.of_Z (2 ^ 60)) (Flt.of_Z (2 ^ 60 - 128)) = Flt.of_Z 128
  /\ Flt.ltb (Flt.of_decimal false 1 (-2)) (Flt.of_Z 128) = true
  /\ DataProcessor.net_amount big
     <> num_sub (DataProcessor.total_credits big) (DataProcessor.total_debits big)
  /\ DataProcessor.net_amount big
     <> num_round2 (num_sub (DataProcessor.total_credits big)
                            (DataProcessor.total_debits big))
  /\ DataProcessor.total_credits small = NFloat (Flt.of_decimal false 1 (-2))
  /\ DataProcessor.total_debits small = NFloat Flt.zero
  /\ DataProcessor.net_amount small = NFloat Flt.zero
  /\ num_round2 (num_sub (DataProcessor.total_credits small)
                         (DataProcessor.total_debits small))
     = NFloat (Flt.of_decimal false 1 (-2)).
Proof. vm_compute; repeat split; try reflexivity; discriminate. Qed.

(** ** The amount normalizer *)

Lemma has_char_drop_underscores (c : ascii) (s : string) :
  forall (prev : option ascii) (s' : string),
    Flt.drop_underscores prev s = Some s' ->
    Str.has_char c s = false -> Str.has_char c s' = false.
Proof.
  induction s as [|a s IH]; intros prev s' H Hc; simpl in H.
  - destruct prev as [p|]; [destruct (Ascii.eqb p "_") eqn:E|].
    + apply Ascii.eqb_eq in E; subst p; discriminate.
    + assert (s' = EmptyString) as ->; [|reflexivity].
      destruct p as [[] [] [] [] [] [] [] []]; try discriminate;
        injection H as <-; reflexivity.
    + injection H as <-; reflexivity.
  - simpl in Hc; apply orb_false_iff in Hc as [Hac Hc].
    destruct (Ascii.eqb a "_").
    + destruct prev as [p|]; [|discriminate].
      destruct (Str.isdigit p); [|discriminate].
      exact (IH _ _ H Hc).
    + assert (Hs : exists t, Flt.drop_underscores (Some a) s = Some t
                             /\ s' = String a t).
      { destruct prev as [p|].
        - destruct p as [[] [] [] [] [] [] [] []];
            try (destruct (Str.isdigit a); [|discriminate]);
            (destruct (Flt.drop_underscores (Some a) s) as [t|];
             [injection H as <-; exists t; split; reflexivity | discriminate]).
        - destruct (Flt.drop_underscores (Some a) s) as [t|];
            [injection H as <-; exists t; split; reflexivity | discriminate]. }
      destruct Hs as (t & Ht & ->).
      simpl; rewrite Hac; exact (IH _ _ Ht Hc).
Qed.

Lemma has_char_skip_fspace (c : ascii) (s : string) :
  Str.has_char c s = false -> Str.has_char c (Flt.skip_fspace s) = false.
Proof.
  induction s as [|a s IH]; intros H; simpl; [reflexivity|].
  destruct (Flt.fspace a); [|exact H].
  simpl in H; apply orb_false_iff in H as [_ H]; exact (IH H).
Qed.

Lemma has_char_remove (c : ascii) (s : string) :
  Str.has_char c (Str.remove_char c s) = false.
Proof.
  induction s as [|a s IH]; simpl; [reflexivity|].
  destruct (Ascii.eqb a c) eqn:E; [exact IH|].
  simpl; rewrite E; exact IH.
Qed.

Lemma inf_or_nan_sign_clear (s r : string) (x : Flt.float) :
  Flt.inf_or_nan false s = Some (x, r) -> sign_clear x.
Proof.
  unfold Flt.inf_or_nan.
  destruct s as [|a [|b [|c t]]]; try discriminate.
  destruct (String.eqb _ "inf").
  - assert (H : forall q, Some (Flt.inf false, q) = Some (x, r) -> sign_clear x)
      by (intros q E; injection E as <- _; right; reflexivity).
    destruct t as [|d1 [|d2 [|d3 [|d4 [|d5 t']]]]]; try apply H.
    destruct (String.eqb _ "inity"); apply H.
  - destruct (String.eqb _ "nan"); [|discriminate].
    intros E; injection E as <- _; left; reflexivity.
Qed.

(** A literal without a minus sign is not read as a negative number. *)
Lemma number_sign_clear (s rest : string) (x : Flt.float) :
  Str.has_char "-" s = false -> Flt.number s = Some (x, rest) -> sign_clear x.
Proof.
  intros Hc; unfold Flt.number.
  assert (Hs : exists s1, Flt.sign s = (false, s1)).
  { destruct s as [|a s']; [eexists; reflexivity|].
    simpl in Hc; apply orb_false_iff in Hc as [Ha _].
    unfold Flt.sign.
    destruct a as [[] [] [] [] [] [] [] []];
      try discriminate Ha; eexists; reflexivity. }
  destruct Hs as (s1 & ->).
  destruct (Flt.digits s1 0 0) as [[ip ni] s2].
  destruct (match s2 with
            | String "." r => Flt.digits r ip 0
            | _ => (ip, 0, s2)
            end) as [[d nf] s3].
  destruct (ni + nf =? 0); [apply inf_or_nan_sign_clear|].
  destruct (Flt.exponent s3) as [e s4].
  intros E; injection E as <- _; right; apply of_decimal_sign.
Qed.

Lemma of_string_sign_clear (s : string) (x : Flt.float) :
  Str.has_char "-" s = false -> Flt.of_string s = Some x -> sign_clear x.
Proof.
  intros Hc; unfold Flt.of_string.
  destruct (Flt.drop_underscores None s) as [s'|] eqn:Es; [|discriminate].
  pose proof (has_char_skip_fspace _ _ (has_char_drop_underscores _ _ _ _ Es Hc))
    as Hc'.
  destruct (Flt.number (Flt.skip_fspace s')) as [[y rest]|] eqn:En;
    [|discriminate].
  destruct (Str.is_empty (Flt.skip_fspace rest)); [|discriminate].
  intros E; injection E as <-.
  exact (number_sign_clear _ _ _ Hc' En).
Qed.

Lemma round2_neg_sign_set (x : Flt.float) :
  sign_clear x -> sign_set (Flt.round2 (Flt.neg x)).
Proof.
  intros [-> | H]; [left; reflexivity | right].
  apply round2_sign.
  destruct x as [s | s | | s m e]; simpl in H |- *; try tauto; subst; reflexivity.
Qed.

(** C6.  When the token, with its commas removed and its ends trimmed,
    holds a minus sign anywhere, [parse_amount] reads the token without
    its minus signs, negates what it read and rounds it to two
    decimals, so that a result, when there is one, has its sign bit set
    (or is a NaN).  The tokens "1,234.50-" and "-1,234.50" both give
    -1234.50, and the empty string and [None] give [None]. *)
Theorem parse_amount_minus_anywhere :
  (forall tok : string,
     let s := Str.strip (Str.remove_char "," tok) in
     Str.has_char "-" s = true ->
     PDFParser.parse_amount (Some tok)
     = option_map (fun x => Flt.round2 (Flt.neg x))
                  (Flt.of_string (Str.remove_char "-" s))
     /\ forall r, PDFParser.parse_amount (Some tok) = Some r -> sign_set r)
  /\ PDFParser.parse_amount (Some "1,234.50-")
     = Some (Flt.of_decimal true 123450 (-2))
  /\ PDFParser.parse_amount (Some "-1,234.50")
     = Some (Flt.of_decimal true 123450 (-2))
  /\ PDFParser.parse_amount (Some "") = None
  /\ PDFParser.parse_amount None = None.
Proof.
  split; [|repeat split; vm_compute; reflexivity].
  intros tok s Hs.
  assert (E : PDFParser.parse_amount (Some tok)
              = option_map (fun x => Flt.round2 (Flt.neg x))
                           (Flt.of_string (Str.remove_char "-" s))).
  { unfold PDFParser.parse_amount.
    destruct tok as [|a tok]; [discriminate Hs|].
    cbn [Str.is_empty]; fold s; rewrite Hs.
    destruct (Flt.of_string (Str.remove_char "-" s)); reflexivity. }
  split; [exact E|].
  intros r Hr; rewrite E in Hr.
  destruct (Flt.of_string (Str.remove_char "-" s)) as [x|] eqn:Ex;
    [|discriminate].
  injection Hr as <-.
  apply round2_neg_sign_set, (of_string_sign_clear _ _ (has_char_remove _ _) Ex).
Qed.

(** A minus sign in the middle of the digits negates as well. *)
Lemma parse_amount_minus_anywhere_witness :
  Str.has_char "-" (Str.strip (Str.remove_char "," " 12-34 ")) = true
  /\ PDFParser.parse_amount (Some " 12-34 ") = Some (Flt.of_Z (-1234))
  /\ sign_set (Flt.of_Z (-1234)).
Proof.
  assert (H : Str.has_char "-" (Str.strip (Str.remove_char "," " 12-34 ")) = true)
    by reflexivity.
  destruct parse_amount_minus_anywhere as [Hrule _].
  destruct (Hrule " 12-34 " H) as [E Hsign].
  split; [exact H|].
  assert (Hv : PDFParser.parse_amount (Some " 12-34 ") = Some (Flt.of_Z (-1234)))
    by (rewrite E; vm_compute; reflexivity).
  split; [exact Hv | exact (Hsign _ Hv)].
Defined.

(** ** The PDF parser *)

Section ParserProperties.

Variable year_padded : bool.
Variable finditer : string -> list (string * string * string * string).

Local Abbreviation parse_row := (PDFParser.parse_row year_padded).
Local Abbreviation extract_rows := (PDFParser.extract_rows year_padded).
Local Abbreviation extract_from_table := (PDFParser.extract_from_table year_padded).
Local Abbreviation text_transaction := (PDFParser.text_transaction year_padded).
Local Abbreviation extract_matches := (PDFParser.extract_matches year_padded).
Local Abbreviation extract_from_text := (PDFParser.extract_from_text year_padded finditer).
Local Abbreviation extract_tables_loop := (PDFParser.extract_tables_loop year_padded).
Local Abbreviation extract_from_page := (PDFParser.extract_from_page year_padded finditer).
Local Abbreviation extract_pages := (PDFParser.extract_pages year_padded finditer).
Local Abbreviation parse_pdf := (PDFParser.parse_pdf year_padded finditer).

Lemma nonempty_inv (o : option string) :
  PDFParser.nonempty o = true -> exists d, o = Some d /\ d <> EmptyString.
Proof.
  destruct o as [[|c d]|]; simpl; try discriminate.
  intros _; eexists; split; [reflexivity | discriminate].
Qed.

Lemma amount_truthy_inv (o : option Flt.float) :
  PDFParser.amount_truthy o = true ->
  exists a, o = Some a /\ Flt.truthy a = true.
Proof.
  destruct o as [a|]; simpl; [|discriminate].
  intros H; exists a; split; [reflexivity | exact H].
Qed.

(** What [parse_row] returns passed both checks. *)
Lemma parse_row_kept (r : PDFParser.row) (tr : PDFParser.transaction) :
  parse_row r = Some tr -> dated_and_nonzero tr.
Proof.
  unfold PDFParser.parse_row.
  destruct r as [|c0 [|c1 [|c2 rest]]]; try discriminate.
  destruct (PDFParser.cell_text c0) as [date_str|]; [|discriminate].
  destruct (PDFParser.cell_text c1) as [description|]; [|discriminate].
  destruct (PDFParser.cell_text c2) as [amount_str|]; [|discriminate].
  destruct (_ || _ || _); [discriminate|].
  destruct (PDFParser.parse_amount (Some amount_str)) as [a|]; [|discriminate].
  destruct (PDFParser.nonempty (PDFParser.parse_date year_padded date_str))
    eqn:Hd; simpl; [|discriminate].
  destruct (Flt.truthy a) eqn:Ha; simpl; [|discriminate].
  intros E; injection E as <-; split; simpl.
  - exact (nonempty_inv _ Hd).
  - exists a; split; [reflexivity | exact Ha].
Qed.

(** A row whose amount cell parses to a zero gives no transaction. *)
Lemma parse_row_zero_dropped (c0 c1 c2 : PDFParser.cell)
  (rest : PDFParser.row) (z : Flt.float) :
  PDFParser.parse_amount (PDFParser.cell_text c2) = Some z ->
  Flt.truthy z = false ->
  parse_row (c0 :: c1 :: c2 :: rest) = None.
Proof.
  intros Hz Ht; unfold PDFParser.parse_row.
  destruct (PDFParser.cell_text c0) as [date_str|]; [|reflexivity].
  destruct (PDFParser.cell_text c1) as [description|]; [|reflexivity].
  destruct (PDFParser.cell_text c2) as [amount_str|]; [|reflexivity].
  destruct (_ || _ || _); [reflexivity|].
  rewrite Hz, Ht, orb_true_r; reflexivity.
Qed.

Lemma extract_rows_appends (rows : list PDFParser.row) :
  forall self : PDFParser.t,
  exists new,
    PDFParser.transactions (extract_rows self rows)
    = (PDFParser.transactions self ++ new)%list
    /\ PDFParser.bank_type (extract_rows self rows) = PDFParser.bank_type self
    /\ Forall dated_and_nonzero new.
Proof.
  induction rows as [|r rows IH]; intros self;
    cbn [PDFParser.extract_rows].
  - exists []; rewrite app_nil_r; repeat split; constructor.
  - destruct (3 <=? List.length r)%nat; [|apply IH].
    destruct (parse_row r) as [tr|] eqn:E; [|apply IH].
    destruct (IH (PDFParser.append self tr)) as (new & H1 & H2 & H3).
    exists (tr :: new); rewrite H1, H2; simpl.
    rewrite <- app_assoc; repeat split.
    constructor; [exact (parse_row_kept _ _ E) | exact H3].
Qed.

Lemma text_transaction_amount (m : string * string * string * string) :
  PDFParser.amount (text_transaction m)
  = PDFParser.parse_amount (Some (snd (fst m))).
Proof. destruct m as [[[d s] a] b]; reflexivity. Qed.

Lemma extract_matches_appends (ms : list (string * string * string * string)) :
  forall self : PDFParser.t,
  exists new,
    PDFParser.transactions (extract_matches self ms)
    = (PDFParser.transactions self ++ new)%list
    /\ PDFParser.bank_type (extract_matches self ms) = PDFParser.bank_type self
    /\ Forall dated_and_nonzero new.
Proof.
  induction ms as [|m ms IH]; intros self;
    cbn [PDFParser.extract_matches].
  - exists []; rewrite app_nil_r; repeat split; constructor.
  - destruct (PDFParser.nonempty (PDFParser.date (text_transaction m))) eqn:Hd;
      simpl; [|apply IH].
    destruct (PDFParser.amount_truthy (PDFParser.amount (text_transaction m)))
      eqn:Ha; [|apply IH].
    destruct (IH (PDFParser.append self (text_transaction m)))
      as (new & H1 & H2 & H3).
    exists (text_transaction m :: new); rewrite H1, H2; simpl.
    rewrite <- app_assoc; repeat split.
    constructor; [|exact H3].
    split; [exact (nonempty_inv _ Hd) | exact (amount_truthy_inv _ Ha)].
Qed.

(** A match whose amount token parses to a zero is not appended. *)
Lemma text_match_zero_dropped (self : PDFParser.t)
  (date_str description amount balance : string) (z : Flt.float) :
  PDFParser.parse_amount (Some amount) = Some z ->
  Flt.truthy z = false ->
  extract_matches self [(date_str, description, amount, balance)] = self.
Proof.
  intros Hz Ht; cbn [PDFParser.extract_matches].
  rewrite text_transaction_amount; cbn [fst snd].
  rewrite Hz; cbn [PDFParser.amount_truthy].
  rewrite Ht, andb_false_r; reflexivity.
Qed.

Lemma extract_from_text_appends (self : PDFParser.t) (text : option string) :
  exists new,
    PDFParser.transactions (extract_from_text self text)
    = (PDFParser.transactions self ++ new)%list
    /\ PDFParser.bank_type (extract_from_text self text)
       = PDFParser.bank_type self
    /\ Forall dated_and_nonzero new.
Proof.
  destruct text as [text|]; simpl; [apply extract_matches_appends|].
  exists []; rewrite app_nil_r; repeat split; constructor.
Qed.

Lemma extract_tables_loop_appends (tables : list PDFParser.table) :
  forall self : PDFParser.t,
  exists new,
    PDFParser.transactions (extract_tables_loop self tables)
    = (PDFParser.transactions self ++ new)%list
    /\ PDFParser.bank_type (extract_tables_loop self tables)
       = PDFParser.bank_type self
    /\ Forall dated_and_nonzero new.
Proof.
  induction tables as [|tb tables IH]; intros self; simpl.
  - exists []; rewrite app_nil_r; repeat split; constructor.
  - destruct (extract_rows_appends (tl tb) self) as (n1 & A1 & A2 & A3).
    destruct (IH (extract_from_table self tb)) as (n2 & B1 & B2 & B3).
    unfold PDFParser.extract_from_table in *.
    exists (n1 ++ n2)%list; rewrite B1, B2, A1, A2, <- app_assoc.
    repeat split; apply Forall_app; split; assumption.
Qed.

Lemma extract_from_page_appends (self : PDFParser.t) (p : PDFParser.page) :
  exists new,
    PDFParser.transactions (fst (extract_from_page self p))
    = (PDFParser.transactions self ++ new)%list
    /\ PDFParser.bank_type (fst (extract_from_page self p))
       = PDFParser.bank_type self
    /\ Forall dated_and_nonzero new.
Proof.
  assert (Hnil : exists new,
             PDFParser.transactions self = (PDFParser.transactions self ++ new)%list
             /\ PDFParser.bank_type self = PDFParser.bank_type self
             /\ Forall dated_and_nonzero new).
  { exists []; rewrite app_nil_r; repeat split; constructor. }
  unfold PDFParser.extract_from_page.
  destruct (PDFParser.extract_text p) as [text|]; [|exact Hnil].
  destruct (PDFParser.extract_tables p) as [tables|]; [|exact Hnil].
  destruct (extract_tables_loop_appends tables self) as (n1 & A1 & A2 & A3).
  assert (Htext : exists new,
            PDFParser.transactions
              (extract_from_text (extract_tables_loop self tables) text)
            = (PDFParser.transactions self ++ new)%list
            /\ PDFParser.bank_type
                 (extract_from_text (extract_tables_loop self tables) text)
               = PDFParser.bank_type self
            /\ Forall dated_and_nonzero new).
  { destruct (extract_from_text_appends (extract_tables_loop self tables) text)
      as (n2 & B1 & B2 & B3).
    exists (n1 ++ n2)%list; rewrite B1, B2, A1, A2, <- app_assoc.
    repeat split; apply Forall_app; split; assumption. }
  destruct tables as [|tb tables]; [exact Htext|].
  set (after := extract_tables_loop self (tb :: tables)) in *.
  destruct (PDFParser.transactions after) eqn:E; [exact Htext|].
  exists n1; cbn [fst]; repeat split; try assumption; congruence.
Qed.

Lemma extract_pages_appends (pages : list PDFParser.page) :
  forall self : PDFParser.t,
  exists new,
    PDFParser.transactions (extract_pages self pages)
    = (PDFParser.transactions self ++ new)%list
    /\ Forall dated_and_nonzero new.
Proof.
  induction pages as [|p pages IH]; intros self; simpl.
  - exists []; rewrite app_nil_r; split; constructor.
  - destruct (extract_from_page_appends self p) as (n1 & A1 & _ & A3).
    destruct (IH (fst (extract_from_page self p))) as (n2 & B1 & B3).
    exists (n1 ++ n2)%list; rewrite B1, A1, <- app_assoc.
    split; [reflexivity | apply Forall_app; split; assumption].
Qed.

(** C10.  Whatever the parser appends, from a table row or from a match
    in the text, has a date that is a string and an amount that is a
    float other than zero: so for [parse_row], for [extract_from_table],
    for [extract_from_text] and for a whole [parse_pdf].  A row or a
    match whose amount token parses to a zero is dropped. *)
Theorem appended_transactions_dated_and_nonzero :
  (forall r tr, parse_row r = Some tr -> dated_and_nonzero tr)
  /\ (forall self tb, exists new,
        PDFParser.transactions (extract_from_table self tb)
        = (PDFParser.transactions self ++ new)%list
        /\ Forall dated_and_nonzero new)
  /\ (forall self text, exists new,
        PDFParser.transactions (extract_from_text self text)
        = (PDFParser.transactions self ++ new)%list
        /\ Forall dated_and_nonzero new)
  /\ (forall self pdf, exists new,
        PDFParser.transactions (fst (parse_pdf self pdf))
        = (PDFParser.transactions self ++ new)%list
        /\ Forall dated_and_nonzero new)
  /\ (forall c0 c1 c2 rest z,
        PDFParser.parse_amount (PDFParser.cell_text c2) = Some z ->
        Flt.truthy z = false ->
        parse_row (c0 :: c1 :: c2 :: rest) = None)
  /\ (forall self date_str description amount balance z,
        PDFParser.parse_amount (Some amount) = Some z ->
        Flt.truthy z = false ->
        extract_matches self [(date_str, description, amount, balance)] = self).
Proof.
  split; [exact parse_row_kept|].
  split.
  { intros self tb.
    destruct (extract_rows_appends (tl tb) self) as (new & H1 & _ & H3).
    exists new; split; assumption. }
  split.
  { intros self text.
    destruct (extract_from_text_appends self text) as (new & H1 & _ & H3).
    exists new; split; assumption. }
  split.
  { intros self [pages | message]; simpl.
    - apply (extract_pages_appends pages
               (PDFParser.detect_bank_type self pages)).
    - exists []; rewrite app_nil_r; split; constructor. }
  split; [exact parse_row_zero_dropped | exact text_match_zero_dropped].
Qed.

Lemma call_text_not_table (text : option string) (tables : list PDFParser.table) :
  ~ In (PDFParser.CallText text) (List.map PDFParser.CallTable tables).
Proof.
  intros H; apply in_map_iff in H as (tb & E & _); discriminate.
Qed.

(** C5.  On a page whose text and tables pdfplumber returns, every
    table is handed to the table extraction, and the text extraction
    runs after them exactly when the page has no tables or the list of
    transactions, as it stands after the tables of this page, is still
    empty.  That list is the instance's running list: when it already
    held a transaction before the page, a page with tables gets no text
    extraction, whatever its own tables gave. *)
Theorem text_extraction_runs_iff :
  forall (self : PDFParser.t) (p : PDFParser.page)
         (text : option string) (tables : list PDFParser.table),
    PDFParser.extract_text p = PDFParser.Returns text ->
    PDFParser.extract_tables p = PDFParser.Returns tables ->
    let after_tables := extract_tables_loop self tables in
    let text_runs :=
      tables = [] \/ PDFParser.transactions after_tables = [] in
    (In (PDFParser.CallText text) (snd (extract_from_page self p))
     <-> text_runs)
    /\ (text_runs ->
        extract_from_page self p
        = (extract_from_text after_tables text,
           (List.map PDFParser.CallTable tables ++ [PDFParser.CallText text])%list))
    /\ (~ text_runs ->
        extract_from_page self p
        = (after_tables, List.map PDFParser.CallTable tables))
    /\ (PDFParser.transactions self <> [] -> tables <> [] ->
        extract_from_page self p
        = (after_tables, List.map PDFParser.CallTable tables)).
Proof.
  intros self p text tables Ht Hb after_tables text_runs.
  assert (Hyes : text_runs ->
            extract_from_page self p
            = (extract_from_text after_tables text,
               (List.map PDFParser.CallTable tables ++ [PDFParser.CallText text])%list)).
  { intros Hr; unfold PDFParser.extract_from_page; rewrite Ht, Hb.
    fold after_tables.
    destruct Hr as [-> | Hr]; [reflexivity|].
    rewrite Hr; destruct tables; reflexivity. }
  assert (Hno : ~ text_runs ->
            extract_from_page self p
            = (after_tables, List.map PDFParser.CallTable tables)).
  { intros Hr; unfold PDFParser.extract_from_page; rewrite Ht, Hb.
    fold after_tables.
    destruct tables as [|tb tables]; [exfalso; apply Hr; left; reflexivity|].
    destruct (PDFParser.transactions after_tables) eqn:E;
      [exfalso; apply Hr; right; reflexivity | reflexivity]. }
  assert (Hdec : text_runs \/ ~ text_runs).
  { unfold text_runs; destruct tables; [left; left; reflexivity|].
    destruct (PDFParser.transactions after_tables);
      [left; right; reflexivity | right; intros [H | H]; discriminate]. }
  split; [|split; [exact Hyes | split; [exact Hno|]]].
  - split.
    + intros Hin; destruct Hdec as [Hr | Hr]; [exact Hr|].
      rewrite (Hno Hr) in Hin; simpl in Hin.
      exfalso; exact (call_text_not_table _ _ Hin).
    + intros Hr; rewrite (Hyes Hr); simpl.
      apply in_or_app; right; left; reflexivity.
  - intros Hself Htables; apply Hno; intros [H | H]; [contradiction|].
    destruct (extract_tables_loop_appends tables self) as (new & E & _).
    unfold after_tables in H; rewrite E in H.
    apply app_eq_nil in H as [H _]; contradiction.
Qed.

(** C3 does not hold of [parse_pdf], which never empties the list of
    transactions.  Parsing the salary statement twice with one instance:
    the first call returns its one transaction, the second call returns
    it twice and counts two. *)
Theorem parse_pdf_keeps_earlier_transactions :
  let first := parse_pdf PDFParser.init salary_statement in
  let second := parse_pdf (fst first) salary_statement in
  snd first = PDFParser.Success [salary_transaction] (Some "GENERIC") 1
  /\ snd second
     = PDFParser.Success [salary_transaction; salary_transaction]
                         (Some "GENERIC") 2
  /\ snd second <> snd first.
Proof.
  destruct year_padded; vm_compute; repeat split; discriminate.
Qed.

End ParserProperties.

(** A row and a match with the amount "0.00" are dropped, and the row
    of the salary statement is kept. *)
Lemma appended_transactions_witness :
  PDFParser.parse_row true
    [Some "15-01-2024"; Some "Salary"; Some "1,000.00"; Some "1,500.00"]
  = Some salary_transaction
  /\ dated_and_nonzero salary_transaction
  /\ PDFParser.parse_amount (PDFParser.cell_text (Some "0.00")) = Some Flt.zero
  /\ PDFParser.parse_row true [Some "15-01-2024"; Some "Fee waived"; Some "0.00"]
     = None
  /\ PDFParser.extract_matches true PDFParser.init
       [("15-01-2024", "Fee waived", "0.00", "1,500.00")]
     = PDFParser.init.
Proof.
  destruct (appended_transactions_dated_and_nonzero true no_match)
    as (Hrow & _ & _ & _ & Hzero & Hmatch).
  assert (E : PDFParser.parse_row true
                [Some "15-01-2024"; Some "Salary"; Some "1,000.00";
                 Some "1,500.00"] = Some salary_transaction)
    by (vm_compute; reflexivity).
  assert (Z0 : PDFParser.parse_amount (PDFParser.cell_text (Some "0.00"))
               = Some Flt.zero) by (vm_compute; reflexivity).
  split; [exact E|].
  split; [exact (Hrow _ _ E)|].
  split; [exact Z0|].
  split; [exact (Hzero _ _ _ _ _ Z0 eq_refl)|].
  exact (Hmatch PDFParser.init _ _ _ _ _ Z0 eq_refl).
Defined.

(** A page with a table that gives nothing, met by a fresh instance and
    by an instance that already holds a transaction. *)
Lemma text_extraction_runs_witness :
  let p := {| PDFParser.extract_text := PDFParser.Returns (Some "02/01/2024 ATM DR 500.00 1,000.00");
              PDFParser.extract_tables :=
                PDFParser.Returns [ [ [Some "Date"; Some "Description"; Some "Amount"] ] ] |} in
  let held := {| PDFParser.transactions := [salary_transaction];
                 PDFParser.bank_type := None |} in
  In (PDFParser.CallText (Some "02/01/2024 ATM DR 500.00 1,000.00"))
     (snd (PDFParser.extract_from_page true one_match PDFParser.init p))
  /\ PDFParser.extract_from_page true one_match held p
     = (held, [PDFParser.CallTable [ [Some "Date"; Some "Description"; Some "Amount"] ]]).
Proof.
  intros p held.
  destruct (text_extraction_runs_iff true one_match PDFParser.init p _ _
              eq_refl eq_refl) as (Hiff & _).
  destruct (text_extraction_runs_iff true one_match held p _ _
              eq_refl eq_refl) as (_ & _ & _ & Hheld).
  split.
  - apply Hiff; right; reflexivity.
  - apply Hheld; discriminate.
Defined.

(** ** The date normalizer *)

Lemma Z_range_In (lo len : nat) (v : Z) :
  Z.of_nat lo <= v < Z.of_nat lo + Z.of_nat len ->
  In v (List.map Z.of_nat (seq lo len)).
Proof.
  intros H; replace v with (Z.of_nat (Z.to_nat v)) by lia.
  apply in_map, in_seq; lia.
Qed.

(** Case analysis on an integer between two bounds. *)
Ltac enumerate v lo len :=
  let H := fresh "H" in
  assert (H : In v (List.map Z.of_nat (seq lo len)))
    by (apply Z_range_In; simpl; lia);
  cbv [seq List.map Z.of_nat Pos.of_succ_nat Pos.succ] in H;
  repeat (destruct H as [<- | H]); [.. | destruct H].

Lemma match_directive_alts (d : Dt.directive) (s : string) (f : Dt.datetime) :
  is_lit d = false ->
  Dt.match_directive d s f
  = List.map (fun a => (put d (fst a) f, snd a)) (alts d s).
Proof.
  destruct d; try discriminate; intros _; simpl;
    apply map_ext; intros [v r]; reflexivity.
Qed.

(** A directive followed by a separator. *)
Lemma match_two (d : Dt.directive) (sep' : ascii) (ds : list Dt.directive)
  (s : string) (f : Dt.datetime) :
  is_lit d = false ->
  Dt.match_directives (d :: Dt.Lit sep' :: ds) s f
  = flat_map (after_sep sep' d ds f) (alts d s).
Proof.
  intros Hd; cbn [Dt.match_directives].
  rewrite (match_directive_alts d s f Hd), flat_map_concat_map, map_map,
    <- flat_map_concat_map.
  apply flat_map_ext; intros [v r]; unfold after_sep; cbn [fst snd].
  destruct r as [|c r]; [reflexivity|].
  cbn [Dt.match_directive]; destruct (Ascii.eqb c sep'); cbn [flat_map];
    rewrite ?app_nil_r; reflexivity.
Qed.

(** Runs the alternatives of a directive on a field whose characters
    are known. *)
Ltac by_cases :=
  rewrite match_two by reflexivity;
  match goal with
  | |- context [flat_map _ (alts ?d ?s)] =>
      let l := eval cbv in (alts d s) in
      change (alts d s) with l
  end;
  cbv [flat_map after_sep fst snd];
  cbn [Ascii.eqb Bool.eqb andb Z.leb Z.eqb Z.compare Pos.compare
       Pos.compare_cont app];
  rewrite ?app_nil_r; reflexivity.

(** *** How each directive reads each kind of field

    A field is followed by the separator [sep] of the token; the
    directive is followed by the separator [sep'] of the format. *)

Section Fields.

Variables (sep sep' : ascii) (rest : string).
Variables (ds : list Dt.directive) (f : Dt.datetime).
Hypothesis Hsep : is_sep sep.
Hypothesis Hsep' : is_sep sep'.

Lemma d_reads_pad2 (v : Z) :
  1 <= v <= 31 ->
  Dt.match_directives (Dt.Dd :: Dt.Lit sep' :: ds) (Dt.pad2 v ++ String sep rest) f
  = if Ascii.eqb sep sep' then Dt.match_directives ds rest (put Dt.Dd v f) else [].
Proof.
  intros Hv; destruct Hsep as [-> | ->], Hsep' as [-> | ->];
    enumerate v 1%nat 31%nat; by_cases.
Qed.

Lemma m_reads_pad2 (v : Z) :
  1 <= v <= 31 ->
  Dt.match_directives (Dt.Dm :: Dt.Lit sep' :: ds) (Dt.pad2 v ++ String sep rest) f
  = if (v <=? 12) && Ascii.eqb sep sep'
    then Dt.match_directives ds rest (put Dt.Dm v f) else [].
Proof.
  intros Hv; destruct Hsep as [-> | ->], Hsep' as [-> | ->];
    enumerate v 1%nat 31%nat; by_cases.
Qed.

Lemma Y_rejects_pad2 (v : Z) :
  1 <= v <= 31 ->
  Dt.match_directives (Dt.DY :: Dt.Lit sep' :: ds) (Dt.pad2 v ++ String sep rest) f
  = [].
Proof.
  intros Hv; destruct Hsep as [-> | ->];
    enumerate v 1%nat 31%nat; destruct rest; by_cases.
Qed.

Lemma b_rejects_pad2 (v : Z) :
  1 <= v <= 31 ->
  Dt.match_directives (Dt.Db :: Dt.Lit sep' :: ds) (Dt.pad2 v ++ String sep rest) f
  = [].
Proof.
  intros Hv; destruct Hsep as [-> | ->];
    enumerate v 1%nat 31%nat; destruct rest as [|c [|c' r]]; by_cases.
Qed.

Lemma d_rejects_abbr (m : Z) :
  1 <= m <= 12 ->
  Dt.match_directives (Dt.Dd :: Dt.Lit sep' :: ds) (abbr m ++ String sep rest) f
  = [].
Proof. intros Hm; enumerate m 1%nat 12%nat; by_cases. Qed.

Lemma m_rejects_abbr (m : Z) :
  1 <= m <= 12 ->
  Dt.match_directives (Dt.Dm :: Dt.Lit sep' :: ds) (abbr m ++ String sep rest) f
  = [].
Proof. intros Hm; enumerate m 1%nat 12%nat; by_cases. Qed.

Lemma Y_rejects_abbr (m : Z) :
  1 <= m <= 12 ->
  Dt.match_directives (Dt.DY :: Dt.Lit sep' :: ds) (abbr m ++ String sep rest) f
  = [].
Proof. intros Hm; enumerate m 1%nat 12%nat; by_cases. Qed.

Lemma b_reads_abbr (m : Z) :
  1 <= m <= 12 ->
  Dt.match_directives (Dt.Db :: Dt.Lit sep' :: ds) (abbr m ++ String sep rest) f
  = if Ascii.eqb sep sep' then Dt.match_directives ds rest (put Dt.Db m f) else [].
Proof.
  intros Hm; destruct Hsep as [-> | ->], Hsep' as [-> | ->];
    enumerate m 1%nat 12%nat; by_cases.
Qed.

Lemma d_rejects_name (m : Z) :
  1 <= m <= 12 ->
  Dt.match_directives (Dt.Dd :: Dt.Lit sep' :: ds) (name m ++ String sep rest) f
  = [].
Proof. intros Hm; enumerate m 1%nat 12%nat; by_cases. Qed.

Lemma m_rejects_name (m : Z) :
  1 <= m <= 12 ->
  Dt.match_directives (Dt.Dm :: Dt.Lit sep' :: ds) (name m ++ String sep rest) f
  = [].
Proof. intros Hm; enumerate m 1%nat 12%nat; by_cases. Qed.

(** The abbreviation of a month is the start of its full name, and for
    May the whole of it. *)
Lemma b_reads_name (m : Z) :
  1 <= m <= 12 ->
  Dt.match_directives (Dt.Db :: Dt.Lit sep' :: ds) (name m ++ String sep rest) f
  = if (m =? 5) && Ascii.eqb sep sep'
    then Dt.match_directives ds rest (put Dt.Db m f) else [].
Proof.
  intros Hm; destruct Hsep as [-> | ->], Hsep' as [-> | ->];
    enumerate m 1%nat 12%nat; by_cases.
Qed.

Lemma B_reads_name (m : Z) :
  1 <= m <= 12 ->
  Dt.match_directives (Dt.DB :: Dt.Lit sep' :: ds) (name m ++ String sep rest) f
  = if Ascii.eqb sep sep' then Dt.match_directives ds rest (put Dt.DB m f) else [].
Proof.
  intros Hm; destruct Hsep as [-> | ->], Hsep' as [-> | ->];
    enumerate m 1%nat 12%nat; by_cases.
Qed.

End Fields.

(** *** The year *)

Lemma digit_char_digit (k : Z) :
  0 <= k <= 9 ->
  Str.isdigit (Dt.digit_char k) = true /\ Str.digit_val (Dt.digit_char k) = k.
Proof. intros H; enumerate k 0%nat 10%nat; split; reflexivity. Qed.

Lemma digit_not_sep (c s : ascii) :
  Str.isdigit c = true -> is_sep s -> Ascii.eqb c s = false.
Proof.
  intros Hc [-> | ->];
    destruct c as [[] [] [] [] [] [] [] []]; try discriminate Hc; reflexivity.
Qed.

Lemma digit_not_space (c : ascii) :
  Str.isdigit c = true -> Str.isspace c = false.
Proof.
  destruct c as [[] [] [] [] [] [] [] []]; intros Hc;
    try discriminate Hc; reflexivity.
Qed.

(** The four digits of a year. *)
Lemma pad4_digits (y : Z) :
  0 <= y <= 9999 ->
  exists c1 c2 c3 c4 : ascii,
    Dt.pad4 y = String c1 (String c2 (String c3 (String c4 EmptyString)))
    /\ Str.isdigit c1 = true /\ Str.isdigit c2 = true
    /\ Str.isdigit c3 = true /\ Str.isdigit c4 = true
    /\ ((Str.digit_val c1 * 10 + Str.digit_val c2) * 10 + Str.digit_val c3) * 10
       + Str.digit_val c4 = y.
Proof.
  intros Hy.
  assert (H1 : 0 <= y / 1000 <= 9) by (Z.div_mod_to_equations; lia).
  assert (H2 : 0 <= y / 100 mod 10 <= 9) by (Z.div_mod_to_equations; lia).
  assert (H3 : 0 <= y mod 100 / 10 <= 9) by (Z.div_mod_to_equations; lia).
  assert (H4 : 0 <= y mod 100 mod 10 <= 9) by (Z.div_mod_to_equations; lia).
  destruct (digit_char_digit _ H1) as [A1 B1].
  destruct (digit_char_digit _ H2) as [A2 B2].
  destruct (digit_char_digit _ H3) as [A3 B3].
  destruct (digit_char_digit _ H4) as [A4 B4].
  do 4 eexists; split; [reflexivity|].
  rewrite A1, A2, A3, A4, B1, B2, B3, B4.
  repeat split; Z.div_mod_to_equations; lia.
Qed.

Lemma alt_Y_pad4 (y : Z) (r : string) :
  0 <= y <= 9999 -> Dt.alt_Y (Dt.pad4 y ++ r) = [(y, r)].
Proof.
  intros Hy.
  destruct (pad4_digits y Hy) as (c1 & c2 & c3 & c4 & -> & D1 & D2 & D3 & D4 & V).
  cbn [append Dt.alt_Y]; rewrite D1, D2, D3, D4, V; reflexivity.
Qed.

Section YearField.

Variables (sep sep' : ascii) (rest : string).
Variables (ds : list Dt.directive) (f : Dt.datetime).
Hypothesis Hsep : is_sep sep.
Hypothesis Hsep' : is_sep sep'.

Lemma Y_reads_year (y : Z) :
  0 <= y <= 9999 ->
  Dt.match_directives (Dt.DY :: Dt.Lit sep' :: ds) (Dt.pad4 y ++ String sep rest) f
  = if Ascii.eqb sep sep' then Dt.match_directives ds rest (put Dt.DY y f) else [].
Proof.
  intros Hy; rewrite match_two by reflexivity.
  cbn [alts]; rewrite (alt_Y_pad4 y _ Hy).
  cbv [flat_map after_sep fst snd].
  destruct (Ascii.eqb sep sep'); rewrite ?app_nil_r; reflexivity.
Qed.

Lemma d_rejects_year (y : Z) :
  0 <= y <= 9999 ->
  Dt.match_directives (Dt.Dd :: Dt.Lit sep' :: ds) (Dt.pad4 y ++ String sep rest) f
  = [].
Proof.
  intros Hy; rewrite match_two by reflexivity.
  destruct (pad4_digits y Hy) as (c1 & c2 & c3 & c4 & -> & _ & D2 & D3 & _).
  pose proof (digit_not_sep c2 sep' D2 Hsep') as E2.
  pose proof (digit_not_sep c3 sep' D3 Hsep') as E3.
  cbn [alts append]; unfold Dt.alt_d.
  destruct (Dt.is_char "3" c1 && Str.in_range 48 49 c2);
    destruct (Str.in_range 49 50 c1 && Str.isdigit c2);
    destruct (Dt.is_char "0" c1 && Str.in_range 49 57 c2);
    destruct (Str.in_range 49 57 c1);
    destruct (Dt.is_char " " c1 && Str.in_range 49 57 c2);
    cbv [app flat_map after_sep fst snd]; rewrite ?E2, ?E3; reflexivity.
Qed.

Lemma m_rejects_year (y : Z) :
  0 <= y <= 9999 ->
  Dt.match_directives (Dt.Dm :: Dt.Lit sep' :: ds) (Dt.pad4 y ++ String sep rest) f
  = [].
Proof.
  intros Hy; rewrite match_two by reflexivity.
  destruct (pad4_digits y Hy) as (c1 & c2 & c3 & c4 & -> & _ & D2 & D3 & _).
  pose proof (digit_not_sep c2 sep' D2 Hsep') as E2.
  pose proof (digit_not_sep c3 sep' D3 Hsep') as E3.
  cbn [alts append]; unfold Dt.alt_m.
  destruct (Dt.is_char "1" c1 && Str.in_range 48 50 c2);
    destruct (Dt.is_char "0" c1 && Str.in_range 49 57 c2);
    destruct (Str.in_range 49 57 c1);
    cbv [app flat_map after_sep fst snd]; rewrite ?E2, ?E3; reflexivity.
Qed.

End YearField.

(** *** The last directive of a format *)

Lemma match_last (d : Dt.directive) (s : string) (f : Dt.datetime) :
  is_lit d = false ->
  Dt.match_directives [d] s f
  = List.map (fun a => (put d (fst a) f, snd a)) (alts d s).
Proof.
  intros Hd; cbn [Dt.match_directives].
  rewrite (match_directive_alts d s f Hd).
  induction (List.map _ (alts d s)) as [|[f' r] l IH]; [reflexivity|].
  cbn [flat_map app]; rewrite IH; reflexivity.
Qed.

Lemma Y_last (y : Z) (f : Dt.datetime) :
  0 <= y <= 9999 ->
  finish (Dt.match_directives [Dt.DY] (Dt.pad4 y) f)
  = if Dt.valid (put Dt.DY y f) then Some (put Dt.DY y f) else None.
Proof.
  intros Hy; rewrite match_last by reflexivity.
  cbn [alts]; rewrite <- (app_empty_r (Dt.pad4 y)), (alt_Y_pad4 y _ Hy).
  reflexivity.
Qed.

Lemma d_last (v : Z) (f : Dt.datetime) :
  1 <= v <= 31 ->
  finish (Dt.match_directives [Dt.Dd] (Dt.pad2 v) f)
  = if Dt.valid (put Dt.Dd v f) then Some (put Dt.Dd v f) else None.
Proof.
  intros Hv; rewrite match_last by reflexivity.
  enumerate v 1%nat 31%nat; reflexivity.
Qed.

(** *** Tokens have no whitespace to strip *)

Lemma no_space_app (a b : string) :
  no_space (a ++ b) = no_space a && no_space b.
Proof.
  induction a as [|c a IH]; [reflexivity|].
  simpl; rewrite IH, andb_assoc; reflexivity.
Qed.

Lemma rstrip_no_space (s : string) : no_space s = true -> Str.rstrip s = s.
Proof.
  induction s as [|c s IH]; [reflexivity|].
  simpl; intros H; apply andb_true_iff in H as [Hc Hs].
  apply negb_true_iff in Hc; rewrite (IH Hs), Hc, andb_false_r; reflexivity.
Qed.

Lemma strip_no_space (s : string) : no_space s = true -> Str.strip s = s.
Proof.
  intros H; unfold Str.strip.
  assert (E : Str.lstrip s = s).
  { destruct s as [|c s]; [reflexivity|].
    simpl in H |- *; apply andb_true_iff in H as [Hc _].
    apply negb_true_iff in Hc; rewrite Hc; reflexivity. }
  rewrite E; now apply rstrip_no_space.
Qed.

Lemma no_space_pad2 (v : Z) : 1 <= v <= 31 -> no_space (Dt.pad2 v) = true.
Proof. intros H; enumerate v 1%nat 31%nat; reflexivity. Qed.

Lemma no_space_pad4 (y : Z) : 0 <= y <= 9999 -> no_space (Dt.pad4 y) = true.
Proof.
  intros Hy.
  destruct (pad4_digits y Hy) as (c1 & c2 & c3 & c4 & -> & D1 & D2 & D3 & D4 & _).
  simpl; rewrite !digit_not_space by assumption; reflexivity.
Qed.

Lemma no_space_abbr (m : Z) : 1 <= m <= 12 -> no_space (abbr m) = true.
Proof. intros H; enumerate m 1%nat 12%nat; reflexivity. Qed.

Lemma no_space_name (m : Z) : 1 <= m <= 12 -> no_space (name m) = true.
Proof. intros H; enumerate m 1%nat 12%nat; reflexivity. Qed.

(** *** Dates *)

Lemma days_in_month_bounds (y m : Z) : 28 <= Dt.days_in_month y m <= 31.
Proof.
  unfold Dt.days_in_month.
  repeat match goal with
         | |- context [match ?x with _ => _ end] => destruct x
         end; lia.
Qed.

Lemma valid_bounds (y m d : Z) :
  Dt.valid {| Dt.year := y; Dt.month := m; Dt.day := d |} = true ->
  1 <= y <= 9999 /\ 1 <= m <= 12 /\ 1 <= d <= 31.
Proof.
  unfold Dt.valid; cbn [Dt.year Dt.month Dt.day]; intros H.
  repeat (apply andb_true_iff in H as [H ?]).
  pose proof (days_in_month_bounds y m); lia.
Qed.

Lemma valid_exchanged (y m d : Z) :
  1 <= y <= 9999 -> 1 <= m <= 12 -> 1 <= d <= 12 ->
  Dt.valid {| Dt.year := y; Dt.month := d; Dt.day := m |} = true.
Proof.
  intros Hy Hm Hd; unfold Dt.valid; cbn [Dt.year Dt.month Dt.day].
  pose proof (days_in_month_bounds y d).
  repeat (apply andb_true_iff; split); apply Z.leb_le; lia.
Qed.

Lemma unpadded_pad4 (y : Z) : 1000 <= y -> Dt.unpadded y = Dt.pad4 y.
Proof.
  intros H; unfold Dt.unpadded.
  destruct (y <? 10) eqn:E1; [apply Z.ltb_lt in E1; lia|].
  destruct (y <? 100) eqn:E2; [apply Z.ltb_lt in E2; lia|].
  destruct (y <? 1000) eqn:E3; [apply Z.ltb_lt in E3; lia|].
  reflexivity.
Qed.

(** *** The round trip *)

Lemma no_space_sep (c : ascii) (s : string) :
  is_sep c -> no_space (String c s) = no_space s.
Proof. intros [-> | ->]; reflexivity. Qed.

Ltac side :=
  first [ lia | left; reflexivity | right; reflexivity | assumption ].

Ltac token_no_space :=
  repeat first
    [ rewrite no_space_app | rewrite no_space_sep by side
    | rewrite no_space_pad2 by side | rewrite no_space_pad4 by side
    | rewrite no_space_abbr by side | rewrite no_space_name by side ];
  reflexivity.

(** One directive and its separator, or the last directive. *)
Ltac field_step :=
  first
    [ rewrite d_reads_pad2 by side | rewrite m_reads_pad2 by side
    | rewrite Y_rejects_pad2 by side | rewrite b_rejects_pad2 by side
    | rewrite d_rejects_abbr by side | rewrite m_rejects_abbr by side
    | rewrite Y_rejects_abbr by side | rewrite b_reads_abbr by side
    | rewrite d_rejects_name by side | rewrite m_rejects_name by side
    | rewrite b_reads_name by side | rewrite B_reads_name by side
    | rewrite Y_reads_year by side | rewrite d_rejects_year by side
    | rewrite m_rejects_year by side
    | rewrite Y_last by side | rewrite d_last by side ].

(** [strftime] and [strptime] with the directives of their format. *)
Ltac expose_formats :=
  repeat match goal with
    | |- context [Dt.strftime ?yp ?dt ?fmt] =>
        let ds := eval cbv in (Dt.directives fmt) in
        match ds with
        | Some ?l =>
            change (Dt.strftime yp dt fmt)
              with (String.concat EmptyString (List.map (Dt.render yp dt) l))
        end
    | |- context [Dt.strptime ?s ?fmt] =>
        let ds := eval cbv in (Dt.directives fmt) in
        match ds with
        | Some ?l =>
            change (Dt.strptime s fmt)
              with (finish (Dt.match_directives l s Dt.default))
        end
    end;
  cbn [String.concat List.map Dt.render append Dt.year Dt.month Dt.day];
  repeat match goal with
    | |- context [nth (Z.to_nat (?m - 1)) Dt.month_abbr EmptyString] =>
        change (nth (Z.to_nat (m - 1)) Dt.month_abbr EmptyString) with (abbr m)
    | |- context [nth (Z.to_nat (?m - 1)) Dt.month_name EmptyString] =>
        change (nth (Z.to_nat (m - 1)) Dt.month_name EmptyString) with (name m)
    end.

(** Every format of the list on the token it printed: the formats are
    tried in the order of the list, and the first that matches decides. *)
Lemma parse_date_of_strftime (year_padded : bool) (fmt : string) (y m d : Z) :
  let dt := {| Dt.year := y; Dt.month := m; Dt.day := d |} in
  In fmt PDFParser.date_formats ->
  Dt.valid dt = true ->
  year_padded = true \/ 1000 <= y ->
  PDFParser.parse_date year_padded (Dt.strftime year_padded dt fmt)
  = Some (iso (if month_first fmt && (d <=? 12) then exchanged dt else dt)).
Proof.
  intros dt Hin Hvalid Hyear.
  pose proof (valid_bounds y m d Hvalid) as (Hy & Hm & Hd).
  assert (HY : (if year_padded then Dt.pad4 y else Dt.unpadded y) = Dt.pad4 y).
  { destruct Hyear as [-> | Hyear]; [reflexivity|].
    destruct year_padded; [reflexivity | now apply unpadded_pad4]. }
  assert (Hm12 : (m <=? 12) = true) by (apply Z.leb_le; lia).
  unfold PDFParser.parse_date, dt in *.
  unfold PDFParser.date_formats in Hin |- *.
  cbn [PDFParser.try_formats].
  repeat (destruct Hin as [<- | Hin]); [.. | destruct Hin];
    cbn [month_first String.eqb Ascii.eqb Bool.eqb orb andb];
    expose_formats; rewrite ?HY;
    (rewrite strip_no_space by token_no_space);
    expose_formats;
    destruct (d <=? 12) eqn:Hd12; destruct (m =? 5) eqn:Hm5;
    repeat (field_step; rewrite ?Hd12, ?Hm12, ?Hm5;
            cbn [Ascii.eqb Bool.eqb andb finish]);
    cbn [put Dt.year Dt.month Dt.day Dt.default];
    rewrite ?valid_exchanged by (try apply Z.leb_le in Hd12; lia);
    rewrite ?Hvalid;
    expose_formats; rewrite ?HY; reflexivity.
Qed.

(** C4, as the code has it.  For every format of the list and every
    valid date whose year [strftime] prints with four digits, the date
    normalizer turns the date printed in that format into the canonical
    form of the same date, with one exception: printed month first
    ([%m-%d-%Y], [%m/%d/%Y]) with a day of 12 or less, the token is read
    by the day-first format that comes earlier in the list, and the
    result is the canonical form of the date with day and month
    exchanged; it is the original date only when day and month are the
    same number. *)
Theorem parse_date_round_trip :
  forall (year_padded : bool) (fmt : string) (dt : Dt.datetime),
    In fmt PDFParser.date_formats ->
    Dt.valid dt = true ->
    year_padded = true \/ 1000 <= Dt.year dt ->
    PDFParser.parse_date year_padded (Dt.strftime year_padded dt fmt)
    = Some (iso (if month_first fmt && (Dt.day dt <=? 12)
                 then exchanged dt else dt))
    /\ ((month_first fmt = true -> 12 < Dt.day dt \/ Dt.day dt = Dt.month dt) ->
        PDFParser.parse_date year_padded (Dt.strftime year_padded dt fmt)
        = Some (iso dt)).
Proof.
  intros year_padded fmt [y m d] Hin Hvalid Hyear.
  pose proof (parse_date_of_strftime year_padded fmt y m d Hin Hvalid Hyear) as E.
  cbn [Dt.year Dt.month Dt.day] in *.
  split; [exact E|].
  intros H; rewrite E.
  destruct (month_first fmt); [|reflexivity].
  destruct (H eq_refl) as [Hgt | Heq].
  - apply Z.leb_gt in Hgt; rewrite Hgt; reflexivity.
  - destruct (d <=? 12); [|reflexivity].
    unfold exchanged; cbn [Dt.year Dt.month Dt.day]; rewrite Heq; reflexivity.
Qed.

(** The last day of February of a leap year, printed with the month
    abbreviated. *)
Lemma parse_date_round_trip_witness :
  let dt := {| Dt.year := 2024; Dt.month := 2; Dt.day := 29 |} in
  Dt.strftime true dt "%d/%b/%Y" = "29/Feb/2024"
  /\ PDFParser.parse_date true "29/Feb/2024" = Some "2024-02-29".
Proof.
  intros dt.
  assert (Hin : In "%d/%b/%Y" PDFParser.date_formats)
    by (unfold PDFParser.date_formats; simpl; tauto).
  assert (Hvalid : Dt.valid dt = true) by reflexivity.
  assert (Hyear : true = true \/ 1000 <= Dt.year dt) by (right; simpl; lia).
  assert (Hfirst : month_first "%d/%b/%Y" = true ->
                   12 < Dt.day dt \/ Dt.day dt = Dt.month dt)
    by (intros H; discriminate H).
  destruct (parse_date_round_trip true "%d/%b/%Y" dt Hin Hvalid Hyear)
    as [_ H].
  split; [reflexivity | exact (H Hfirst)].
Defined.

(** C4 as the specification words it fails: the second of January 2024
    printed month first is "01-02-2024", which the first format of the
    list reads as the first of February. *)
Lemma parse_date_month_first_counterexample :
  let dt := {| Dt.year := 2024; Dt.month := 1; Dt.day := 2 |} in
  In "%m-%d-%Y" PDFParser.date_formats
  /\ Dt.valid dt = true
  /\ Dt.strftime true dt "%m-%d-%Y" = "01-02-2024"
  /\ PDFParser.parse_date true (Dt.strftime true dt "%m-%d-%Y")
     = Some "2024-02-01"
  /\ PDFParser.parse_date true (Dt.strftime true dt "%m-%d-%Y")
     <> Some (iso dt).
Proof.
  intros dt; split; [unfold PDFParser.date_formats; simpl; tauto|].
  vm_compute; repeat split; discriminate.
Qed.

(* ================================================================== *)
(** * Part VI.  Further properties                                     *)
(* ================================================================== *)

(** ** Cleaned descriptions *)

Lemma tidy_starts_with_space (s : string) :
  tidy_after true s = true -> Str.starts_with " " s = false.
Proof.
  destruct s as [|d s]; [reflexivity|].
  cbn [tidy_after Str.starts_with].
  rewrite (Ascii.eqb_sym " " d).
  destruct (Ascii.eqb d " "); [discriminate | reflexivity].
Qed.

Lemma tidy_no_double_space (b : bool) (s : string) :
  tidy_after b s = true -> Str.contains "  " s = false.
Proof.
  revert b; induction s as [|c s IH]; intros b H; [reflexivity|].
  cbn [Str.contains]; cbn [tidy_after] in H.
  change (Str.starts_with "  " (String c s))
    with (Ascii.eqb " " c && Str.starts_with " " s).
  rewrite (Ascii.eqb_sym " " c).
  destruct (Ascii.eqb c " ") eqn:Ec;
    apply andb_true_iff in H as [_ H]; rewrite (IH _ H), orb_false_r;
    [exact (tidy_starts_with_space s H) | reflexivity].
Qed.

Lemma tidy_spaces_only (b : bool) (s : string) (c : ascii) :
  tidy_after b s = true -> Str.has_char c s = true ->
  Str.isspace c = true -> c = " "%char.
Proof.
  revert b; induction s as [|a s IH]; intros b H Hc Hs; [discriminate|].
  simpl in H, Hc.
  destruct (Ascii.eqb a c) eqn:Eac.
  - apply Ascii.eqb_eq in Eac; subst a.
    destruct (Ascii.eqb c " ") eqn:Ec; [now apply Ascii.eqb_eq|].
    apply andb_true_iff in H as [H _]; rewrite Hs in H; discriminate.
  - simpl in Hc.
    destruct (Ascii.eqb a " "); apply andb_true_iff in H as [_ H];
      exact (IH _ H Hc Hs).
Qed.

Lemma clean_description_shape (s : string) :
  (String.length (DataProcessor.clean_description s) <= 100)%nat
  /\ (DataProcessor.clean_description s = EmptyString
      \/ tidy_after true (DataProcessor.clean_description s) = true).
Proof.
  rewrite clean_description_unfold.
  destruct (100 <? String.length (collapsed s))%nat eqn:E.
  - apply Nat.ltb_lt in E.
    destruct (collapsed_shape s) as [_ [H0 | Ht]];
      [rewrite H0 in E; simpl in E; lia|].
    split; [rewrite length_app, length_take by lia; simpl; lia|].
    right; now apply tidy_take_marker.
  - apply Nat.ltb_ge in E; split; [exact E|].
    destruct (collapsed_shape s) as [_ H]; exact H.
Qed.

(** X1.  A cleaned description is never longer than 100 characters,
    has no whitespace at either end, holds no two spaces in a row, and
    holds no whitespace character other than the space. *)
Theorem clean_description_bounded_and_tidy :
  forall s : string,
    let c := DataProcessor.clean_description s in
    (String.length c <= 100)%nat
    /\ Str.strip c = c
    /\ Str.contains "  " c = false
    /\ (forall a : ascii,
          Str.has_char a c = true -> Str.isspace a = true -> a = " "%char).
Proof.
  intros s c; unfold c.
  destruct (clean_description_shape s) as [Hlen [-> | Ht]].
  - repeat split; try reflexivity; [simpl; lia | discriminate].
  - repeat split.
    + exact Hlen.
    + now apply strip_tidy.
    + exact (tidy_no_double_space _ _ Ht).
    + intros a; exact (tidy_spaces_only _ _ a Ht).
Qed.

(** A tab between two words becomes a space. *)
Lemma clean_description_bounded_witness :
  let s := String "a" (String "009" (String "b" EmptyString)) in
  Str.has_char "009" s = true
  /\ Str.has_char "009" (DataProcessor.clean_description s) = false.
Proof.
  intros s; split; [reflexivity|].
  destruct (clean_description_bounded_and_tidy s) as (_ & _ & _ & H).
  destruct (Str.has_char "009" (DataProcessor.clean_description s)) eqn:E;
    [|reflexivity].
  pose proof (H "009"%char E eq_refl) as Habs; discriminate Habs.
Defined.

(** ** Validation *)

Lemma split_nil_lstrip (s : string) :
  Str.split s = [] -> Str.lstrip s = EmptyString.
Proof.
  induction s as [|c s IH]; [reflexivity|].
  destruct (Str.isspace c) eqn:Hc.
  - simpl; rewrite Hc; exact IH.
  - intros H; exfalso; exact (split_word_start c s Hc H).
Qed.

Lemma join_words_empty (ws : list string) :
  forallb is_word ws = true -> Str.join " " ws = EmptyString -> ws = [].
Proof.
  destruct ws as [|w ws]; [reflexivity|].
  simpl; intros H; apply andb_true_iff in H as [Hw _].
  unfold is_word in Hw; destruct w as [|c w]; [discriminate|].
  destruct ws; discriminate.
Qed.

(** A description that is not blank is not cleaned to nothing. *)
Lemma clean_description_nonempty (s : string) :
  Str.strip s <> EmptyString ->
  DataProcessor.clean_description s <> EmptyString.
Proof.
  intros Hs Hc.
  assert (E : collapsed s = EmptyString).
  { rewrite clean_description_unfold in Hc.
    destruct (100 <? String.length (collapsed s))%nat eqn:E; [|exact Hc].
    apply Nat.ltb_lt in E.
    destruct (collapsed s) as [|a t]; [reflexivity|].
    destruct t; simpl in Hc; discriminate. }
  destruct (collapsed_shape s) as [Hj _]; rewrite Hj in E.
  apply join_words_empty in E; [|apply split_words].
  apply Hs; unfold Str.strip; rewrite (split_nil_lstrip s E); reflexivity.
Qed.

Lemma validate_unfold (d : dict) (idx : Z) (s : string) (x : Flt.float) :
  truthy (get d "date") = true ->
  get d "description" = PStr s ->
  Str.strip s <> EmptyString ->
  py_float (get d "amount") = inr x ->
  DataProcessor.validate_and_clean_transaction d idx
  = (balance <-
       (if truthy (get d "balance")
        then (b <- py_float (get d "balance") ;; ok (Some b))
        else ok None) ;;
     ok {| DataProcessor.date := get d "date";
           DataProcessor.description := DataProcessor.clean_description s;
           DataProcessor.amount := Flt.abs x;
           DataProcessor.type := if Flt.ltb x Flt.zero then DEBIT else CREDIT;
           DataProcessor.balance := balance;
           DataProcessor.category_of :=
             DataProcessor.categorize_transaction
               (DataProcessor.clean_description s);
           DataProcessor.raw_amount := x;
           DataProcessor.row_num := idx + 2 |}).
Proof.
  intros Hd Hs Hne Hx.
  unfold DataProcessor.validate_and_clean_transaction.
  rewrite Hd, Hs; cbn [negb].
  assert (E : (Str.is_empty s || (Str.strip s =? ""))%string = false).
  { destruct s as [|c s]; [exfalso; apply Hne; reflexivity|].
    apply String.eqb_neq in Hne; rewrite Hne; reflexivity. }
  rewrite E; cbn [bind ok].
  destruct (get d "amount") eqn:Ha; try (rewrite Hx; reflexivity).
  discriminate Hx.
Qed.

(** What the input of a successful validation looks like. *)
Lemma validate_success_input (d : dict) (idx : Z) (p : DataProcessor.processed) :
  DataProcessor.validate_and_clean_transaction d idx = inr p ->
  truthy (get d "date") = true
  /\ (exists s, get d "description" = PStr s /\ Str.strip s <> EmptyString)
  /\ (exists x, py_float (get d "amount") = inr x)
  /\ (truthy (get d "balance") = true ->
      exists b, py_float (get d "balance") = inr b).
Proof.
  intros H.
  unfold DataProcessor.validate_and_clean_transaction in H.
  destruct (truthy (get d "date")) eqn:Hd; simpl in H; [|discriminate].
  split; [reflexivity|].
  destruct (get d "description") as [| b | z | y | s | l] eqn:Hs; simpl in H;
    try discriminate;
    try (match type of H with context [if ?c then _ else _] =>
           destruct c; discriminate end).
  destruct (Str.is_empty s || (Str.strip s =? ""))%string eqn:E; simpl in H;
    [discriminate|].
  apply orb_false_iff in E as [_ E]; apply String.eqb_neq in E.
  split; [exists s; split; [reflexivity | exact E]|].
  destruct (get d "amount") as [| b | z | y | a | l] eqn:Ha;
    try discriminate;
    (destruct (py_float _) as [e | x] eqn:Hx; simpl in H; [discriminate|];
     split; [exists x; reflexivity|];
     destruct (truthy (get d "balance")); [|discriminate];
     destruct (py_float (get d "balance")) as [e | b0]; simpl in H;
     [discriminate | intros _; exists b0; reflexivity]).
Qed.

(** X2.  Validation succeeds exactly when the date is true as a
    condition, the description is a string that is not blank, [float()]
    accepts the amount, and the balance is false as a condition or
    accepted by [float()]. *)
Theorem validate_succeeds_iff :
  forall (d : dict) (idx : Z),
    (exists p, DataProcessor.validate_and_clean_transaction d idx = inr p)
    <-> truthy (get d "date") = true
        /\ (exists s, get d "description" = PStr s
                      /\ Str.strip s <> EmptyString)
        /\ (exists x, py_float (get d "amount") = inr x)
        /\ (truthy (get d "balance") = true ->
            exists b, py_float (get d "balance") = inr b).
Proof.
  intros d idx; split.
  - intros [p H]; exact (validate_success_input d idx p H).
  - intros (Hd & (s & Hs & Hne) & (x & Hx) & Hb).
    rewrite (validate_unfold d idx s x Hd Hs Hne Hx).
    destruct (truthy (get d "balance")); [|eexists; reflexivity].
    destruct (Hb eq_refl) as [b ->]; eexists; reflexivity.
Qed.

(** A balance of 0 needs no conversion; an amount with a comma is not
    a number for [float()]. *)
Lemma validate_succeeds_witness :
  (exists p,
     DataProcessor.validate_and_clean_transaction
       [("date", PStr "2024-03-01"); ("description", PStr " Rent ");
        ("amount", PStr "-1200"); ("balance", PInt 0)] 7 = inr p)
  /\ ~ (exists p,
          DataProcessor.validate_and_clean_transaction
            [("date", PStr "2024-03-01"); ("description", PStr " Rent ");
             ("amount", PStr "-1,200"); ("balance", PInt 0)] 7 = inr p).
Proof.
  split.
  - apply validate_succeeds_iff.
    split; [reflexivity|].
    split; [exists " Rent "; split; [reflexivity | discriminate]|].
    split; [eexists; vm_compute; reflexivity|].
    intros H; discriminate H.
  - intros H; apply validate_succeeds_iff in H.
    destruct H as (_ & _ & (x & Hx) & _).
    vm_compute in Hx; discriminate Hx.
Defined.

(** X3.  The description of a processed transaction is the cleaned
    description of its input; it is never empty and never longer than
    100 characters. *)
Theorem processed_description_nonempty :
  forall (d : dict) (idx : Z) (p : DataProcessor.processed),
    DataProcessor.validate_and_clean_transaction d idx = inr p ->
    (exists s, get d "description" = PStr s
               /\ DataProcessor.description p
                  = DataProcessor.clean_description s)
    /\ DataProcessor.description p <> EmptyString
    /\ (String.length (DataProcessor.description p) <= 100)%nat.
Proof.
  intros d idx p H.
  destruct (validate_success_input d idx p H) as (_ & (s & Hs & Hne) & _).
  destruct (validate_inversion d idx p H)
    as (s' & x & _ & Hs' & _ & _ & Hd & _).
  rewrite Hs in Hs'; injection Hs' as <-.
  rewrite Hd.
  split; [exists s; split; [exact Hs | reflexivity]|].
  split; [now apply clean_description_nonempty|].
  apply clean_description_shape.
Qed.

Lemma processed_description_witness :
  exists p,
    DataProcessor.validate_and_clean_transaction
      [("date", PStr "2024-03-01"); ("description", PStr "  Rent   March ");
       ("amount", PInt (-1200))] 0 = inr p
    /\ DataProcessor.description p = "Rent March"
    /\ DataProcessor.description p <> EmptyString.
Proof.
  eexists; split; [vm_compute; reflexivity|].
  split; [reflexivity|].
  apply (processed_description_nonempty
           [("date", PStr "2024-03-01"); ("description", PStr "  Rent   March ");
            ("amount", PInt (-1200))] 0).
  vm_compute; reflexivity.
Defined.

(** X4.  The checks come in a fixed order and the first that fails
    decides the error: a date that is false as a condition gives
    "Missing date" whatever the other fields hold; with a date, a
    description that is false as a condition or a blank string gives
    "Missing description", and one that is true but no string fails on
    [strip]; with both, an amount of [None] gives "Missing amount". *)
Theorem validate_error_order :
  forall (d : dict) (idx : Z),
    (truthy (get d "date") = false ->
     DataProcessor.validate_and_clean_transaction d idx
     = inl (ValueError "Missing date"))
    /\ (truthy (get d "date") = true ->
        (truthy (get d "description") = false
         \/ exists s, get d "description" = PStr s
                      /\ Str.strip s = EmptyString) ->
        DataProcessor.validate_and_clean_transaction d idx
        = inl (ValueError "Missing description"))
    /\ (truthy (get d "date") = true ->
        truthy (get d "description") = true ->
        (forall s, get d "description" <> PStr s) ->
        DataProcessor.validate_and_clean_transaction d idx
        = inl (StripAttributeError (get d "description")))
    /\ (truthy (get d "date") = true ->
        (exists s, get d "description" = PStr s
                   /\ Str.strip s <> EmptyString) ->
        get d "amount" = PNone ->
        DataProcessor.validate_and_clean_transaction d idx
        = inl (ValueError "Missing amount")).
Proof.
  intros d idx; unfold DataProcessor.validate_and_clean_transaction.
  split; [intros ->; reflexivity|].
  split.
  { intros -> [H | (s & Hs & Hb)]; cbn [negb].
    - destruct (get d "description") as [| b | z | y | s | l];
        simpl in H |- *; try rewrite H; try reflexivity.
      destruct s; [reflexivity | discriminate].
    - rewrite Hs, Hb, orb_true_r; reflexivity. }
  split.
  { intros -> H Hn; cbn [negb].
    destruct (get d "description") as [| b | z | y | s | l];
      simpl in H |- *; try rewrite H; try reflexivity; try discriminate.
    exfalso; exact (Hn s eq_refl). }
  intros -> (s & Hs & Hb) Ha; cbn [negb].
  rewrite Hs, Ha.
  destruct s as [|c s]; [exfalso; apply Hb; reflexivity|].
  apply String.eqb_neq in Hb; rewrite Hb; reflexivity.
Qed.

Lemma validate_error_order_witness :
  DataProcessor.validate_and_clean_transaction
    [("description", PStr "   "); ("amount", PStr "abc")] 0
  = inl (ValueError "Missing date")
  /\ DataProcessor.validate_and_clean_transaction
       [("date", PStr "2024-01-01"); ("description", PStr "   ");
        ("amount", PStr "abc")] 0
     = inl (ValueError "Missing description")
  /\ DataProcessor.validate_and_clean_transaction
       [("date", PStr "2024-01-01"); ("description", PInt 5)] 0
     = inl (StripAttributeError (PInt 5))
  /\ DataProcessor.validate_and_clean_transaction
       [("date", PStr "2024-01-01"); ("description", PStr "Rent")] 0
     = inl (ValueError "Missing amount").
Proof.
  split; [|split; [|split]].
  - apply (validate_error_order
             [("description", PStr "   "); ("amount", PStr "abc")] 0).
    reflexivity.
  - apply (validate_error_order
             [("date", PStr "2024-01-01"); ("description", PStr "   ");
              ("amount", PStr "abc")] 0);
      [reflexivity | right; exists "   "; split; reflexivity].
  - apply (validate_error_order
             [("date", PStr "2024-01-01"); ("description", PInt 5)] 0);
      [reflexivity | reflexivity | intros s H; discriminate H].
  - apply (validate_error_order
             [("date", PStr "2024-01-01"); ("description", PStr "Rent")] 0);
      [reflexivity | exists "Rent"; split; [reflexivity | discriminate]
      | reflexivity].
Defined.

(** ** Batches *)

Lemma successes_ordered (batch : list dict) :
  forall (idx : Z) (i j : nat) (p q : DataProcessor.processed),
    (i < j)%nat ->
    nth_error (successes idx batch) i = Some p ->
    nth_error (successes idx batch) j = Some q ->
    DataProcessor.row_num p < DataProcessor.row_num q.
Proof.
  induction batch as [|tx rest IH]; intros idx i j p q Hij Hp Hq; simpl in *.
  - destruct i; discriminate.
  - destruct (DataProcessor.validate_and_clean_transaction tx idx) eqn:E;
      [exact (IH _ _ _ _ _ Hij Hp Hq)|].
    destruct j as [|j]; [lia|].
    destruct i as [|i].
    + injection Hp as <-; simpl in Hq.
      apply nth_error_In, successes_row_num in Hq.
      rewrite (validate_row_num _ _ _ E); lia.
    + simpl in Hp, Hq; apply (IH (idx + 1) i j); [lia | assumption..].
Qed.

Lemma failures_ordered (batch : list dict) :
  forall (idx : Z) (i j : nat) (e e' : DataProcessor.validation_error),
    (i < j)%nat ->
    nth_error (failures idx batch) i = Some e ->
    nth_error (failures idx batch) j = Some e' ->
    DataProcessor.index e < DataProcessor.index e'.
Proof.
  induction batch as [|tx rest IH]; intros idx i j e e' Hij He He'; simpl in *.
  - destruct i; discriminate.
  - destruct (DataProcessor.validate_and_clean_transaction tx idx) eqn:E;
      [|exact (IH _ _ _ _ _ Hij He He')].
    destruct j as [|j]; [lia|].
    destruct i as [|i].
    + injection He as <-; simpl in He' |- *.
      apply nth_error_In, failures_index in He'; lia.
    + simpl in He, He'; apply (IH (idx + 1) i j); [lia | assumption..].
Qed.

Lemma successes_origin (batch : list dict) :
  forall (idx : Z) (p : DataProcessor.processed),
    In p (successes idx batch) ->
    exists (k : nat) (tx : dict),
      nth_error batch k = Some tx
      /\ DataProcessor.validate_and_clean_transaction tx (idx + Z.of_nat k)
         = inr p.
Proof.
  induction batch as [|tx rest IH]; intros idx p H; simpl in H; [tauto|].
  assert (Hrest : In p (successes (idx + 1) rest) ->
            exists k tx',
              nth_error (tx :: rest) k = Some tx'
              /\ DataProcessor.validate_and_clean_transaction tx'
                   (idx + Z.of_nat k) = inr p).
  { intros H'; destruct (IH _ _ H') as (k & tx' & Hk & Hv).
    exists (S k), tx'; split; [exact Hk|].
    replace (idx + Z.of_nat (S k)) with (idx + 1 + Z.of_nat k) by lia.
    exact Hv. }
  destruct (DataProcessor.validate_and_clean_transaction tx idx) eqn:E;
    [exact (Hrest H)|].
  destruct H as [<- | H]; [|exact (Hrest H)].
  exists 0%nat, tx; split; [reflexivity|].
  replace (idx + Z.of_nat 0) with idx by lia; exact E.
Qed.

Lemma failures_origin (batch : list dict) :
  forall (idx : Z) (e : DataProcessor.validation_error),
    In e (failures idx batch) ->
    exists k : nat,
      nth_error batch k = Some (DataProcessor.transaction e)
      /\ DataProcessor.index e = idx + Z.of_nat k
      /\ DataProcessor.validate_and_clean_transaction
           (DataProcessor.transaction e) (idx + Z.of_nat k)
         = inl (DataProcessor.error e).
Proof.
  induction batch as [|tx rest IH]; intros idx e H; simpl in H; [tauto|].
  assert (Hrest : In e (failures (idx + 1) rest) ->
            exists k,
              nth_error (tx :: rest) k = Some (DataProcessor.transaction e)
              /\ DataProcessor.index e = idx + Z.of_nat k
              /\ DataProcessor.validate_and_clean_transaction
                   (DataProcessor.transaction e) (idx + Z.of_nat k)
                 = inl (DataProcessor.error e)).
  { intros H'; destruct (IH _ _ H') as (k & Hk & Hi & Hv).
    exists (S k); split; [exact Hk|].
    replace (idx + Z.of_nat (S k)) with (idx + 1 + Z.of_nat k) by lia.
    split; assumption. }
  destruct (DataProcessor.validate_and_clean_transaction tx idx) eqn:E;
    [|exact (Hrest H)].
  destruct H as [<- | H]; [|exact (Hrest H)].
  exists 0%nat; simpl.
  replace (idx + 0) with idx by lia; repeat split; exact E.
Qed.

(** X5.  The processed transactions and the validation errors keep
    the order of the input: row numbers grow strictly along the list of
    transactions and indices along the list of errors.  Every processed
    transaction is what validation made of the input item two places
    before its row number, and every error holds the input item at its
    index and the exception that item raised. *)
Theorem outputs_follow_input_order :
  forall (compensated : bool) (self : DataProcessor.t) (batch : list dict),
    let out := snd (DataProcessor.process_transactions compensated self batch) in
    (forall i j p q,
       (i < j)%nat ->
       nth_error (DataProcessor.transactions out) i = Some p ->
       nth_error (DataProcessor.transactions out) j = Some q ->
       DataProcessor.row_num p < DataProcessor.row_num q)
    /\ (forall i j e e',
          (i < j)%nat ->
          nth_error (DataProcessor.errors out) i = Some e ->
          nth_error (DataProcessor.errors out) j = Some e' ->
          DataProcessor.index e < DataProcessor.index e')
    /\ (forall p,
          In p (DataProcessor.transactions out) ->
          exists k tx,
            nth_error batch k = Some tx
            /\ DataProcessor.row_num p = Z.of_nat k + 2
            /\ DataProcessor.validate_and_clean_transaction tx (Z.of_nat k)
               = inr p)
    /\ (forall e,
          In e (DataProcessor.errors out) ->
          exists k,
            nth_error batch k = Some (DataProcessor.transaction e)
            /\ DataProcessor.index e = Z.of_nat k
            /\ DataProcessor.validate_and_clean_transaction
                 (DataProcessor.transaction e) (Z.of_nat k)
               = inl (DataProcessor.error e)).
Proof.
  intros compensated self batch out.
  destruct (process_transactions_spec compensated self batch) as [Hs Hf].
  unfold out; rewrite Hs, Hf.
  split; [exact (successes_ordered batch 0)|].
  split; [exact (failures_ordered batch 0)|].
  split.
  - intros p Hp; destruct (successes_origin batch 0 p Hp) as (k & tx & Hk & Hv).
    exists k, tx; split; [exact Hk|]; split; [|exact Hv].
    rewrite (validate_row_num _ _ _ Hv); lia.
  - intros e He; exact (failures_origin batch 0 e He).
Qed.

Lemma outputs_follow_input_order_witness :
  let batch :=
    [ [("date", PStr "2024-01-01"); ("description", PStr "Salary");
       ("amount", PInt 1000)];
      [("date", PStr "2024-01-02"); ("description", PStr "Rent")];
      [("date", PStr "2024-01-03"); ("description", PStr "Cafe");
       ("amount", PInt (-5))] ] in
  let out := snd (DataProcessor.process_transactions true DataProcessor.init batch) in
  exists p q,
    nth_error (DataProcessor.transactions out) 0 = Some p
    /\ nth_error (DataProcessor.transactions out) 1 = Some q
    /\ DataProcessor.row_num p = 2 /\ DataProcessor.row_num q = 4
    /\ DataProcessor.row_num p < DataProcessor.row_num q.
Proof.
  intros batch out.
  destruct (outputs_follow_input_order true DataProcessor.init batch) as (H & _).
  do 2 eexists.
  split; [vm_compute; reflexivity|].
  split; [vm_compute; reflexivity|].
  split; [reflexivity|]. split; [reflexivity|].
  apply (H 0%nat 1%nat); [lia | vm_compute; reflexivity..].
Defined.

(** ** The summary, continued *)

Lemma balance_if_truthy_nonzero (p : DataProcessor.processed) (z : Flt.float) :
  DataProcessor.balance_if_truthy p = Some z -> Flt.truthy z = true.
Proof.
  unfold DataProcessor.balance_if_truthy.
  destruct (DataProcessor.balance p) as [b|]; [|discriminate].
  destruct (Flt.truthy b) eqn:E; [|discriminate].
  intros H; injection H as <-; exact E.
Qed.

(** X6.  The opening balance is the balance of the first transaction
    that was processed, the closing balance that of the last, whatever
    items failed before or after them; a balance that is absent or zero
    is reported as [None], so neither is ever a zero. *)
Theorem summary_balances_first_last :
  forall (compensated : bool) (self : DataProcessor.t) (batch : list dict),
    let out := snd (DataProcessor.process_transactions compensated self batch) in
    let ts := DataProcessor.transactions out in
    let s := DataProcessor.summary_of out in
    (forall first rest,
       ts = first :: rest ->
       DataProcessor.opening_balance s = DataProcessor.balance_if_truthy first
       /\ DataProcessor.closing_balance s
          = DataProcessor.balance_if_truthy (List.last ts first))
    /\ (forall z, DataProcessor.opening_balance s = Some z ->
                  Flt.truthy z = true)
    /\ (forall z, DataProcessor.closing_balance s = Some z ->
                  Flt.truthy z = true).
Proof.
  intros compensated self batch out ts s.
  assert (Hs : s = DataProcessor.generate_summary compensated
                     {| DataProcessor.processed_transactions := ts;
                        DataProcessor.validation_errors :=
                          DataProcessor.errors out |}).
  { unfold s, ts, out, DataProcessor.process_transactions; simpl.
    destruct (DataProcessor.process_loop _ 0 batch); reflexivity. }
  rewrite Hs; unfold DataProcessor.generate_summary; simpl.
  destruct ts as [|first rest].
  - split; [intros ? ? H; discriminate H|]; split; intros z H; discriminate H.
  - simpl; split.
    + intros f r H; injection H as <- <-; split; reflexivity.
    + split; intros z H; exact (balance_if_truthy_nonzero _ _ H).
Qed.

(** The first item fails, the second has the balance 0, the third the
    balance 250. *)
Lemma summary_balances_witness :
  let batch :=
    [ [("date", PStr "2024-01-01"); ("amount", PInt 10);
       ("balance", PInt 900)];
      [("date", PStr "2024-01-02"); ("description", PStr "Rent");
       ("amount", PInt (-100)); ("balance", PStr "0")];
      [("date", PStr "2024-01-03"); ("description", PStr "Cafe");
       ("amount", PInt (-5)); ("balance", PInt 250)] ] in
  let s := DataProcessor.summary_of
             (snd (DataProcessor.process_transactions true DataProcessor.init batch)) in
  DataProcessor.opening_balance s = None
  /\ DataProcessor.closing_balance s = Some (Flt.of_Z 250)
  /\ Flt.truthy (Flt.of_Z 250) = true.
Proof.
  intros batch s.
  destruct (summary_balances_first_last true DataProcessor.init batch)
    as (_ & _ & H).
  assert (E : DataProcessor.closing_balance s = Some (Flt.of_Z 250))
    by (vm_compute; reflexivity).
  split; [vm_compute; reflexivity|].
  split; [exact E | exact (H _ E)].
Defined.

Lemma binary_round_aux_neg (s : bool) (m e : Z) (l : location) :
  binary_round_aux Flt.prec Flt.emax (negb s) m e l
  = Flt.neg (binary_round_aux Flt.prec Flt.emax s m e l).
Proof.
  unfold binary_round_aux.
  destruct (shr_fexp Flt.prec Flt.emax m e l) as [mrs' e'].
  destruct (shr_fexp Flt.prec Flt.emax _ e' loc_Exact) as [mrs'' e''].
  destruct (shr_m mrs''); try reflexivity.
  destruct (e'' <=? Flt.emax - Flt.prec); reflexivity.
Qed.

Lemma of_decimal_neg (s : bool) (d e : Z) :
  Flt.of_decimal (negb s) d e = Flt.neg (Flt.of_decimal s d e).
Proof.
  unfold Flt.of_decimal.
  destruct d as [|p|p]; try reflexivity.
  destruct (0 <=? e).
  - unfold binary_round.
    destruct (shl_align _ 0 _) as [mz ez]; apply binary_round_aux_neg.
  - destruct (SFdiv_core_binary Flt.prec Flt.emax (Z.pos p) 0 (10 ^ (- e)) 0)
      as [[q e'] l].
    apply binary_round_aux_neg.
Qed.

(** Rounding to two decimals is symmetric about zero. *)
Lemma round2_neg (x : Flt.float) :
  Flt.round2 (Flt.neg x) = Flt.neg (Flt.round2 x).
Proof.
  destruct x as [s | s | | s m e]; try reflexivity.
  apply of_decimal_neg.
Qed.

Lemma sub_zero_r (x : Flt.float) : Flt.sub x (Flt.of_Z 0) = x.
Proof. destruct x as [[] | [] | | s m e]; reflexivity. Qed.

(** X7.  When no debit was processed [net_amount] is [total_credits],
    and when no credit was processed it is [total_debits] with the sign
    turned, or both are the float zero. *)
Theorem net_amount_one_sided :
  forall (compensated : bool) (self : DataProcessor.t) (batch : list dict),
    let out := snd (DataProcessor.process_transactions compensated self batch) in
    let ts := DataProcessor.transactions out in
    let s := DataProcessor.summary_of out in
    (amounts_of DEBIT ts = [] ->
     DataProcessor.net_amount s = DataProcessor.total_credits s)
    /\ (amounts_of CREDIT ts = [] ->
        DataProcessor.net_amount s = num_neg (DataProcessor.total_debits s)
        \/ (DataProcessor.total_debits s = NFloat Flt.zero
            /\ DataProcessor.net_amount s = NFloat Flt.zero)).
Proof.
  intros compensated self batch out ts s.
  assert (Hts : ts = successes 0 batch)
    by apply (process_transactions_spec compensated self batch).
  assert (Hself : exists self',
             s = DataProcessor.generate_summary compensated self'
             /\ DataProcessor.processed_transactions self' = ts).
  { eexists; split; reflexivity. }
  destruct Hself as (self' & Hs & Hp).
  pose proof (generate_summary_fields compensated self') as (Hc & Hd & Hn).
  rewrite Hp, <- Hs in Hc, Hd, Hn.
  rewrite Hc, Hd, Hn; split.
  - intros ->; cbn [py_sum].
    destruct (py_sum compensated (amounts_of CREDIT ts)) as [z | x]; cbn [num_sub].
    + rewrite Z.sub_0_r; reflexivity.
    + rewrite sub_zero_r; reflexivity.
  - intros ->; cbn [py_sum].
    destruct (py_sum compensated (amounts_of DEBIT ts)) as [z | x];
      [left; reflexivity|].
    cbn [num_sub num_round2 num_neg].
    destruct x as [[] | sx | | sx m e].
    + left; reflexivity.
    + right; split; reflexivity.
    + left; reflexivity.
    + left; reflexivity.
    + left; rewrite <- round2_neg; reflexivity.
Qed.

Lemma net_amount_one_sided_witness :
  let batch :=
    [ [("date", PStr "2024-01-02"); ("description", PStr "Rent");
       ("amount", PFloat (Flt.of_decimal true 120050 (-2)))];
      [("date", PStr "2024-01-03"); ("description", PStr "Cafe");
       ("amount", PFloat (Flt.of_decimal true 525 (-2)))] ] in
  let s := DataProcessor.summary_of
             (snd (DataProcessor.process_transactions true DataProcessor.init batch)) in
  DataProcessor.total_debits s = NFloat (Flt.of_decimal false 120575 (-2))
  /\ DataProcessor.net_amount s = NFloat (Flt.of_decimal true 120575 (-2)).
Proof.
  intros batch s.
  destruct (net_amount_one_sided true DataProcessor.init batch) as (_ & H).
  assert (E : DataProcessor.total_debits s
              = NFloat (Flt.of_decimal false 120575 (-2)))
    by (vm_compute; reflexivity).
  split; [exact E|].
  destruct (H eq_refl) as [Hn | [Hz _]].
  - unfold s in *; rewrite Hn, E; vm_compute; reflexivity.
  - unfold s in *; rewrite E in Hz; vm_compute in Hz; discriminate Hz.
Defined.

(** ** The amount normalizer, continued *)

Lemma remove_char_idem (c : ascii) (s : string) :
  Str.remove_char c (Str.remove_char c s) = Str.remove_char c s.
Proof.
  induction s as [|a s IH]; [reflexivity|].
  simpl; destruct (Ascii.eqb a c) eqn:E; [exact IH|].
  simpl; rewrite E, IH; reflexivity.
Qed.

(** [parse_amount] looks at the token only through the token without
    its commas. *)
Lemma parse_amount_remove (s : string) :
  PDFParser.parse_amount (Some s)
  = PDFParser.parse_amount (Some (Str.remove_char "," s)).
Proof.
  unfold PDFParser.parse_amount; rewrite remove_char_idem.
  destruct s as [|a s]; [reflexivity|].
  cbn [Str.is_empty].
  destruct (Str.remove_char "," (String a s)) eqn:E; reflexivity.
Qed.

(** X8.  Commas count for nothing, wherever they stand: two tokens
    that are the same once their commas are taken out give the same
    result. *)
Theorem parse_amount_ignores_commas :
  forall s s' : string,
    Str.remove_char "," s = Str.remove_char "," s' ->
    PDFParser.parse_amount (Some s) = PDFParser.parse_amount (Some s').
Proof.
  intros s s' H.
  rewrite (parse_amount_remove s), (parse_amount_remove s'), H; reflexivity.
Qed.

Lemma parse_amount_ignores_commas_witness :
  PDFParser.parse_amount (Some "1,2,,34.5,") = Some (Flt.of_decimal false 12345 (-1))
  /\ PDFParser.parse_amount (Some "1234.5") = Some (Flt.of_decimal false 12345 (-1)).
Proof.
  assert (E : PDFParser.parse_amount (Some "1,2,,34.5,")
              = PDFParser.parse_amount (Some "1234.5"))
    by (apply parse_amount_ignores_commas; reflexivity).
  split; [rewrite E|]; vm_compute; reflexivity.
Defined.

Lemma has_char_remove_other (c c' : ascii) (s : string) :
  Str.has_char c s = false -> Str.has_char c (Str.remove_char c' s) = false.
Proof.
  induction s as [|a s IH]; intros H; [reflexivity|].
  simpl in H |- *; apply orb_false_iff in H as [Ha Hs].
  destruct (Ascii.eqb a c'); [exact (IH Hs)|].
  simpl; rewrite Ha; exact (IH Hs).
Qed.

Lemma has_char_lstrip (c : ascii) (s : string) :
  Str.has_char c s = false -> Str.has_char c (Str.lstrip s) = false.
Proof.
  induction s as [|a s IH]; intros H; [reflexivity|].
  simpl; destruct (Str.isspace a); [|exact H].
  simpl in H; apply orb_false_iff in H as [_ Hs]; exact (IH Hs).
Qed.

Lemma has_char_rstrip (c : ascii) (s : string) :
  Str.has_char c s = false -> Str.has_char c (Str.rstrip s) = false.
Proof.
  induction s as [|a s IH]; intros H; [reflexivity|].
  simpl in H |- *; apply orb_false_iff in H as [Ha Hs].
  destruct (Str.is_empty (Str.rstrip s) && Str.isspace a); [reflexivity|].
  simpl; rewrite Ha; exact (IH Hs).
Qed.

Lemma has_char_strip (c : ascii) (s : string) :
  Str.has_char c s = false -> Str.has_char c (Str.strip s) = false.
Proof. intros H; apply has_char_rstrip, has_char_lstrip, H. Qed.

Lemma parse_amount_sign_clear (s : string) (r : Flt.float) :
  Str.has_char "-" s = false ->
  PDFParser.parse_amount (Some s) = Some r -> sign_clear r.
Proof.
  intros Hc; unfold PDFParser.parse_amount.
  destruct (Str.is_empty s); [discriminate|].
  rewrite (has_char_strip _ _ (has_char_remove_other "-" "," s Hc)).
  destruct (Flt.of_string _) as [x|] eqn:Ex; [|discriminate].
  intros H; injection H as <-.
  apply round2_sign_clear, (of_string_sign_clear _ _ (has_char_strip _ _
    (has_char_remove_other "-" "," s Hc)) Ex).
Qed.

(** X9.  An amount below zero comes from a minus sign only: when the
    result of [parse_amount] is negative, the token holds a "-". *)
Theorem parse_amount_negative_needs_minus :
  forall (s : string) (r : Flt.float),
    PDFParser.parse_amount (Some s) = Some r ->
    Flt.ltb r Flt.zero = true ->
    Str.has_char "-" s = true.
Proof.
  intros s r Hr Hneg.
  destruct (Str.has_char "-" s) eqn:Hc; [reflexivity|].
  rewrite (sign_clear_never_negative r (parse_amount_sign_clear s r Hc Hr))
    in Hneg.
  discriminate Hneg.
Qed.

Lemma parse_amount_negative_witness :
  PDFParser.parse_amount (Some "(45.10-)") = None
  /\ PDFParser.parse_amount (Some "45.10-") = Some (Flt.of_decimal true 4510 (-2))
  /\ Str.has_char "-" "45.10-" = true.
Proof.
  assert (E : PDFParser.parse_amount (Some "45.10-")
              = Some (Flt.of_decimal true 4510 (-2)))
    by (vm_compute; reflexivity).
  split; [vm_compute; reflexivity|].
  split; [exact E|].
  apply (parse_amount_negative_needs_minus "45.10-" _ E).
  vm_compute; reflexivity.
Defined.

(** ** The date normalizer, continued *)

Lemma finish_valid (l : list (Dt.datetime * string)) (dt : Dt.datetime) :
  finish l = Some dt ->
  Dt.valid dt = true /\ exists tl, l = (dt, EmptyString) :: tl.
Proof.
  destruct l as [|[f rest] tl]; [discriminate|].
  simpl; destruct rest; simpl; [|discriminate].
  destruct (Dt.valid f) eqn:E; [|discriminate].
  intros H; injection H as <-; split; [exact E | exists tl; reflexivity].
Qed.

Lemma strptime_finish (s fmt : string) :
  Dt.strptime s fmt
  = match Dt.directives fmt with
    | Some ds => finish (Dt.match_directives ds s Dt.default)
    | None => None
    end.
Proof. reflexivity. Qed.

Lemma try_formats_some (year_padded : bool) (s : string) (fmts : list string)
  (r : string) :
  PDFParser.try_formats year_padded s fmts = Some r ->
  exists fmt dt,
    In fmt fmts /\ Dt.strptime (Str.strip s) fmt = Some dt
    /\ r = Dt.strftime year_padded dt "%Y-%m-%d".
Proof.
  induction fmts as [|fmt fmts IH]; [discriminate|].
  simpl; destruct (Dt.strptime (Str.strip s) fmt) as [dt|] eqn:E.
  - intros H; injection H as <-; exists fmt, dt; auto.
  - intros H; destruct (IH H) as (f & dt & Hin & Hs & Hr).
    exists f, dt; auto.
Qed.

Lemma iso_length (dt : Dt.datetime) : String.length (iso dt) = 10%nat.
Proof. reflexivity. Qed.

(** X10.  Whatever [parse_date] returns is a valid calendar date
    printed as year-month-day; when the year is printed with four
    digits it is the ten characters of the canonical form. *)
Theorem parse_date_returns_valid_iso :
  forall (year_padded : bool) (s r : string),
    PDFParser.parse_date year_padded s = Some r ->
    exists dt : Dt.datetime,
      Dt.valid dt = true
      /\ r = Dt.strftime year_padded dt "%Y-%m-%d"
      /\ (year_padded = true \/ 1000 <= Dt.year dt ->
          r = iso dt /\ String.length r = 10%nat).
Proof.
  intros year_padded s r H.
  destruct (try_formats_some _ _ _ _ H) as (fmt & dt & _ & Hs & Hr).
  rewrite strptime_finish in Hs.
  destruct (Dt.directives fmt) as [ds|]; [|discriminate].
  apply finish_valid in Hs as [Hv _].
  exists dt; split; [exact Hv|]; split; [exact Hr|].
  intros Hy.
  assert (E : r = iso dt).
  { rewrite Hr; unfold Dt.strftime, iso; cbn.
    destruct Hy as [-> | Hy]; [reflexivity|].
    destruct year_padded; [reflexivity|].
    rewrite unpadded_pad4 by exact Hy; reflexivity. }
  split; [exact E | rewrite E; apply iso_length].
Qed.

Lemma parse_date_returns_valid_iso_witness :
  PDFParser.parse_date true " 3/Mar/2024 " = Some "2024-03-03"
  /\ exists dt : Dt.datetime,
       Dt.valid dt = true
       /\ "2024-03-03" = Dt.strftime true dt "%Y-%m-%d"
       /\ (true = true \/ 1000 <= Dt.year dt ->
           "2024-03-03" = iso dt /\ String.length "2024-03-03" = 10%nat).
Proof.
  assert (E : PDFParser.parse_date true " 3/Mar/2024 " = Some "2024-03-03")
    by (vm_compute; reflexivity).
  split; [exact E | exact (parse_date_returns_valid_iso true _ _ E)].
Defined.

Lemma has_year_cons (a : ascii) (s : string) :
  has_year (String a s) = starts_with_year (String a s) || has_year s.
Proof. reflexivity. Qed.

Lemma has_year_drop (n : nat) (s : string) :
  has_year (Dt.drop n s) = true -> has_year s = true.
Proof.
  revert s; induction n as [|n IH]; intros s H; [exact H|].
  destruct s as [|a s]; [exact H|].
  rewrite has_year_cons, (IH s H); apply orb_true_r.
Qed.

Lemma starts_with_year_app (p t : string) :
  starts_with_year p = true -> starts_with_year (p ++ t) = true.
Proof.
  destruct p as [|a [|b [|c [|d p]]]]; try discriminate.
  intros H; exact H.
Qed.

Lemma has_year_app (p t : string) :
  has_year p = true -> has_year (p ++ t) = true.
Proof.
  induction p as [|a p IH]; [discriminate|].
  change (String a p ++ t)%string with (String a (p ++ t)).
  rewrite !has_year_cons; intros H.
  apply orb_true_iff in H as [H | H].
  - change (String a (p ++ t)) with (String a p ++ t)%string.
    rewrite (starts_with_year_app _ t H); reflexivity.
  - rewrite (IH H); apply orb_true_r.
Qed.

Lemma rstrip_prefix (s : string) : exists t, s = (Str.rstrip s ++ t)%string.
Proof.
  induction s as [|a s [t IH]]; [exists EmptyString; reflexivity|].
  cbn [Str.rstrip].
  destruct (Str.is_empty (Str.rstrip s) && Str.isspace a).
  - exists (String a s); reflexivity.
  - exists t; simpl; rewrite <- IH; reflexivity.
Qed.

Lemma lstrip_drop (s : string) : exists n, Str.lstrip s = Dt.drop n s.
Proof.
  induction s as [|a s [n IH]]; [exists O; reflexivity|].
  cbn [Str.lstrip]; destruct (Str.isspace a).
  - exists (S n); exact IH.
  - exists O; reflexivity.
Qed.

Lemma has_year_strip (s : string) :
  has_year (Str.strip s) = true -> has_year s = true.
Proof.
  unfold Str.strip; intros H.
  destruct (lstrip_drop s) as [n En].
  apply (has_year_drop n); rewrite <- En.
  destruct (rstrip_prefix (Str.lstrip s)) as [t Et].
  rewrite Et; apply has_year_app, H.
Qed.

Lemma alt_Y_year (s : string) (x : Z * string) :
  In x (Dt.alt_Y s) -> starts_with_year s = true.
Proof.
  destruct s as [|a [|b [|c [|d s]]]]; try contradiction.
  unfold Dt.alt_Y, starts_with_year.
  destruct (Str.isdigit a && Str.isdigit b && Str.isdigit c && Str.isdigit d);
    [reflexivity | contradiction].
Qed.

Ltac split_ifs :=
  repeat match goal with
         | H : context [if ?c then _ else _] |- _ => destruct c
         end.

Ltac pick_alt H :=
  simpl in H;
  repeat (destruct H as [H | H]; [injection H as _ <-|]);
  try contradiction.

Lemma alt_d_drop (s : string) (v : Z) (r : string) :
  In (v, r) (Dt.alt_d s) -> exists n, r = Dt.drop n s.
Proof.
  destruct s as [|a [|b s]]; unfold Dt.alt_d; intros H; split_ifs;
    pick_alt H;
    first [now exists 1%nat | now exists 2%nat].
Qed.

Lemma alt_m_drop (s : string) (v : Z) (r : string) :
  In (v, r) (Dt.alt_m s) -> exists n, r = Dt.drop n s.
Proof.
  destruct s as [|a [|b s]]; unfold Dt.alt_m; intros H; split_ifs;
    pick_alt H;
    first [now exists 1%nat | now exists 2%nat].
Qed.

Lemma alt_Y_drop (s : string) (v : Z) (r : string) :
  In (v, r) (Dt.alt_Y s) -> exists n, r = Dt.drop n s.
Proof.
  destruct s as [|a [|b [|c [|d s]]]]; unfold Dt.alt_Y; intros H;
    split_ifs; pick_alt H.
  now exists 4%nat.
Qed.

Lemma alt_name_drop (names : list string) (s : string) (v : Z) (r : string) :
  In (v, r) (Dt.alt_name names s) -> exists n, r = Dt.drop n s.
Proof.
  unfold Dt.alt_name; intros H.
  apply in_flat_map in H as (e & _ & H).
  destruct (Str.starts_with _ _); [|contradiction].
  destruct H as [H | []]; injection H as _ <-.
  eexists; reflexivity.
Qed.

Lemma match_directive_drop (d : Dt.directive) (s : string)
  (f f' : Dt.datetime) (r : string) :
  In (f', r) (Dt.match_directive d s f) -> exists n, r = Dt.drop n s.
Proof.
  destruct d; cbn [Dt.match_directive]; intros H;
    try (apply in_map_iff in H as ([v r'] & E & H); injection E as _ <-).
  - exact (alt_d_drop _ _ _ H).
  - exact (alt_m_drop _ _ _ H).
  - exact (alt_Y_drop _ _ _ H).
  - exact (alt_name_drop _ _ _ _ H).
  - exact (alt_name_drop _ _ _ _ H).
  - destruct s as [|a s]; [contradiction|].
    destruct (Ascii.eqb a c); [|contradiction].
    destruct H as [H | []]; injection H as _ <-.
    now exists 1%nat.
Qed.

Lemma match_directives_year (ds : list Dt.directive) :
  In Dt.DY ds ->
  forall (s : string) (f f' : Dt.datetime) (rest : string),
    In (f', rest) (Dt.match_directives ds s f) -> has_year s = true.
Proof.
  induction ds as [|d ds IH]; intros Hin s f f' rest H; [contradiction|].
  cbn [Dt.match_directives] in H.
  apply in_flat_map in H as ([f1 r1] & H1 & H2).
  destruct Hin as [-> | Hin].
  - cbn [Dt.match_directive] in H1.
    apply in_map_iff in H1 as (x & _ & H1).
    destruct s as [|a s]; [contradiction|].
    rewrite has_year_cons, (alt_Y_year _ _ H1); reflexivity.
  - destruct (match_directive_drop _ _ _ _ _ H1) as [n ->].
    exact (has_year_drop n s (IH Hin _ _ _ _ H2)).
Qed.

Lemma date_formats_year (fmt : string) :
  In fmt PDFParser.date_formats ->
  exists ds, Dt.directives fmt = Some ds /\ In Dt.DY ds.
Proof.
  intros H.
  repeat (destruct H as [<- | H];
          [eexists; split; [reflexivity | simpl; auto 10]|]).
  destruct H.
Qed.

(** X11.  Every format asks for a four-digit year: a token that
    [parse_date] accepts holds four decimal digits in a row.  Dates
    with a two-digit year are not read. *)
Theorem parse_date_needs_four_digit_year :
  forall (year_padded : bool) (s r : string),
    PDFParser.parse_date year_padded s = Some r ->
    has_year s = true.
Proof.
  intros year_padded s r H.
  destruct (try_formats_some _ _ _ _ H) as (fmt & dt & Hin & Hs & _).
  destruct (date_formats_year fmt Hin) as (ds & Hds & HY).
  rewrite strptime_finish, Hds in Hs.
  destruct (finish_valid _ _ Hs) as [_ [tl Htl]].
  apply has_year_strip.
  apply (match_directives_year ds HY _ Dt.default dt EmptyString).
  rewrite Htl; left; reflexivity.
Qed.

Lemma parse_date_needs_four_digit_year_witness :
  PDFParser.parse_date true "15/03/24" = None
  /\ PDFParser.parse_date true "15/03/2024" = Some "2024-03-15"
  /\ has_year "15/03/2024" = true.
Proof.
  assert (E : PDFParser.parse_date true "15/03/2024" = Some "2024-03-15")
    by (vm_compute; reflexivity).
  split; [vm_compute; reflexivity|].
  split; [exact E|].
  exact (parse_date_needs_four_digit_year true _ _ E).
Defined.

(** ** Table rows *)

Lemma rstrip_idem (s : string) : Str.rstrip (Str.rstrip s) = Str.rstrip s.
Proof.
  induction s as [|a s IH]; [reflexivity|].
  cbn [Str.rstrip].
  destruct (Str.is_empty (Str.rstrip s) && Str.isspace a) eqn:E; [reflexivity|].
  cbn [Str.rstrip]; rewrite IH, E; reflexivity.
Qed.

Lemma lstrip_head (s : string) :
  Str.lstrip s = EmptyString
  \/ exists c t, Str.lstrip s = String c t /\ Str.isspace c = false.
Proof.
  induction s as [|a s IH]; [left; reflexivity|].
  cbn [Str.lstrip]; destruct (Str.isspace a) eqn:E; [exact IH|].
  right; exists a, s; split; [reflexivity | exact E].
Qed.

Lemma strip_idem (s : string) : Str.strip (Str.strip s) = Str.strip s.
Proof.
  unfold Str.strip.
  destruct (lstrip_head s) as [-> | (c & t & -> & Hc)]; [reflexivity|].
  cbn [Str.rstrip]; rewrite Hc, andb_false_r.
  cbn [Str.lstrip]; rewrite Hc.
  cbn [Str.rstrip]; rewrite rstrip_idem, Hc, andb_false_r; reflexivity.
Qed.

Lemma try_formats_strip (year_padded : bool) (s : string) (fmts : list string) :
  PDFParser.try_formats year_padded (Str.strip s) fmts
  = PDFParser.try_formats year_padded s fmts.
Proof.
  induction fmts as [|fmt fmts IH]; [reflexivity|].
  cbn [PDFParser.try_formats]; rewrite strip_idem, IH; reflexivity.
Qed.

Lemma cell_text_inv (c : PDFParser.cell) (s : string) :
  PDFParser.cell_text c = Some s ->
  exists raw, c = Some raw /\ s = Str.strip raw.
Proof.
  destruct c as [raw|]; [|discriminate]; simpl.
  destruct (Str.is_empty raw); [discriminate|].
  intros H; injection H as <-; exists raw; split; reflexivity.
Qed.

(** What a row that gives a transaction looks like, and what the
    transaction holds. *)
Lemma parse_row_inv (year_padded : bool) (r : PDFParser.row)
  (tr : PDFParser.transaction) :
  PDFParser.parse_row year_padded r = Some tr ->
  exists (c0 c1 c2 : string) (rest : PDFParser.row) (d : string) (a : Flt.float),
    r = Some c0 :: Some c1 :: Some c2 :: rest
    /\ PDFParser.date tr = Some d /\ d <> EmptyString
    /\ PDFParser.parse_date year_padded c0 = Some d
    /\ PDFParser.description tr = Str.strip c1
    /\ Str.strip c1 <> EmptyString
    /\ PDFParser.amount tr = Some a
    /\ PDFParser.parse_amount (Some (Str.strip c2)) = Some a
    /\ Flt.truthy a = true
    /\ PDFParser.type tr = (if Flt.ltb a Flt.zero then DEBIT else CREDIT).
Proof.
  unfold PDFParser.parse_row.
  destruct r as [|c0 [|c1 [|c2 rest]]]; try discriminate.
  destruct (PDFParser.cell_text c0) as [date_str|] eqn:E0; [|discriminate].
  destruct (PDFParser.cell_text c1) as [description|] eqn:E1; [|discriminate].
  destruct (PDFParser.cell_text c2) as [amount_str|] eqn:E2; [|discriminate].
  apply cell_text_inv in E0 as (r0 & -> & ->).
  apply cell_text_inv in E1 as (r1 & -> & ->).
  apply cell_text_inv in E2 as (r2 & -> & ->).
  destruct (Str.is_empty (Str.strip r0)); [discriminate|].
  destruct (Str.is_empty (Str.strip r1)) eqn:N1; [discriminate|].
  destruct (Str.is_empty (Str.strip r2)); [discriminate|].
  cbn [orb].
  destruct (PDFParser.parse_amount (Some (Str.strip r2))) as [a|] eqn:Ea;
    [|discriminate].
  destruct (PDFParser.nonempty (PDFParser.parse_date year_padded (Str.strip r0)))
    eqn:Hd; cbn [negb orb]; [|discriminate].
  destruct (Flt.truthy a) eqn:Ha; cbn [negb]; [|discriminate].
  intros E; injection E as <-.
  destruct (nonempty_inv _ Hd) as (d & Ed & Hne).
  assert (Ep : PDFParser.parse_date year_padded r0 = Some d).
  { rewrite <- Ed; symmetry; apply try_formats_strip. }
  exists r0, r1, r2, rest, d, a;
    cbn [PDFParser.date PDFParser.description PDFParser.amount PDFParser.type].
  split; [reflexivity|].
  split; [exact Ed|].
  split; [exact Hne|].
  split; [exact Ep|].
  split; [reflexivity|].
  split; [intros H; rewrite H in N1; discriminate|].
  split; [reflexivity|].
  split; [exact Ea|].
  split; [exact Ha | reflexivity].
Qed.

(** X12.  A transaction that [parse_row] returns comes from a row whose
    first three cells are strings.  Its date is what [parse_date] makes
    of the first cell; its description is the second cell without the
    surrounding whitespace, is not empty and has no whitespace left at
    its ends; its amount is what [parse_amount] makes of the third cell
    and is not zero; it is a DEBIT exactly when the amount is below
    zero, and then the third cell holds a "-". *)
Theorem parse_row_transaction_shape :
  forall (year_padded : bool) (r : PDFParser.row) (tr : PDFParser.transaction),
    PDFParser.parse_row year_padded r = Some tr ->
    exists (c0 c1 c2 : string) (rest : PDFParser.row) (a : Flt.float),
      r = Some c0 :: Some c1 :: Some c2 :: rest
      /\ PDFParser.date tr = PDFParser.parse_date year_padded c0
      /\ PDFParser.description tr = Str.strip c1
      /\ PDFParser.description tr <> EmptyString
      /\ Str.strip (PDFParser.description tr) = PDFParser.description tr
      /\ PDFParser.amount tr = Some a
      /\ PDFParser.parse_amount (Some (Str.strip c2)) = Some a
      /\ Flt.truthy a = true
      /\ (PDFParser.type tr = DEBIT <-> Flt.ltb a Flt.zero = true)
      /\ (PDFParser.type tr = DEBIT -> Str.has_char "-" c2 = true).
Proof.
  intros year_padded r tr H.
  destruct (parse_row_inv _ _ _ H)
    as (c0 & c1 & c2 & rest & d & a & Hr & Hd & _ & Hp & Hs & Hne & Ha & Hpa
        & Ht & Hty).
  assert (Hiff : PDFParser.type tr = DEBIT <-> Flt.ltb a Flt.zero = true).
  { rewrite Hty; destruct (Flt.ltb a Flt.zero); split; congruence. }
  exists c0, c1, c2, rest, a.
  split; [exact Hr|].
  split; [congruence|].
  split; [exact Hs|].
  split; [rewrite Hs; exact Hne|].
  split; [rewrite Hs; apply strip_idem|].
  split; [exact Ha|].
  split; [exact Hpa|].
  split; [exact Ht|].
  split; [exact Hiff|].
  intros Hdeb; apply Hiff in Hdeb.
  destruct (Str.has_char "-" c2) eqn:Hc; [reflexivity|].
  rewrite (sign_clear_never_negative a
             (parse_amount_sign_clear _ a (has_char_strip _ _ Hc) Hpa)) in Hdeb.
  discriminate Hdeb.
Qed.

Lemma parse_row_transaction_shape_witness :
  exists (c0 c1 c2 : string) (rest : PDFParser.row) (a : Flt.float),
    [Some " 05-03-2024"; Some "  Rent  March "; Some "1,200.00-"; None]
    = Some c0 :: Some c1 :: Some c2 :: rest
    /\ Some "2024-03-05" = PDFParser.parse_date true c0
    /\ "Rent  March" = Str.strip c1
    /\ "Rent  March" <> EmptyString
    /\ Str.strip "Rent  March" = "Rent  March"
    /\ Some (Flt.of_decimal true 1200 0) = Some a
    /\ PDFParser.parse_amount (Some (Str.strip c2)) = Some a
    /\ Flt.truthy a = true
    /\ (DEBIT = DEBIT <-> Flt.ltb a Flt.zero = true)
    /\ (DEBIT = DEBIT -> Str.has_char "-" c2 = true).
Proof.
  apply (parse_row_transaction_shape true
           [Some " 05-03-2024"; Some "  Rent  March "; Some "1,200.00-"; None]
           {| PDFParser.date := Some "2024-03-05";
              PDFParser.description := "Rent  March";
              PDFParser.amount := Some (Flt.of_decimal true 1200 0);
              PDFParser.balance := None;
              PDFParser.type := DEBIT |}).
  vm_compute; reflexivity.
Defined.

(** ** From the parser to the processor *)

Lemma get_to_dict_date (tr : PDFParser.transaction) :
  get (to_dict tr) "date"
  = match PDFParser.date tr with Some d => PStr d | None => PNone end.
Proof. reflexivity. Qed.

Lemma get_to_dict_description (tr : PDFParser.transaction) :
  get (to_dict tr) "description" = PStr (PDFParser.description tr).
Proof. reflexivity. Qed.

Lemma get_to_dict_amount (tr : PDFParser.transaction) :
  get (to_dict tr) "amount"
  = match PDFParser.amount tr with Some a => PFloat a | None => PNone end.
Proof. reflexivity. Qed.

Lemma get_to_dict_balance (tr : PDFParser.transaction) :
  get (to_dict tr) "balance"
  = match PDFParser.balance tr with Some b => PFloat b | None => PNone end.
Proof. reflexivity. Qed.

(** What the processor makes of a raw transaction with a date, a
    description that is not blank and an amount. *)
Lemma validate_to_dict (tr : PDFParser.transaction) (idx : Z)
  (d : string) (a : Flt.float) :
  PDFParser.date tr = Some d -> d <> EmptyString ->
  Str.strip (PDFParser.description tr) <> EmptyString ->
  PDFParser.amount tr = Some a ->
  DataProcessor.validate_and_clean_transaction (to_dict tr) idx
  = inr {| DataProcessor.date := PStr d;
           DataProcessor.description :=
             DataProcessor.clean_description (PDFParser.description tr);
           DataProcessor.amount := Flt.abs a;
           DataProcessor.type := if Flt.ltb a Flt.zero then DEBIT else CREDIT;
           DataProcessor.balance :=
             match PDFParser.balance tr with
             | Some b => if Flt.truthy b then Some b else None
             | None => None
             end;
           DataProcessor.category_of :=
             DataProcessor.categorize_transaction
               (DataProcessor.clean_description (PDFParser.description tr));
           DataProcessor.raw_amount := a;
           DataProcessor.row_num := idx + 2 |}.
Proof.
  intros Hd Hne Hs Ha.
  rewrite (validate_unfold (to_dict tr) idx (PDFParser.description tr) a).
  - rewrite get_to_dict_balance, get_to_dict_date, Hd.
    destruct (PDFParser.balance tr) as [b|]; [|reflexivity].
    cbn [truthy]; destruct (Flt.truthy b); reflexivity.
  - rewrite get_to_dict_date, Hd; destruct d; [contradiction | reflexivity].
  - apply get_to_dict_description.
  - exact Hs.
  - rewrite get_to_dict_amount, Ha; reflexivity.
Qed.

(** X13.  Every transaction [parse_row] returns passes the processor's
    validation: the processor keeps the date, cleans the description,
    finds the same type from the sign of the amount, stores the amount
    without its sign, and keeps the balance unless it is zero. *)
Theorem parsed_row_passes_validation :
  forall (year_padded : bool) (r : PDFParser.row) (tr : PDFParser.transaction)
         (idx : Z),
    PDFParser.parse_row year_padded r = Some tr ->
    exists (p : DataProcessor.processed) (d : string) (a : Flt.float),
      DataProcessor.validate_and_clean_transaction (to_dict tr) idx = inr p
      /\ PDFParser.date tr = Some d /\ DataProcessor.date p = PStr d
      /\ DataProcessor.description p
         = DataProcessor.clean_description (PDFParser.description tr)
      /\ PDFParser.amount tr = Some a
      /\ DataProcessor.raw_amount p = a
      /\ DataProcessor.amount p = Flt.abs a
      /\ DataProcessor.type p = PDFParser.type tr
      /\ DataProcessor.balance p
         = match PDFParser.balance tr with
           | Some b => if Flt.truthy b then Some b else None
           | None => None
           end
      /\ DataProcessor.row_num p = idx + 2.
Proof.
  intros year_padded r tr idx H.
  destruct (parse_row_inv _ _ _ H)
    as (c0 & c1 & c2 & rest & d & a & _ & Hd & Hne & _ & Hs & Hs1 & Ha & _
        & _ & Hty).
  assert (Hstrip : Str.strip (PDFParser.description tr) <> EmptyString)
    by (rewrite Hs, strip_idem; exact Hs1).
  eexists; exists d, a.
  split; [exact (validate_to_dict tr idx d a Hd Hne Hstrip Ha)|].
  cbn; rewrite Hty; repeat split; assumption.
Qed.

Lemma parsed_row_passes_validation_witness :
  exists (p : DataProcessor.processed) (d : string) (a : Flt.float),
    DataProcessor.validate_and_clean_transaction
      (to_dict {| PDFParser.date := Some "2024-03-05";
                  PDFParser.description := "Rent  March";
                  PDFParser.amount := Some (Flt.of_decimal true 1200 0);
                  PDFParser.balance := Some Flt.zero;
                  PDFParser.type := DEBIT |}) 0 = inr p
    /\ Some "2024-03-05" = Some d /\ DataProcessor.date p = PStr d
    /\ DataProcessor.description p = DataProcessor.clean_description "Rent  March"
    /\ Some (Flt.of_decimal true 1200 0) = Some a
    /\ DataProcessor.raw_amount p = a
    /\ DataProcessor.amount p = Flt.abs a
    /\ DataProcessor.type p = DEBIT
    /\ DataProcessor.balance p = (if Flt.truthy Flt.zero then Some Flt.zero else None)
    /\ DataProcessor.row_num p = 0 + 2.
Proof.
  apply (parsed_row_passes_validation true
           [Some " 05-03-2024"; Some "  Rent  March "; Some "1,200.00-"; Some "0.00"]
           {| PDFParser.date := Some "2024-03-05";
              PDFParser.description := "Rent  March";
              PDFParser.amount := Some (Flt.of_decimal true 1200 0);
              PDFParser.balance := Some Flt.zero;
              PDFParser.type := DEBIT |} 0).
  vm_compute; reflexivity.
Defined.

(** ** The matches of the regular expression *)

Lemma all_chars_app (cls : ascii -> bool) (a b : string) :
  all_chars cls (a ++ b) = all_chars cls a && all_chars cls b.
Proof.
  induction a as [|c a IH]; [reflexivity|].
  simpl; rewrite IH, andb_assoc; reflexivity.
Qed.

Lemma all_chars_weaken (cls cls' : ascii -> bool) (s : string) :
  (forall c, cls c = true -> cls' c = true) ->
  all_chars cls s = true -> all_chars cls' s = true.
Proof.
  intros Hw; induction s as [|c s IH]; [reflexivity|].
  simpl; intros H; apply andb_true_iff in H as [Hc Hs].
  rewrite (Hw c Hc), (IH Hs); reflexivity.
Qed.

Lemma all_chars_has_char (cls : ascii -> bool) (c : ascii) (s : string) :
  cls c = false -> all_chars cls s = true -> Str.has_char c s = false.
Proof.
  intros Hc; induction s as [|a s IH]; [reflexivity|].
  simpl; intros H; apply andb_true_iff in H as [Ha Hs].
  rewrite (IH Hs), orb_false_r.
  destruct (Ascii.eqb a c) eqn:E; [|reflexivity].
  apply Ascii.eqb_eq in E; subst a; congruence.
Qed.

Lemma prefixes_spec (cls : ascii -> bool) (hi : nat) :
  forall s m r : string,
    In (m, r) (Re.prefixes cls hi s) ->
    all_chars cls m = true /\ s = (m ++ r)%string
    /\ (String.length m <= hi)%nat.
Proof.
  induction hi as [|hi IH]; intros s m r H.
  - destruct H as [H | []]; injection H as <- <-.
    repeat split; apply Nat.le_refl.
  - cbn [Re.prefixes] in H; destruct H as [H | H].
    { injection H as <- <-; repeat split; apply Nat.le_0_l. }
    destruct s as [|c s]; [contradiction|].
    destruct (cls c) eqn:Ec; [|contradiction].
    apply in_map_iff in H as ([m' r'] & E & H); injection E as <- <-.
    destruct (IH _ _ _ H) as (A & B & C).
    cbn [fst snd all_chars String.length]; rewrite Ec, A.
    repeat split; [rewrite B at 1; reflexivity | apply le_n_S, C].
Qed.

Lemma lazy_spec (cls : ascii -> bool) (lo hi : nat) (s m r : string) :
  In (m, r) (Re.lazy cls lo hi s) ->
  all_chars cls m = true /\ s = (m ++ r)%string
  /\ (lo <= String.length m)%nat.
Proof.
  unfold Re.lazy; intros H; apply filter_In in H as [H L].
  destruct (prefixes_spec _ _ _ _ _ H) as (A & B & _).
  repeat split; [exact A | exact B | apply Nat.leb_le, L].
Qed.

Lemma greedy_spec (cls : ascii -> bool) (lo hi : nat) (s m r : string) :
  In (m, r) (Re.greedy cls lo hi s) ->
  all_chars cls m = true /\ s = (m ++ r)%string
  /\ (lo <= String.length m)%nat.
Proof.
  unfold Re.greedy; intros H; apply in_rev in H; exact (lazy_spec _ _ _ _ _ _ H).
Qed.

Lemma seq_inv {A B : Type} (m : Re.matcher A) (k : A -> Re.matcher B)
  (s : string) (b : B) (r : string) :
  In (b, r) (Re.seq m k s) ->
  exists a r1, In (a, r1) (m s) /\ In (b, r) (k a r1).
Proof.
  unfold Re.seq; intros H; apply in_flat_map in H as ([a r1] & H1 & H2).
  exists a, r1; split; assumption.
Qed.

Lemma ret_inv {A : Type} (a b : A) (s r : string) :
  In (b, r) (Re.ret a s) -> b = a /\ r = s.
Proof. intros [H | []]; injection H as <- <-; split; reflexivity. Qed.

Lemma nonempty_length (s : string) :
  (1 <= String.length s)%nat -> s <> EmptyString.
Proof. destruct s; simpl; [intros H; inversion H | discriminate]. Qed.

Lemma nonempty_app (a b : string) :
  a <> EmptyString -> (a ++ b)%string <> EmptyString.
Proof. destruct a; [contradiction | discriminate]. Qed.

Lemma number_group_spec (s n r : string) :
  In (n, r) (Re.number_group s) ->
  all_chars number_char n = true /\ n <> EmptyString.
Proof.
  unfold Re.number_group; intros H.
  apply seq_inv in H as (a & r1 & Ha & H).
  apply seq_inv in H as (b & r2 & Hb & H).
  apply seq_inv in H as (c & r3 & Hc & H).
  apply ret_inv in H as [-> _].
  apply greedy_spec in Ha as (Ha & _ & La).
  apply greedy_spec in Hb as (Hb & _ & _).
  apply greedy_spec in Hc as (Hc & _ & _).
  split.
  - rewrite !all_chars_app.
    rewrite (all_chars_weaken Re.digit_or_comma number_char a),
            (all_chars_weaken Re.dot number_char b),
            (all_chars_weaken Str.isdigit number_char c); try assumption;
      try reflexivity;
      intros x Hx; unfold number_char;
      first [rewrite Hx | unfold Re.digit_or_comma; rewrite Hx];
      rewrite ?orb_true_r; reflexivity.
  - apply nonempty_app, nonempty_length, La.
Qed.

Lemma date_group_spec (s d r : string) :
  In (d, r) (Re.date_group s) -> all_chars date_char d = true.
Proof.
  unfold Re.date_group, Re.one; intros H.
  apply seq_inv in H as (d1 & r1 & H1 & H).
  apply seq_inv in H as (s1 & r2 & H2 & H).
  apply seq_inv in H as (d2 & r3 & H3 & H).
  apply seq_inv in H as (s2 & r4 & H4 & H).
  apply seq_inv in H as (y & r5 & H5 & H).
  apply ret_inv in H as [-> _].
  apply greedy_spec in H1 as (H1 & _).
  apply greedy_spec in H2 as (H2 & _).
  apply greedy_spec in H3 as (H3 & _).
  apply greedy_spec in H4 as (H4 & _).
  apply greedy_spec in H5 as (H5 & _).
  rewrite !all_chars_app.
  rewrite (all_chars_weaken Str.isdigit date_char d1),
          (all_chars_weaken Re.separator date_char s1),
          (all_chars_weaken Str.isdigit date_char d2),
          (all_chars_weaken Re.separator date_char s2),
          (all_chars_weaken Str.isdigit date_char y); try assumption;
    try reflexivity;
    intros x Hx; unfold date_char; rewrite Hx; rewrite ?orb_true_r; reflexivity.
Qed.

Lemma pattern_spec (s date_str description amount balance r : string) :
  In ((date_str, description, amount, balance), r) (Re.pattern s) ->
  all_chars date_char date_str = true
  /\ all_chars Re.any description = true /\ description <> EmptyString
  /\ all_chars number_char amount = true /\ amount <> EmptyString
  /\ all_chars number_char balance = true /\ balance <> EmptyString.
Proof.
  unfold Re.pattern; intros H.
  apply seq_inv in H as (d & r1 & Hd & H).
  apply seq_inv in H as (w1 & r2 & _ & H).
  apply seq_inv in H as (desc & r3 & Hdesc & H).
  apply seq_inv in H as (w2 & r4 & _ & H).
  apply seq_inv in H as (a & r5 & Ha & H).
  apply seq_inv in H as (w3 & r6 & _ & H).
  apply seq_inv in H as (b & r7 & Hb & H).
  apply ret_inv in H as [E _]; injection E as -> -> -> ->.
  apply lazy_spec in Hdesc as (D1 & _ & D2).
  destruct (number_group_spec _ _ _ Ha) as [A1 A2].
  destruct (number_group_spec _ _ _ Hb) as [B1 B2].
  split; [exact (date_group_spec _ _ _ Hd)|].
  split; [exact D1|].
  split; [exact (nonempty_length _ D2)|].
  repeat split; assumption.
Qed.

Lemma scan_spec (s : string) :
  forall (skip : nat) (g : string * string * string * string),
    In g (Re.scan skip s) -> exists s' r, In (g, r) (Re.pattern s').
Proof.
  induction s as [|c s IH]; intros skip g H; [contradiction|].
  cbn [Re.scan] in H.
  destruct skip as [|k]; [|exact (IH _ _ H)].
  destruct (Re.pattern (String c s)) as [|[g' rest] tl] eqn:E;
    [exact (IH _ _ H)|].
  destruct H as [<- | H]; [|exact (IH _ _ H)].
  exists (String c s), rest; rewrite E; left; reflexivity.
Qed.

Lemma finditer_spec (text date_str description amount balance : string) :
  In (date_str, description, amount, balance) (Re.finditer text) ->
  all_chars date_char date_str = true
  /\ all_chars Re.any description = true /\ description <> EmptyString
  /\ all_chars number_char amount = true /\ amount <> EmptyString
  /\ all_chars number_char balance = true /\ balance <> EmptyString.
Proof.
  intros H; apply scan_spec in H as (s' & r & H).
  exact (pattern_spec _ _ _ _ _ _ H).
Qed.

(** X14.  The groups of a match: the date group is digits and the
    separators "-" and "/"; the description is not empty and holds no
    line feed; the amount and the balance are not empty and are made of
    digits, commas and full stops, so neither holds a minus sign. *)
Theorem finditer_groups_shape :
  forall text date_str description amount balance : string,
    In (date_str, description, amount, balance) (Re.finditer text) ->
    all_chars date_char date_str = true
    /\ description <> EmptyString
    /\ Str.has_char (ascii_of_nat 10) description = false
    /\ amount <> EmptyString /\ all_chars number_char amount = true
    /\ balance <> EmptyString /\ all_chars number_char balance = true
    /\ Str.has_char "-" amount = false
    /\ Str.has_char "-" balance = false.
Proof.
  intros text date_str description amount balance H.
  destruct (finditer_spec _ _ _ _ _ H) as (D & A1 & A2 & B1 & B2 & C1 & C2).
  split; [exact D|].
  split; [exact A2|].
  split; [exact (all_chars_has_char Re.any (ascii_of_nat 10) _ eq_refl A1)|].
  split; [exact B2|].
  split; [exact B1|].
  split; [exact C2|].
  split; [exact C1|].
  split; [exact (all_chars_has_char number_char "-" _ eq_refl B1)
         | exact (all_chars_has_char number_char "-" _ eq_refl C1)].
Qed.

Lemma finditer_groups_shape_witness :
  Re.finditer "01/03/2024 Refund -500.00 1,000.00 9"
  = [("01/03/2024", "Refund -500.00", "1,000.00", "9")]
  /\ Str.has_char "-" "1,000.00" = false.
Proof.
  assert (E : Re.finditer "01/03/2024 Refund -500.00 1,000.00 9"
              = [("01/03/2024", "Refund -500.00", "1,000.00", "9")])
    by (vm_compute; reflexivity).
  split; [exact E|].
  apply (finditer_groups_shape "01/03/2024 Refund -500.00 1,000.00 9"
           "01/03/2024" "Refund -500.00" "1,000.00" "9").
  rewrite E; left; reflexivity.
Defined.

(** ** Transactions read from the text *)

Lemma abs_of_sign_clear (x : Flt.float) : sign_clear x -> Flt.abs x = x.
Proof.
  intros [-> | H]; [reflexivity|].
  destruct x as [s | s | | s m e]; simpl in H; try contradiction; subst;
    reflexivity.
Qed.

Lemma extract_matches_in (year_padded : bool)
  (ms : list (string * string * string * string)) :
  forall (self : PDFParser.t) (tr : PDFParser.transaction),
    In tr (PDFParser.transactions (PDFParser.extract_matches year_padded self ms)) ->
    In tr (PDFParser.transactions self)
    \/ exists m,
         In m ms /\ tr = PDFParser.text_transaction year_padded m
         /\ PDFParser.nonempty (PDFParser.date tr) = true
         /\ PDFParser.amount_truthy (PDFParser.amount tr) = true.
Proof.
  induction ms as [|m ms IH]; intros self tr H; [left; exact H|].
  cbn [PDFParser.extract_matches] in H.
  apply IH in H as [H | (m' & Hin & E)];
    [|right; exists m'; split; [right; exact Hin | exact E]].
  destruct (PDFParser.nonempty
              (PDFParser.date (PDFParser.text_transaction year_padded m))
            && PDFParser.amount_truthy
                 (PDFParser.amount (PDFParser.text_transaction year_padded m)))
    eqn:E; [|left; exact H].
  cbn [PDFParser.append PDFParser.transactions] in H.
  apply in_app_or in H as [H | [<- | []]]; [left; exact H|].
  apply andb_true_iff in E as [E1 E2].
  right; exists m; split; [left; reflexivity|].
  split; [reflexivity | split; assumption].
Qed.

(** The processor on a raw transaction that has a date and an amount:
    only a blank description stops it. *)
Lemma validate_dated (tr : PDFParser.transaction) (idx : Z) :
  dated_and_nonzero tr ->
  (Str.strip (PDFParser.description tr) = EmptyString ->
   DataProcessor.validate_and_clean_transaction (to_dict tr) idx
   = inl (ValueError "Missing description"))
  /\ (Str.strip (PDFParser.description tr) <> EmptyString ->
      exists p a,
        DataProcessor.validate_and_clean_transaction (to_dict tr) idx = inr p
        /\ PDFParser.amount tr = Some a
        /\ DataProcessor.type p = (if Flt.ltb a Flt.zero then DEBIT else CREDIT)).
Proof.
  intros [(d & Ed & Hne) (a & Ea & _)]; split; intros Hs.
  - unfold DataProcessor.validate_and_clean_transaction.
    rewrite get_to_dict_date, get_to_dict_description, Ed.
    replace (truthy (PStr d)) with true
      by (destruct d; [contradiction | reflexivity]).
    cbn [negb]; rewrite Hs, orb_true_r; reflexivity.
  - eexists; exists a.
    split; [exact (validate_to_dict tr idx d a Ed Hne Hs Ea)|].
    split; [exact Ea | reflexivity].
Qed.

(** X15.  What the processor does with a transaction that
    [extract_from_text] appends.  With a blank description group it
    is rejected for a missing description; otherwise it is accepted, and
    when the amount token holds no minus sign the processor calls it a
    CREDIT and leaves the amount as it is, whatever type the parser
    gave it. *)
Theorem text_transaction_validation :
  forall (year_padded : bool) (date_str description amount balance : string)
         (idx : Z),
    let tr := PDFParser.text_transaction year_padded
                (date_str, description, amount, balance) in
    PDFParser.nonempty (PDFParser.date tr) = true ->
    PDFParser.amount_truthy (PDFParser.amount tr) = true ->
    (Str.strip description = EmptyString ->
     DataProcessor.validate_and_clean_transaction (to_dict tr) idx
     = inl (ValueError "Missing description"))
    /\ (Str.strip description <> EmptyString ->
        exists p a,
          DataProcessor.validate_and_clean_transaction (to_dict tr) idx = inr p
          /\ PDFParser.amount tr = Some a
          /\ DataProcessor.raw_amount p = a
          /\ (Str.has_char "-" amount = false ->
              DataProcessor.type p = CREDIT
              /\ DataProcessor.amount p = a)).
Proof.
  intros year_padded date_str description amount balance idx tr Hd Ha.
  destruct (nonempty_inv _ Hd) as (d & Ed & Hne).
  destruct (amount_truthy_inv _ Ha) as (a & Ea & Ht).
  split.
  - intros Hs.
    unfold DataProcessor.validate_and_clean_transaction.
    rewrite get_to_dict_date, get_to_dict_description, Ed.
    replace (truthy (PStr d)) with true
      by (destruct d; [contradiction | reflexivity]).
    change (PDFParser.description tr) with (Str.strip description).
    rewrite Hs; reflexivity.
  - intros Hs.
    assert (Hs' : Str.strip (PDFParser.description tr) <> EmptyString).
    { change (PDFParser.description tr) with (Str.strip description).
      rewrite strip_idem; exact Hs. }
    eexists; exists a.
    split; [exact (validate_to_dict tr idx d a Ed Hne Hs' Ea)|].
    split; [exact Ea|].
    split; [reflexivity|].
    intros Hc; cbn [DataProcessor.type DataProcessor.amount].
    assert (Hsc : sign_clear a).
    { apply (parse_amount_sign_clear amount a Hc).
      rewrite <- Ea; reflexivity. }
    rewrite (sign_clear_never_negative a Hsc), (abs_of_sign_clear a Hsc).
    split; reflexivity.
Qed.

Lemma text_transaction_validation_witness :
  PDFParser.type (PDFParser.text_transaction true
                    ("01/03/2024", "ATM DR", "500.00", "1,000.00")) = DEBIT
  /\ (exists p a,
        DataProcessor.validate_and_clean_transaction
          (to_dict (PDFParser.text_transaction true
                      ("01/03/2024", "ATM DR", "500.00", "1,000.00"))) 0 = inr p
        /\ PDFParser.amount (PDFParser.text_transaction true
                               ("01/03/2024", "ATM DR", "500.00", "1,000.00"))
           = Some a
        /\ DataProcessor.raw_amount p = a
        /\ (Str.has_char "-" "500.00" = false ->
            DataProcessor.type p = CREDIT /\ DataProcessor.amount p = a))
  /\ DataProcessor.validate_and_clean_transaction
       (to_dict (PDFParser.text_transaction true
                   ("01/02/2024", " ", "5", "6"))) 0
     = inl (ValueError "Missing description").
Proof.
  split; [vm_compute; reflexivity|].
  split.
  - apply (text_transaction_validation true
             "01/03/2024" "ATM DR" "500.00" "1,000.00" 0);
      [vm_compute; reflexivity | vm_compute; reflexivity | discriminate].
  - apply (text_transaction_validation true "01/02/2024" " " "5" "6" 0);
      vm_compute; reflexivity.
Defined.

(** X16.  With the regular expression of the source, no transaction
    that [extract_from_text] appends has an amount or a balance below
    zero, and the processor calls each one it accepts a CREDIT: a debit
    that the parser tells by "DR" in the description is lost on the
    way. *)
Theorem text_transactions_never_negative :
  forall (year_padded : bool) (self : PDFParser.t) (text : string)
         (tr : PDFParser.transaction),
    In tr (PDFParser.transactions
             (PDFParser.extract_from_text year_padded Re.finditer self
                (Some text))) ->
    In tr (PDFParser.transactions self)
    \/ ((exists a, PDFParser.amount tr = Some a
                   /\ Flt.truthy a = true /\ Flt.ltb a Flt.zero = false)
        /\ (forall b, PDFParser.balance tr = Some b ->
                      Flt.ltb b Flt.zero = false)
        /\ (forall idx p,
              DataProcessor.validate_and_clean_transaction (to_dict tr) idx
              = inr p ->
              DataProcessor.type p = CREDIT)).
Proof.
  intros year_padded self text tr H.
  cbn [PDFParser.extract_from_text] in H.
  apply extract_matches_in in H as [H | (m & Hin & E & Hd & Ha)];
    [left; exact H | right].
  destruct m as [[[date_str description] amount] balance].
  destruct (finditer_spec _ _ _ _ _ Hin) as (_ & _ & _ & B1 & _ & C1 & _).
  pose proof (all_chars_has_char number_char "-" _ eq_refl B1) as Hca.
  pose proof (all_chars_has_char number_char "-" _ eq_refl C1) as Hcb.
  destruct (amount_truthy_inv _ Ha) as (a & Ea & Ht).
  assert (Hsc : sign_clear a).
  { apply (parse_amount_sign_clear amount a Hca).
    rewrite <- Ea, E; reflexivity. }
  split; [exists a; split; [exact Ea | split;
            [exact Ht | exact (sign_clear_never_negative a Hsc)]]|].
  split.
  - intros b Eb; apply sign_clear_never_negative.
    apply (parse_amount_sign_clear balance b Hcb).
    rewrite <- Eb, E; reflexivity.
  - intros idx p Hp.
    assert (Hdn : dated_and_nonzero tr)
      by (split; [exact (nonempty_inv _ Hd) | exact (amount_truthy_inv _ Ha)]).
    destruct (validate_dated tr idx Hdn) as [Hblank Hok].
    destruct (Str.strip (PDFParser.description tr)) eqn:Es.
    + rewrite (Hblank eq_refl) in Hp; discriminate Hp.
    + destruct Hok as (p' & x & Hp' & Ex & Hty); [discriminate|].
      rewrite Hp' in Hp; injection Hp as <-.
      rewrite Ea in Ex; injection Ex as <-.
      rewrite Hty, (sign_clear_never_negative a Hsc); reflexivity.
Qed.

Lemma text_transactions_never_negative_witness :
  PDFParser.type atm_transaction = DEBIT
  /\ (In atm_transaction (PDFParser.transactions PDFParser.init)
      \/ ((exists a, PDFParser.amount atm_transaction = Some a
                     /\ Flt.truthy a = true /\ Flt.ltb a Flt.zero = false)
          /\ (forall b, PDFParser.balance atm_transaction = Some b ->
                        Flt.ltb b Flt.zero = false)
          /\ (forall idx p,
                DataProcessor.validate_and_clean_transaction
                  (to_dict atm_transaction) idx = inr p ->
                DataProcessor.type p = CREDIT))).
Proof.
  split; [vm_compute; reflexivity|].
  apply (text_transactions_never_negative true PDFParser.init atm_line).
  vm_compute; left; reflexivity.
Defined.

(** ** Pages and the text search *)

Lemma page_without_text_search (year_padded : bool)
  (f1 f2 : string -> list (string * string * string * string))
  (self : PDFParser.t) (p : PDFParser.page) :
  PDFParser.transactions self <> [] ->
  PDFParser.extract_tables p <> PDFParser.Returns [] ->
  fst (PDFParser.extract_from_page year_padded f1 self p)
  = fst (PDFParser.extract_from_page year_padded f2 self p).
Proof.
  intros Hs Ht; unfold PDFParser.extract_from_page.
  destruct (PDFParser.extract_text p) as [text|]; [|reflexivity].
  destruct (PDFParser.extract_tables p) as [[|tb tables]|];
    [contradiction | | reflexivity].
  destruct (extract_tables_loop_appends year_padded (tb :: tables) self)
    as (new & E & _).
  destruct (PDFParser.transactions
              (PDFParser.extract_tables_loop year_padded self (tb :: tables)))
    eqn:E'; [|reflexivity].
  symmetry in E; apply app_eq_nil in E as [E _]; contradiction.
Qed.

Lemma pages_without_text_search (year_padded : bool)
  (f1 f2 : string -> list (string * string * string * string))
  (pages : list PDFParser.page) :
  forall self : PDFParser.t,
    PDFParser.transactions self <> [] ->
    Forall (fun p => PDFParser.extract_tables p <> PDFParser.Returns []) pages ->
    PDFParser.extract_pages year_padded f1 self pages
    = PDFParser.extract_pages year_padded f2 self pages.
Proof.
  induction pages as [|p pages IH]; intros self Hs Hp; [reflexivity|].
  inversion Hp as [|? ? Hp1 Hp2]; subst.
  cbn [PDFParser.extract_pages].
  rewrite (page_without_text_search year_padded f1 f2 self p Hs Hp1).
  apply IH; [|exact Hp2].
  destruct (extract_from_page_appends year_padded f2 self p) as (new & E & _).
  rewrite E; intros H; apply app_eq_nil in H as [H _]; contradiction.
Qed.

(** X17.  Once the instance holds a transaction, the text of a page
    with a table is never searched: on a document whose every page has
    a table, or fails to give its tables, [parse_pdf] returns the same
    whatever the search would find, even when the tables give
    nothing. *)
Theorem text_search_off_when_instance_not_empty :
  forall (year_padded : bool)
         (f1 f2 : string -> list (string * string * string * string))
         (self : PDFParser.t) (pages : list PDFParser.page),
    PDFParser.transactions self <> [] ->
    Forall (fun p => PDFParser.extract_tables p <> PDFParser.Returns []) pages ->
    PDFParser.parse_pdf year_padded f1 self (PDFParser.Opened pages)
    = PDFParser.parse_pdf year_padded f2 self (PDFParser.Opened pages).
Proof.
  intros year_padded f1 f2 self pages Hs Hp.
  unfold PDFParser.parse_pdf.
  rewrite (pages_without_text_search year_padded f1 f2 pages
             (PDFParser.detect_bank_type self pages) Hs Hp).
  reflexivity.
Qed.

Lemma text_search_off_witness :
  PDFParser.parse_pdf true no_match used_parser
    (PDFParser.Opened [header_only_page])
  = PDFParser.parse_pdf true Re.finditer used_parser
      (PDFParser.Opened [header_only_page])
  /\ PDFParser.parse_pdf true no_match PDFParser.init
       (PDFParser.Opened [header_only_page])
     <> PDFParser.parse_pdf true Re.finditer PDFParser.init
          (PDFParser.Opened [header_only_page]).
Proof.
  split.
  - apply text_search_off_when_instance_not_empty.
    + discriminate.
    + constructor; [discriminate | constructor].
  - vm_compute; discriminate.
Defined.

(** ** The bank tag *)

Lemma extract_pages_bank_type (year_padded : bool)
  (finditer : string -> list (string * string * string * string))
  (pages : list PDFParser.page) :
  forall self : PDFParser.t,
    PDFParser.bank_type (PDFParser.extract_pages year_padded finditer self pages)
    = PDFParser.bank_type self.
Proof.
  induction pages as [|p pages IH]; intros self; [reflexivity|].
  cbn [PDFParser.extract_pages]; rewrite IH.
  destruct (extract_from_page_appends year_padded finditer self p)
    as (new & _ & E & _).
  exact E.
Qed.

Lemma detect_bank_type_tag (self : PDFParser.t) (pages : list PDFParser.page) :
  exists tag,
    In tag bank_tags
    /\ PDFParser.bank_type (PDFParser.detect_bank_type self pages) = Some tag
    /\ PDFParser.bank_type (PDFParser.detect_bank_type PDFParser.init (firstn 1 pages))
       = Some tag
    /\ ((forall p ps text,
           pages = p :: ps ->
           PDFParser.extract_text p <> PDFParser.Returns (Some text)) ->
        tag = "GENERIC").
Proof.
  unfold PDFParser.detect_bank_type, bank_tags.
  destruct pages as [|p ps]; cbn [firstn PDFParser.bank_type].
  { exists "GENERIC"; repeat split; simpl; auto. }
  destruct (PDFParser.extract_text p) as [[text|]|] eqn:Et.
  - destruct (Str.contains "HDFC" (Str.upper text));
      [|destruct (Str.contains "ICICI" (Str.upper text));
        [|destruct (Str.contains "SBI" (Str.upper text))]];
      eexists; (split; [|split; [reflexivity | split; [reflexivity|]]]);
      try (simpl; auto; fail);
      intros H; exfalso; exact (H p ps text eq_refl Et).
  - exists "GENERIC"; repeat split; simpl; auto.
  - exists "GENERIC"; repeat split; simpl; auto.
Qed.

(** X18.  [parse_pdf] on a document that opens always reports one of
    the four tags HDFC, ICICI, SBI and GENERIC, whatever tag the
    instance had before; the tag is decided by the first page alone,
    and is GENERIC when there is no first page or the first page gives
    no text.  When the document does not open the tag of the instance
    stays as it was. *)
Theorem parse_pdf_bank_tag :
  forall (year_padded : bool)
         (finditer : string -> list (string * string * string * string))
         (self : PDFParser.t),
    (forall pages : list PDFParser.page,
       exists tag,
         In tag bank_tags
         /\ PDFParser.bank_type
              (fst (PDFParser.parse_pdf year_padded finditer self
                      (PDFParser.Opened pages))) = Some tag
         /\ (exists ts n,
               snd (PDFParser.parse_pdf year_padded finditer self
                      (PDFParser.Opened pages))
               = PDFParser.Success ts (Some tag) n)
         /\ PDFParser.bank_type
              (PDFParser.detect_bank_type PDFParser.init (firstn 1 pages))
            = Some tag
         /\ ((forall p ps text,
                pages = p :: ps ->
                PDFParser.extract_text p <> PDFParser.Returns (Some text)) ->
             tag = "GENERIC"))
    /\ (forall message : string,
          PDFParser.bank_type
            (fst (PDFParser.parse_pdf year_padded finditer self
                    (PDFParser.OpenFails message)))
          = PDFParser.bank_type self).
Proof.
  intros year_padded finditer self; split; [|reflexivity].
  intros pages.
  destruct (detect_bank_type_tag self pages) as (tag & Hin & Hb & Hf & Hg).
  exists tag; cbn [PDFParser.parse_pdf fst snd].
  rewrite extract_pages_bank_type, Hb.
  split; [exact Hin|].
  split; [reflexivity|].
  split; [eexists; eexists; reflexivity|].
  split; [exact Hf | exact Hg].
Qed.

(** ** Categories *)

Lemma find_first {A : Type} (f : A -> bool) (before : list A) (x : A)
  (after : list A) :
  f x = true -> (forall e, In e before -> f e = false) ->
  find f (before ++ x :: after) = Some x.
Proof.
  intros Hx; induction before as [|b before IH]; intros Hb; simpl.
  - rewrite Hx; reflexivity.
  - rewrite (Hb b (or_introl eq_refl)); apply IH.
    intros e He; apply Hb; right; exact He.
Qed.

Lemma find_none_all {A : Type} (f : A -> bool) (l : list A) :
  (forall e, In e l -> f e = false) -> find f l = None.
Proof.
  induction l as [|a l IH]; intros H; [reflexivity|].
  simpl; rewrite (H a (or_introl eq_refl)); apply IH.
  intros e He; apply H; right; exact He.
Qed.

Lemma lower_char_idem (c : ascii) :
  Str.lower_char (Str.lower_char c) = Str.lower_char c.
Proof.
  destruct c as [b0 b1 b2 b3 b4 b5 b6 b7].
  destruct b0, b1, b2, b3, b4, b5, b6, b7; vm_compute; reflexivity.
Qed.

Lemma lower_idem (s : string) : Str.lower (Str.lower s) = Str.lower s.
Proof.
  induction s as [|c s IH]; [reflexivity|].
  unfold Str.lower in *; simpl; rewrite lower_char_idem, IH; reflexivity.
Qed.

Lemma categorize_unfold (description : string) :
  DataProcessor.categorize_transaction description
  = match find (entry_matches description) DataProcessor.categories with
    | Some entry => fst entry
    | None => DataProcessor.OTHER
    end.
Proof. reflexivity. Qed.

Lemma category_not_other (e : DataProcessor.category * list string) :
  In e DataProcessor.categories -> fst e <> DataProcessor.OTHER.
Proof.
  unfold DataProcessor.categories; intros H.
  repeat (destruct H as [<- | H]; [discriminate|]).
  destruct H.
Qed.

(** X19.  The categories are tried in the order of the table and the
    first one with a keyword in the description wins, letter case
    ignored; OTHER is the answer exactly when no keyword of any
    category occurs. *)
Theorem categorize_first_match :
  forall description : string,
    (forall before c keywords after,
       DataProcessor.categories = (before ++ (c, keywords) :: after)%list ->
       entry_matches description (c, keywords) = true ->
       (forall e, In e before -> entry_matches description e = false) ->
       DataProcessor.categorize_transaction description = c)
    /\ (DataProcessor.categorize_transaction description = DataProcessor.OTHER
        <-> forall e, In e DataProcessor.categories ->
                      entry_matches description e = false)
    /\ DataProcessor.categorize_transaction (Str.lower description)
       = DataProcessor.categorize_transaction description.
Proof.
  intros description; split; [|split].
  - intros before c keywords after E Hm Hb.
    rewrite categorize_unfold, E, (find_first _ _ _ _ Hm Hb); reflexivity.
  - rewrite categorize_unfold; split.
    + destruct (find (entry_matches description) DataProcessor.categories)
        as [e|] eqn:E.
      * intros H; apply find_some in E as [E _].
        exfalso; exact (category_not_other e E H).
      * intros _ e He; exact (find_none _ _ E e He).
    + intros H; rewrite (find_none_all _ _ H); reflexivity.
  - unfold DataProcessor.categorize_transaction.
    rewrite lower_idem; reflexivity.
Qed.

Lemma categorize_first_match_witness :
  DataProcessor.categorize_transaction "ATM Cash Deposit"
  = DataProcessor.WITHDRAWAL.
Proof.
  apply (proj1 (categorize_first_match "ATM Cash Deposit")
           [ (DataProcessor.SALARY, ["salary"; "wage"; "stipend"; "payroll"]);
             (DataProcessor.TRANSFER, ["transfer"; "trf"; "neft"; "rtgs"; "imps"]) ]
           DataProcessor.WITHDRAWAL ["withdrawal"; "atm"; "cash"]
           (tl (tl (tl DataProcessor.categories)))).
  - reflexivity.
  - vm_compute; reflexivity.
  - intros e [<- | [<- | []]]; vm_compute; reflexivity.
Defined.

(** ** From a document to the processed batch *)

Lemma extract_rows_in (year_padded : bool) (rows : list PDFParser.row) :
  forall (self : PDFParser.t) (tr : PDFParser.transaction),
    In tr (PDFParser.transactions (PDFParser.extract_rows year_padded self rows)) ->
    In tr (PDFParser.transactions self)
    \/ exists r, In r rows /\ PDFParser.parse_row year_padded r = Some tr.
Proof.
  induction rows as [|r rows IH]; intros self tr H; [left; exact H|].
  cbn [PDFParser.extract_rows] in H.
  apply IH in H as [H | (r' & Hin & E)];
    [|right; exists r'; split; [right; exact Hin | exact E]].
  destruct (3 <=? List.length r)%nat; [|left; exact H].
  destruct (PDFParser.parse_row year_padded r) as [tr'|] eqn:E; [|left; exact H].
  cbn [PDFParser.append PDFParser.transactions] in H.
  apply in_app_or in H as [H | [<- | []]]; [left; exact H|].
  right; exists r; split; [left; reflexivity | exact E].
Qed.

(** A batch that validation accepts item by item, with the types it
    finds. *)
Lemma accepted_batch (trs : list PDFParser.transaction) :
  (forall tr, In tr trs ->
     forall idx, exists p,
       DataProcessor.validate_and_clean_transaction (to_dict tr) idx = inr p
       /\ DataProcessor.type p = PDFParser.type tr) ->
  forall idx : Z,
    failures idx (List.map to_dict trs) = []
    /\ List.map DataProcessor.type (successes idx (List.map to_dict trs))
       = List.map PDFParser.type trs.
Proof.
  induction trs as [|tr trs IH]; intros H idx; [split; reflexivity|].
  destruct (H tr (or_introl eq_refl) idx) as (p & Hp & Ht).
  destruct (IH (fun t Hin => H t (or_intror Hin)) (idx + 1)) as [IH1 IH2].
  cbn [List.map failures successes]; rewrite Hp.
  split; [exact IH1 | cbn [List.map]; rewrite Ht, IH2; reflexivity].
Qed.

(** X20.  The transactions a fresh parser reads from a table all pass
    the processor: no validation error, as many processed transactions
    as raw ones, in the same order and with the same types. *)
Theorem table_transactions_all_processed :
  forall (compensated year_padded : bool) (tb : PDFParser.table)
         (proc : DataProcessor.t),
    let raw := PDFParser.transactions
                 (PDFParser.extract_from_table year_padded PDFParser.init tb) in
    let out := snd (DataProcessor.process_transactions compensated proc
                      (List.map to_dict raw)) in
    DataProcessor.errors out = []
    /\ DataProcessor.total_errors out = 0
    /\ DataProcessor.total_processed out = Z.of_nat (List.length raw)
    /\ List.map DataProcessor.type (DataProcessor.transactions out)
       = List.map PDFParser.type raw.
Proof.
  intros compensated year_padded tb proc raw out.
  assert (Hall : forall tr, In tr raw ->
            forall idx, exists p,
              DataProcessor.validate_and_clean_transaction (to_dict tr) idx = inr p
              /\ DataProcessor.type p = PDFParser.type tr).
  { intros tr Hin idx.
    apply extract_rows_in in Hin as [[] | (r & _ & Hr)].
    destruct (parse_row_inv _ _ _ Hr)
      as (c0 & c1 & c2 & rest & d & a & _ & Hd & Hne & _ & Hs & Hs1 & Ha & _
          & _ & Hty).
    assert (Hstrip : Str.strip (PDFParser.description tr) <> EmptyString)
      by (rewrite Hs, strip_idem; exact Hs1).
    eexists; split; [exact (validate_to_dict tr idx d a Hd Hne Hstrip Ha)|].
    cbn [DataProcessor.type]; symmetry; exact Hty. }
  destruct (accepted_batch raw Hall 0) as [Hf Hs].
  destruct (process_transactions_spec compensated proc (List.map to_dict raw)) as [Es Ee].
  fold out in Es, Ee.
  assert (Hlen : List.length (successes 0 (List.map to_dict raw))
                 = List.length raw).
  { rewrite <- (length_map DataProcessor.type), Hs, length_map; reflexivity. }
  split; [rewrite Ee; exact Hf|].
  split; [|split].
  - change (DataProcessor.total_errors out)
      with (Z.of_nat (List.length (DataProcessor.errors out))).
    rewrite Ee, Hf; reflexivity.
  - change (DataProcessor.total_processed out)
      with (Z.of_nat (List.length (DataProcessor.transactions out))).
    rewrite Es, Hlen; reflexivity.
  - rewrite Es; exact Hs.
Qed.

(** X21.  Whatever the document and whatever the search finds in its
    text, the only validation error the processor can meet on the
    transactions of a fresh parser is a missing description, and it
    meets it on a transaction whose description is blank. *)
Theorem parsed_document_only_missing_description :
  forall (compensated year_padded : bool)
         (finditer : string -> list (string * string * string * string))
         (pdf : PDFParser.document) (proc : DataProcessor.t)
         (e : DataProcessor.validation_error),
    let raw := PDFParser.transactions
                 (fst (PDFParser.parse_pdf year_padded finditer
                         PDFParser.init pdf)) in
    In e (DataProcessor.errors
            (snd (DataProcessor.process_transactions compensated proc
                    (List.map to_dict raw)))) ->
    DataProcessor.error e = ValueError "Missing description"
    /\ exists tr,
         In tr raw /\ DataProcessor.transaction e = to_dict tr
         /\ Str.strip (PDFParser.description tr) = EmptyString.
Proof.
  intros compensated year_padded finditer pdf proc e raw He.
  destruct (process_transactions_spec compensated proc (List.map to_dict raw)) as [_ Ee].
  rewrite Ee in He.
  apply failures_origin in He as (k & Hk & _ & Hv).
  apply nth_error_In, in_map_iff in Hk as (tr & Etr & Hin).
  assert (Hd : dated_and_nonzero tr).
  { unfold raw in Hin; destruct pdf as [pages | message];
      cbn [PDFParser.parse_pdf fst] in Hin; [|destruct Hin].
    destruct (extract_pages_appends year_padded finditer pages
                (PDFParser.detect_bank_type PDFParser.init pages))
      as (new & E & Hall).
    rewrite E in Hin; cbn [PDFParser.detect_bank_type PDFParser.transactions
                             PDFParser.init app] in Hin.
    exact (proj1 (Forall_forall _ _) Hall tr Hin). }
  rewrite <- Etr in Hv.
  destruct (validate_dated tr (0 + Z.of_nat k) Hd) as [Hblank Hok].
  destruct (Str.strip (PDFParser.description tr)) eqn:Es.
  - rewrite (Hblank eq_refl) in Hv; injection Hv as Hv.
    split; [symmetry; exact Hv|].
    exists tr; split; [exact Hin | split; [symmetry; exact Etr | exact Es]].
  - destruct Hok as (p & x & Hp & _); [discriminate|].
    rewrite Hp in Hv; discriminate Hv.
Qed.

Lemma parsed_document_only_missing_description_witness :
  In blank_description_error
     (DataProcessor.errors
        (snd (DataProcessor.process_transactions true DataProcessor.init
                (List.map to_dict
                   (PDFParser.transactions
                      (fst (PDFParser.parse_pdf true Re.finditer PDFParser.init
                              (PDFParser.Opened [blank_description_page]))))))))
  /\ DataProcessor.error blank_description_error
     = ValueError "Missing description"
  /\ exists tr,
       In tr (PDFParser.transactions
                (fst (PDFParser.parse_pdf true Re.finditer PDFParser.init
                        (PDFParser.Opened [blank_description_page]))))
       /\ DataProcessor.transaction blank_description_error = to_dict tr
       /\ Str.strip (PDFParser.description tr) = EmptyString.
Proof.
  assert (H : In blank_description_error
     (DataProcessor.errors
        (snd (DataProcessor.process_transactions true DataProcessor.init
                (List.map to_dict
                   (PDFParser.transactions
                      (fst (PDFParser.parse_pdf true Re.finditer PDFParser.init
                              (PDFParser.Opened [blank_description_page])))))))))
    by (vm_compute; left; reflexivity).
  split; [exact H|].
  exact (parsed_document_only_missing_description true true Re.finditer
           (PDFParser.Opened [blank_description_page]) DataProcessor.init
           blank_description_error H).
Defined.
